(** * mods_base: the options tree, the settings codec, commands and
    the mod factory

    A shallow embedding of [options.py] and [settings.py], and of the
    parts of [command.py] and [mod_factory.py] that do not call into
    the host.

    Python objects that are mutated in place (options, keybinds, the
    mod) are modelled by state passing: every operation returns the
    object as it is left afterwards, the events it produced (log lines,
    callback invocations, attribute stores) and the exception that
    escaped, if any.  An exception does not roll anything back, so the
    state that had been reached when it was raised is part of the
    result.

    The options of a mod are a tree, as the library asks for (a child
    of a group is not listed a second time elsewhere).  Values are
    dynamically typed: every option holds a JSON value.  A string is
    the list of the bytes of its UTF-8 encoding.  On an ASCII string
    [str.strip], [float] and [int] are written out; what they make of
    a string with other characters follows the interpreter's Unicode
    tables and is a parameter.  Display concerns (the menu, the back-reference from an option to its mod)
    are left out. *)

From Stdlib Require Import ZArith List String Ascii Bool Lia.
From Stdlib Require Import Floats.SpecFloat.
From Stdlib Require Import DecimalString.
Import ListNotations.

Local Open Scope string_scope.
Local Open Scope Z_scope.

Set Implicit Arguments.

(** ** Python numbers

    Python's [float] is an IEEE 754 binary64; it is modelled by the
    Standard Library's [spec_float] at precision 53 and maximal
    exponent 1024.  Python's [int] is unbounded, hence [Z]. *)

Module Float64.

Definition prec : Z := 53.
Definition emax : Z := 1024.

Definition is_finite (f : spec_float) : bool :=
  match f with
  | S754_zero _ | S754_finite _ _ _ => true
  | S754_infinity _ | S754_nan => false
  end.

(** The exact value of a finite float, as a signed mantissa and a
    binary exponent: [m * 2^e]. *)
Definition dyadic (f : spec_float) : Z * Z :=
  match f with
  | S754_finite s m e => (cond_Zopp s (Zpos m), e)
  | _ => (0, 0)
  end.

(** Exact comparison of the integer [z] with the dyadic [m * 2^e]. *)
Definition compare_Z_dyadic (z m e : Z) : comparison :=
  if 0 <=? e then z ?= m * 2 ^ e else z * 2 ^ (- e) ?= m.

(** Exact comparison of an [int] with a [float]; [None] when the float
    is a NaN (every ordered comparison with it is false). *)
Definition compare_Z_float (z : Z) (f : spec_float) : option comparison :=
  match f with
  | S754_nan => None
  | S754_infinity s => Some (if s then Gt else Lt)
  | S754_zero _ => Some (z ?= 0)
  | S754_finite _ _ _ => let '(m, e) := dyadic f in Some (compare_Z_dyadic z m e)
  end.

(** Exact comparison of two floats, by their values. *)
Definition compare (f1 f2 : spec_float) : option comparison :=
  match f1, f2 with
  | S754_nan, _ | _, S754_nan => None
  | S754_infinity s1, S754_infinity s2 =>
      Some (match s1, s2 with
            | true, false => Lt | false, true => Gt | _, _ => Eq end)
  | S754_infinity s, _ => Some (if s then Lt else Gt)
  | _, S754_infinity s => Some (if s then Gt else Lt)
  | _, _ =>
      let '(m1, e1) := dyadic f1 in
      let '(m2, e2) := dyadic f2 in
      let e := Z.min e1 e2 in
      Some (m1 * 2 ^ (e1 - e) ?= m2 * 2 ^ (e2 - e))
  end.

(** [float(n)] for an int: round to nearest, ties to even; a result
    beyond the largest double is an [OverflowError], reported here as
    [None]. *)
Definition of_Z (z : Z) : option spec_float :=
  match binary_normalize prec emax z 0 false with
  | S754_infinity _ => None
  | f => Some f
  end.

(** The double nearest to [p / q] (ties to even), for positive [p] and
    [q]: the quotient is computed with more than 55 significant bits
    and a sticky bit records a non-zero remainder, so that the single
    rounding of [binary_round] is the correct one. *)
Definition of_ratio (s : bool) (p q : positive) : spec_float :=
  let k := Z.max 0 (56 + Z.log2 (Zpos q) - Z.log2 (Zpos p)) in
  let n := Zpos p * 2 ^ k in
  let quo := n / Zpos q in
  let sticky := if n mod Zpos q =? 0 then 0 else 1 in
  match 2 * quo + sticky with
  | Zpos m => binary_round prec emax s m (- (k + 1))
  | _ => S754_zero s
  end.

(** The double nearest to [m * 10^e], with the sign [s] apart. *)
Definition of_decimal (s : bool) (m : Z) (e : Z) : spec_float :=
  match m with
  | Zpos p =>
      if 0 <=? e then binary_round prec emax s (Pos.mul p (Z.to_pos (10 ^ e))) 0
      else of_ratio s p (Z.to_pos (10 ^ (- e)))
  | _ => S754_zero s
  end.

(** Division by a positive integer rounded to the nearest integer,
    ties to the even one. *)
Definition div_half_even (m d : Z) : Z :=
  let q := m / d in
  match 2 * (m mod d) ?= d with
  | Lt => q
  | Gt => q + 1
  | Eq => if Z.even q then q else q + 1
  end.

(** The integer nearest to a finite float, ties to even; [None] on
    infinities and NaN. *)
Definition round_half_even (f : spec_float) : option Z :=
  match f with
  | S754_zero _ => Some 0
  | S754_finite s m e =>
      Some (cond_Zopp s (if 0 <=? e then Zpos m * 2 ^ e
                         else div_half_even (Zpos m) (2 ^ (- e))))
  | _ => None
  end.

(** Truncation toward zero, as [int(x)] does. *)
Definition truncate (f : spec_float) : option Z :=
  match f with
  | S754_zero _ => Some 0
  | S754_finite s m e =>
      Some (cond_Zopp s (if 0 <=? e then Zpos m * 2 ^ e
                         else Zpos m / 2 ^ (- e)))
  | _ => None
  end.

Definition sub (x y : spec_float) : spec_float := SFsub prec emax x y.

End Float64.

(** ** JSON values

    [type JSON = Mapping[str, JSON] | Sequence[JSON] | str | int | float
    | bool | None].  A mapping is a Python [dict]: an association list
    in insertion order. *)

#[warnings="-register-all"]
Inductive JSON : Type :=
| JNull : JSON
| JBool : bool -> JSON
| JInt : Z -> JSON
| JFloat : spec_float -> JSON
| JStr : string -> JSON
| JList : list JSON -> JSON
| JDict : list (string * JSON) -> JSON.

Definition dict := list (string * JSON).

Inductive exception : Type :=
| ValueError
| TypeError
| OverflowError
| AttributeError
| KeyError
| RecursionError
| OSError
| CallbackError.   (* any other exception a callback may raise *)

(** The result of evaluating a Python expression: a value or the
    exception raised. *)
Definition result (A : Type) : Type := (exception + A)%type.

Definition Ok {A} (a : A) : result A := inr a.
Definition Raise {A} (e : exception) : result A := inl e.

(** *** Dictionaries *)

Fixpoint dict_get (d : dict) (k : string) : option JSON :=
  match d with
  | [] => None
  | (k', v) :: d' => if String.eqb k k' then Some v else dict_get d' k
  end.

Definition dict_mem (d : dict) (k : string) : bool :=
  match dict_get d k with Some _ => true | None => false end.

(** [d[k] = v]: an existing key keeps its position. *)
Fixpoint dict_set (d : dict) (k : string) (v : JSON) : dict :=
  match d with
  | [] => [(k, v)]
  | (k', v') :: d' =>
      if String.eqb k k' then (k', v) :: d' else (k', v') :: dict_set d' k v
  end.

(** *** Strings *)

Section Codec.

(** A string with a character outside ASCII: which of its characters
    [str.strip] removes and which strings [float] and [int] read (any
    Unicode whitespace around the literal, any Unicode decimal digit
    inside it) is decided by the Unicode tables of the interpreter.
    On those strings the three builtins are parameters; a string that
    [float] or [int] does not read makes it raise a [ValueError]. *)
Variable unicode_strip : string -> string.
Variable unicode_float : string -> option spec_float.
Variable unicode_int : string -> option Z.

Definition is_ascii (c : ascii) : bool := (N_of_ascii c <? 128)%N.

Fixpoint all_ascii (s : string) : bool :=
  match s with
  | EmptyString => true
  | String c s' => is_ascii c && all_ascii s'
  end.

(** [c.isspace()] for an ASCII character: the whitespace of
    [str.strip]. *)
Definition is_space (c : ascii) : bool :=
  let n := N_of_ascii c in
  (((9 <=? n) && (n <=? 13)) || ((28 <=? n) && (n <=? 32)))%N.

(** C's [isspace]: the whitespace that [float] and [int] skip around
    an ASCII literal.  The separators 0x1c to 0x1f are not in it. *)
Definition is_c_space (c : ascii) : bool :=
  let n := N_of_ascii c in
  (((9 <=? n) && (n <=? 13)) || (n =? 32))%N.

Definition is_digit (c : ascii) : bool :=
  let n := N_of_ascii c in ((48 <=? n) && (n <=? 57))%N.

Definition digit_val (c : ascii) : Z := Z.of_N (N_of_ascii c) - 48.

Definition lower_ascii (c : ascii) : ascii :=
  let n := N_of_ascii c in
  if ((65 <=? n) && (n <=? 90))%N then ascii_of_N (n + 32) else c.

(** [s.lower()]: exact on an ASCII string.  A character outside ASCII
    is left as it is; the only two whose lower case has an ASCII
    letter are the Kelvin sign (k) and the dotted capital I (i).  The
    result is only ever compared with a word: applied to an ASCII
    string, or with a word that has neither letter, so that the
    comparison comes out as in Python. *)
Fixpoint lower (s : string) : string :=
  match s with
  | EmptyString => EmptyString
  | String c s' => String (lower_ascii c) (lower s')
  end.

Fixpoint lstrip (s : string) : string :=
  match s with
  | String c s' => if is_space c then lstrip s' else s
  | EmptyString => EmptyString
  end.

Fixpoint rev_string (s acc : string) : string :=
  match s with
  | EmptyString => acc
  | String c s' => rev_string s' (String c acc)
  end.

Definition ascii_strip (s : string) : string :=
  rev_string (lstrip (rev_string (lstrip s) "")) "".

(** [s.strip()]. *)
Definition strip (s : string) : string :=
  if all_ascii s then ascii_strip s else unicode_strip s.

Fixpoint c_lstrip (s : string) : string :=
  match s with
  | String c s' => if is_c_space c then c_lstrip s' else s
  | EmptyString => EmptyString
  end.

(** An ASCII literal without the whitespace that [float] and [int]
    skip on both sides. *)
Definition c_strip (s : string) : string :=
  rev_string (c_lstrip (rev_string (c_lstrip s) "")) "".

(** [key in s] for two strings: substring search. *)
Definition is_substring (key s : string) : bool :=
  match String.index 0 key s with Some _ => true | None => false end.

(** [str(n)] for an int. *)
Definition str_of_Z (z : Z) : string := NilZero.string_of_int (Z.to_int z).

(** *** [float(s)] for a string

    [sign] ([inf] | [infinity] | [nan] | decimal), case-insensitive,
    surrounded by optional whitespace; in a decimal a single underscore
    may separate two digits. *)

Fixpoint digits_tail (s : string) (acc n : Z) : Z * Z * string :=
  match s with
  | String c s' =>
      if is_digit c then digits_tail s' (10 * acc + digit_val c) (n + 1)
      else if Ascii.eqb c "_" then
        match s' with
        | String c2 s'' =>
            if is_digit c2 then digits_tail s'' (10 * acc + digit_val c2) (n + 1)
            else (acc, n, s)
        | EmptyString => (acc, n, s)
        end
      else (acc, n, s)
  | EmptyString => (acc, n, s)
  end.

(** A non-empty run of digits: its value, its length and the rest. *)
Definition digitpart (s : string) : option (Z * Z * string) :=
  match s with
  | String c s' => if is_digit c then Some (digits_tail s' (digit_val c) 1) else None
  | EmptyString => None
  end.

Definition parse_sign (s : string) : bool * string :=
  match s with
  | String "-" s' => (true, s')
  | String "+" s' => (false, s')
  | _ => (false, s)
  end.

(** The exponent part: absent, or [e] with an optionally signed run of
    digits; [None] when an [e] is not followed by digits. *)
Definition parse_exponent (s : string) : option (Z * string) :=
  match s with
  | String c s' =>
      if Ascii.eqb (lower_ascii c) "e" then
        let '(neg, s'') := parse_sign s' in
        match digitpart s'' with
        | Some (v, _, r) => Some (if neg then - v else v, r)
        | None => None
        end
      else Some (0, s)
  | EmptyString => Some (0, s)
  end.

(** A decimal literal: mantissa and decimal exponent. *)
Definition parse_decimal (s : string) : option (Z * Z) :=
  let '(ip, s1) :=
    match digitpart s with
    | Some (v, _, r) => (Some v, r)
    | None => (None, s)
    end in
  let '(fp, s2) :=
    match s1 with
    | String "." r =>
        match digitpart r with
        | Some (v, n, r') => (Some (Some (v, n)), r')
        | None => (Some None, r)
        end
    | _ => (None, s1)
    end in
  let mant :=
    match ip, fp with
    | Some i, Some (Some (v, n)) => Some (i * 10 ^ n + v, n)
    | Some i, _ => Some (i, 0)
    | None, Some (Some (v, n)) => Some (v, n)
    | None, _ => None
    end in
  match mant with
  | Some (m, n) =>
      match parse_exponent s2 with
      | Some (e, EmptyString) => Some (m, e - n)
      | _ => None
      end
  | None => None
  end.

(** [float(s)] for an ASCII string. *)
Definition float_of_ascii (s : string) : result spec_float :=
  let '(neg, body) := parse_sign (c_strip s) in
  let low := lower body in
  if String.eqb low "inf" || String.eqb low "infinity" then Ok (S754_infinity neg)
  else if String.eqb low "nan" then Ok S754_nan
  else match parse_decimal body with
       | Some (m, e) => Ok (Float64.of_decimal neg m e)
       | None => Raise ValueError
       end.

(** [float(s)] for a string. *)
Definition float_of_string (s : string) : result spec_float :=
  if all_ascii s then float_of_ascii s
  else match unicode_float s with
       | Some f => Ok f
       | None => Raise ValueError
       end.

(** *** Builtins on JSON values *)

(** [float(value)]. *)
Definition py_float (v : JSON) : result spec_float :=
  match v with
  | JFloat f => Ok f
  | JInt z =>
      match Float64.of_Z z with Some f => Ok f | None => Raise OverflowError end
  | JBool b =>
      match Float64.of_Z (if b then 1 else 0) with
      | Some f => Ok f | None => Raise OverflowError end
  | JStr s => float_of_string s
  | JNull | JList _ | JDict _ => Raise TypeError
  end.

(** [round(x)] for a float, without [ndigits]: an int. *)
Definition py_round (f : spec_float) : result Z :=
  match f with
  | S754_nan => Raise ValueError
  | S754_infinity _ => Raise OverflowError
  | _ => match Float64.round_half_even f with
         | Some z => Ok z
         | None => Raise OverflowError
         end
  end.

(** [int(x)] for a float. *)
Definition py_int_of_float (f : spec_float) : result Z :=
  match f with
  | S754_nan => Raise ValueError
  | S754_infinity _ => Raise OverflowError
  | _ => match Float64.truncate f with
         | Some z => Ok z
         | None => Raise OverflowError
         end
  end.

(** [bool(value)]: truthiness. *)
Definition py_bool (v : JSON) : bool :=
  match v with
  | JNull => false
  | JBool b => b
  | JInt z => negb (z =? 0)
  | JFloat f => match f with S754_zero _ => false | _ => true end
  | JStr s => negb (String.eqb s "")
  | JList l => match l with [] => false | _ => true end
  | JDict d => match d with [] => false | _ => true end
  end.

(** [a == b] for two numbers: ints and floats compare by exact value,
    a NaN equals nothing. *)
Definition num_eqb (a b : JSON) : option bool :=
  let is_eq (c : option comparison) :=
    match c with Some Eq => true | _ => false end in
  match a, b with
  | JInt x, JInt y => Some (x =? y)
  | JInt x, JFloat g => Some (is_eq (Float64.compare_Z_float x g))
  | JFloat f, JInt y => Some (is_eq (Float64.compare_Z_float y f))
  | JFloat f, JFloat g => Some (is_eq (Float64.compare f g))
  | _, _ => None
  end.

(** ** Effects

    What an operation leaves behind: the object as mutated so far, the
    events in the order they happened, and the exception that escaped
    (if one did, the remaining statements were not run). *)

Inductive event : Type :=
| EvOnChange (id : string) (new_value : JSON)   (* [on_change(self, value)] is entered *)
| EvEffect (tag : string) (arg : JSON)          (* something a callback does elsewhere *)
| EvStore (id : string) (v : JSON)              (* [super().__setattr__("value", v)] *)
| EvLogError (msg : string)                     (* [logging.error(msg)] *)
| EvWarn (msg : string)                         (* [warnings.warn(msg)] *)
| EvKeybindKey (id : string) (key : option string)   (* [keybind.key = key] *)
| EvEnable.                                     (* [self.enable()] *)

Record outcome (A : Type) : Type := mkOutcome {
  post : A;
  trace : list event;
  raised : option exception
}.

Arguments mkOutcome {A} _ _ _.

Definition ret {A} (a : A) : outcome A := mkOutcome a [] None.
Definition emit {A} (e : event) (a : A) : outcome A := mkOutcome a [e] None.
Definition throw {A} (x : exception) (a : A) : outcome A := mkOutcome a [] (Some x).

(** Statement sequencing: the second statement runs only if the first
    returned. *)
Definition seq {A} (r : outcome A) (k : A -> outcome A) : outcome A :=
  match raised r with
  | Some _ => r
  | None =>
      let r' := k (post r) in
      mkOutcome (post r') (trace r ++ trace r') (raised r')
  end.

(** The same run seen from an enclosing object. *)
Definition lift {A B} (f : A -> B) (r : outcome A) : outcome B :=
  mkOutcome (f (post r)) (trace r) (raised r).

Definition exception_eqb (a b : exception) : bool :=
  match a, b with
  | ValueError, ValueError | TypeError, TypeError
  | OverflowError, OverflowError | AttributeError, AttributeError
  | KeyError, KeyError | RecursionError, RecursionError
  | OSError, OSError
  | CallbackError, CallbackError => true
  | _, _ => false
  end.

(** [try: body except x: handler]. *)
Definition try_except {A} (body : outcome A) (x : exception)
    (handler : A -> outcome A) : outcome A :=
  match raised body with
  | Some e =>
      if exception_eqb e x then
        let r' := handler (post body) in
        mkOutcome (post r') (trace body ++ trace r') (raised r')
      else body
  | None => body
  end.

(** [for x in xs: body(x)], each element mutated in place. *)
Definition for_each {A} (body : A -> outcome A) : list A -> outcome (list A) :=
  fix go (xs : list A) : outcome (list A) :=
    match xs with
    | [] => ret []
    | x :: xs' =>
        let r := body x in
        match raised r with
        | Some _ => mkOutcome (post r :: xs') (trace r) (raised r)
        | None =>
            let r' := go xs' in
            mkOutcome (post r :: post r') (trace r ++ trace r') (raised r')
        end
    end.

(** ** Change callbacks

    An [on_change] callback is arbitrary code of the mod author.  It
    is modelled as a finite program over the option it is attached to:
    it may read the option's value, assign to it, have an effect
    elsewhere, return or raise. *)

Inductive Cmd : Type :=
| CDone : Cmd
| CRaise : exception -> Cmd
| CRead : (JSON -> Cmd) -> Cmd
| CAssign : JSON -> Cmd -> Cmd
| CEffect : string -> JSON -> Cmd -> Cmd.

(** The fields of [BaseOption]. *)
Record BaseData : Type := mkBase {
  identifier : string;
  display_name : string;
  description : string;
  description_title : string;
  is_hidden : bool
}.

(** The fields of [ValueOption]; [guard] tells whether the attribute
    [_on_change_recursion_guard] exists on the object. *)
Record ValueData : Type := mkValue {
  base : BaseData;
  value : JSON;
  default_value : JSON;
  on_change : option (JSON -> Cmd);
  guard : bool
}.

Definition with_value (o : ValueData) (v : JSON) : ValueData :=
  mkValue (base o) v (default_value o) (on_change o) (guard o).

Definition with_guard (o : ValueData) (g : bool) : ValueData :=
  mkValue (base o) (value o) (default_value o) (on_change o) g.

(** [super().__setattr__("value", v)]. *)
Definition store (o : ValueData) (v : JSON) : outcome ValueData :=
  emit (EvStore (identifier (base o)) v) (with_value o v).

(** Running a callback body; [assign] is what an assignment to the
    option's value does, that is, [__setattr__] again. *)
Fixpoint run_cmd (assign : ValueData -> JSON -> outcome ValueData)
    (c : Cmd) (o : ValueData) : outcome ValueData :=
  match c with
  | CDone => ret o
  | CRaise e => throw e o
  | CRead k => run_cmd assign (k (value o)) o
  | CAssign w k => seq (assign o w) (run_cmd assign k)
  | CEffect tag arg k => seq (emit (EvEffect tag arg) o) (run_cmd assign k)
  end.

(** [ValueOption.__setattr__("value", v)].  The fuel bounds the nesting
    of callback invocations; [setattr_value_fuel] shows that the guard
    keeps it at one. *)
Fixpoint setattr_value (fuel : nat) (o : ValueData) (v : JSON) : outcome ValueData :=
  match on_change o with
  | Some cb =>
      if negb (guard o) then
        match fuel with
        | O => throw RecursionError o
        | S fuel' =>
            let o1 := with_guard o true in
            let r := seq (emit (EvOnChange (identifier (base o)) v) o1)
                         (run_cmd (setattr_value fuel') (cb v)) in
            seq (seq r (fun o2 => ret (with_guard o2 false)))
                (fun o3 => store o3 v)
        end
      else store o v
  | None => store o v
  end.

(** [self.value = v]. *)
Definition set_value (o : ValueData) (v : JSON) : outcome ValueData :=
  setattr_value 1 o v.

(** ** Numbers held by a slider: Python ints and floats *)

Inductive number : Type :=
| NInt : Z -> number
| NFloat : spec_float -> number.

Definition number_json (x : number) : JSON :=
  match x with NInt z => JInt z | NFloat f => JFloat f end.

(** [a - b]: exact on ints; as soon as a float is involved the int is
    converted to a float first. *)
Definition num_sub (a b : number) : result number :=
  match a, b with
  | NInt x, NInt y => Ok (NInt (x - y))
  | NFloat f, NFloat g => Ok (NFloat (Float64.sub f g))
  | NInt x, NFloat g =>
      match Float64.of_Z x with
      | Some f => Ok (NFloat (Float64.sub f g))
      | None => Raise OverflowError
      end
  | NFloat f, NInt y =>
      match Float64.of_Z y with
      | Some g => Ok (NFloat (Float64.sub f g))
      | None => Raise OverflowError
      end
  end.

(** [a ?= b] by exact value; [None] when a NaN is involved. *)
Definition num_compare (a b : number) : option comparison :=
  match a, b with
  | NInt x, NInt y => Some (x ?= y)
  | NInt x, NFloat g => Float64.compare_Z_float x g
  | NFloat f, NInt y => option_map CompOpp (Float64.compare_Z_float y f)
  | NFloat f, NFloat g => Float64.compare f g
  end.

(** [a > b]. *)
Definition num_gtb (a b : number) : bool :=
  match num_compare a b with Some Gt => true | _ => false end.

(** [x != int(x)]. *)
Definition num_ne_int (x : number) : result bool :=
  match x with
  | NInt _ => Ok false
  | NFloat f =>
      match py_int_of_float f with
      | inl e => Raise e
      | inr z =>
          Ok (match Float64.compare_Z_float z f with
              | Some Eq => false
              | _ => true
              end)
      end
  end.

(** [any(x != int(x) for x in xs)], evaluated lazily from the left. *)
Fixpoint any_ne_int (xs : list number) : result bool :=
  match xs with
  | [] => Ok false
  | x :: xs' =>
      match num_ne_int x with
      | inl e => Raise e
      | inr true => Ok true
      | inr false => any_ne_int xs'
      end
  end.

(** ** The option classes *)

#[warnings="-register-all"]
Inductive BaseOption : Type :=
| HiddenOption (d : ValueData)
| SliderOption (d : ValueData) (min_value max_value step : number) (is_integer : bool)
| SpinnerOption (d : ValueData) (choices : list string) (wrap_enabled : bool)
| BoolOption (d : ValueData) (true_text false_text : option string)
| DropdownOption (d : ValueData) (choices : list string)
| ButtonOption (b : BaseData)
| KeybindOption (d : ValueData) (is_rebindable : bool)
| GroupedOption (b : BaseData) (children : list BaseOption)
| NestedOption (b : BaseData) (children : list BaseOption).

(** [option.identifier]. *)
Definition option_identifier (o : BaseOption) : string :=
  match o with
  | HiddenOption d | SliderOption d _ _ _ _ | SpinnerOption d _ _
  | BoolOption d _ _ | DropdownOption d _ | KeybindOption d _ => identifier (base d)
  | ButtonOption b | GroupedOption b _ | NestedOption b _ => identifier b
  end.

(** [option.value], for the classes that have one. *)
Definition option_value (o : BaseOption) : option JSON :=
  match o with
  | HiddenOption d | SliderOption d _ _ _ _ | SpinnerOption d _ _
  | BoolOption d _ _ | DropdownOption d _ | KeybindOption d _ => Some (value d)
  | ButtonOption _ | GroupedOption _ _ | NestedOption _ _ => None
  end.

(** [BaseOption.__post_init__]. *)
Definition BaseOption_post_init (id : string) (display : option string)
    (descr : string) (title : option string) (hidden : bool) : BaseData :=
  let display' := match display with Some s => s | None => id end in
  let title' := match title with Some s => s | None => display' end in
  mkBase id display' descr title' hidden.

(** The generated [__init__] of a [ValueOption] followed by
    [ValueOption.__post_init__]: while the fields are being assigned
    [on_change] is still the class default [None], so no callback runs. *)
Definition ValueOption_init (b : BaseData) (v : JSON)
    (cb : option (JSON -> Cmd)) : ValueData :=
  mkValue b v v cb false.

Definition integer_warning_message : string :=
  "Spinner has non-integer fields despite is_integer being True. This may cause unexpected rounding.".

(** [SliderOption(...)]: the generated [__init__] and
    [SliderOption.__post_init__].  Either the exception raised, or the
    new option and the warnings issued. *)
Definition SliderOption_init (id : string) (v min_value max_value step : number)
    (is_integer : bool) (display : option string) (descr : string)
    (title : option string) (hidden : bool) (cb : option (JSON -> Cmd))
    : result (BaseOption * list event) :=
  let d := ValueOption_init (BaseOption_post_init id display descr title hidden)
                            (number_json v) cb in
  let o := SliderOption d min_value max_value step is_integer in
  match num_sub max_value min_value with
  | inl e => Raise e
  | inr range =>
      if num_gtb step range then Raise ValueError
      else if is_integer then
        match any_ne_int [v; min_value; max_value; step] with
        | inl e => Raise e
        | inr true => Ok (o, [EvWarn integer_warning_message])
        | inr false => Ok (o, [])
        end
      else Ok (o, [])
  end.

(** An instance of the parameters of the codec, for the closed
    examples at the end, none of which depends on what the instance
    returns.  [repr]: a string between single quotes, which is
    Python's [repr] of a string without quotes, backslashes or control
    characters; a float as the Python expression [m*2**e] of its
    value.  The builtins on strings with characters outside ASCII:
    nothing is stripped and nothing is read as a number, which is
    what Python does when none of these characters is a whitespace or
    a decimal digit; the examples hold ASCII strings only. *)
Definition sample_unicode_strip (s : string) : string := s.

Definition sample_unicode_float (s : string) : option spec_float := None.

Definition sample_unicode_int (s : string) : option Z := None.

Definition sample_str_repr (s : string) : string := "'" ++ s ++ "'".

Definition sample_float_repr (f : spec_float) : string :=
  match f with
  | S754_nan => "nan"
  | S754_infinity s => if s then "-inf" else "inf"
  | S754_zero s => if s then "-0.0" else "0.0"
  | S754_finite s m e =>
      (if s then "-" else "") ++ str_of_Z (Zpos m) ++ "*2**" ++ str_of_Z e
  end.

(** Python's [repr] of a float (the shortest decimal that reads back
    to it) and of a string (quoting and escaping) are builtins whose
    text is nothing the library depends on: they are parameters. *)
Variable float_repr : spec_float -> string.
Variable str_repr : string -> string.

Fixpoint join (sep : string) (l : list string) : string :=
  match l with
  | [] => ""
  | [x] => x
  | x :: l' => x ++ sep ++ join sep l'
  end.

(** [repr(value)]. *)
Fixpoint py_repr (v : JSON) : string :=
  match v with
  | JNull => "None"
  | JBool true => "True"
  | JBool false => "False"
  | JInt z => str_of_Z z
  | JFloat f => float_repr f
  | JStr s => str_repr s
  | JList l => "[" ++ join ", " (map py_repr l) ++ "]"
  | JDict d =>
      "{" ++ join ", " (map (fun kv => str_repr (fst kv) ++ ": " ++ py_repr (snd kv)) d)
          ++ "}"
  end.

(** [str(value)], also what an f-string inserts. *)
Definition py_str (v : JSON) : string :=
  match v with
  | JStr s => s
  | _ => py_repr v
  end.

(** [f"'{value}' is not a valid value for option '{self.identifier}',
    sticking with the default"]. *)
Definition invalid_message (shown : string) (id : string) : string :=
  "'" ++ shown ++ "' is not a valid value for option '" ++ id
      ++ "', sticking with the default".

(** [round(self.value)]. *)
Definition py_round_value (v : JSON) : result Z :=
  match v with
  | JFloat f => py_round f
  | JInt z => Ok z
  | JBool b => Ok (if b then 1 else 0)
  | _ => Raise TypeError
  end.

(** *** [_from_json], class by class *)

Definition HiddenOption_from_json (d : ValueData) (v : JSON) : outcome ValueData :=
  set_value d v.

Definition SliderOption_from_json (d : ValueData) (is_integer : bool) (v : JSON)
    : outcome ValueData :=
  try_except
    (match py_float v with
     | inl e => throw e d
     | inr f =>
         seq (set_value d (JFloat f))
             (fun d1 =>
                if is_integer then
                  match py_round_value (value d1) with
                  | inl e => throw e d1
                  | inr z => set_value d1 (JInt z)
                  end
                else ret d1)
     end)
    ValueError
    (fun d' => emit (EvLogError (invalid_message (py_str v) (identifier (base d')))) d').

Definition in_choices (s : string) (choices : list string) : bool :=
  existsb (String.eqb s) choices.

(** [SpinnerOption._from_json] and [DropdownOption._from_json] have the
    same body. *)
Definition choice_from_json (d : ValueData) (choices : list string) (v : JSON)
    : outcome ValueData :=
  let s := py_str v in
  if in_choices s choices then set_value d (JStr s)
  else emit (EvLogError (invalid_message s (identifier (base d)))) d.

Definition SpinnerOption_from_json := choice_from_json.
Definition DropdownOption_from_json := choice_from_json.

Definition BoolOption_from_json (d : ValueData) (v : JSON) : outcome ValueData :=
  let v' :=
    match v with
    | JStr s => if String.eqb (lower (strip s)) "false" then JBool false else v
    | _ => v
    end in
  set_value d (JBool (py_bool v')).

Definition KeybindOption_from_json (d : ValueData) (v : JSON) : outcome ValueData :=
  match v with
  | JNull => set_value d JNull
  | _ => set_value d (JStr (py_str v))
  end.

(** The loop shared by [GroupedOption._from_json],
    [NestedOption._from_json] and, on a mapping, [load_options_dict]:
    a child whose identifier is not a key is skipped. *)
Definition dispatch_child (from_json : BaseOption -> JSON -> outcome BaseOption)
    (m : dict) (o : BaseOption) : outcome BaseOption :=
  match dict_get m (option_identifier o) with
  | None => ret o
  | Some x => from_json o x
  end.

(** [option._from_json(value)]. *)
Fixpoint from_json (o : BaseOption) (v : JSON) {struct o} : outcome BaseOption :=
  match o with
  | HiddenOption d => lift HiddenOption (HiddenOption_from_json d v)
  | SliderOption d lo hi st int =>
      lift (fun d' => SliderOption d' lo hi st int) (SliderOption_from_json d int v)
  | SpinnerOption d cs w =>
      lift (fun d' => SpinnerOption d' cs w) (SpinnerOption_from_json d cs v)
  | BoolOption d t f =>
      lift (fun d' => BoolOption d' t f) (BoolOption_from_json d v)
  | DropdownOption d cs =>
      lift (fun d' => DropdownOption d' cs) (DropdownOption_from_json d cs v)
  | ButtonOption b => ret o
  | KeybindOption d r =>
      lift (fun d' => KeybindOption d' r) (KeybindOption_from_json d v)
  | GroupedOption b children =>
      match v with
      | JDict m =>
          lift (GroupedOption b) (for_each (dispatch_child from_json m) children)
      | _ => emit (EvLogError (invalid_message (py_str v) (identifier b))) o
      end
  | NestedOption b children =>
      match v with
      | JDict m =>
          lift (NestedOption b) (for_each (dispatch_child from_json m) children)
      | _ => emit (EvLogError (invalid_message (py_str v) (identifier b))) o
      end
  end.

(** *** [_to_json]; [None] stands for [Ellipsis], "no value" *)

(** [{option.identifier: child_json for option in options if
    (child_json := option._to_json()) is not ...}]. *)
Definition collect (to_json : BaseOption -> option JSON) (options : list BaseOption)
    : dict :=
  fold_left (fun acc o =>
               match to_json o with
               | Some j => dict_set acc (option_identifier o) j
               | None => acc
               end) options [].

Definition ValueOption_to_json (d : ValueData) : JSON := value d.

(** [option._to_json()]. *)
Fixpoint to_json (o : BaseOption) : option JSON :=
  match o with
  | HiddenOption d | SliderOption d _ _ _ _ | SpinnerOption d _ _
  | BoolOption d _ _ | DropdownOption d _ | KeybindOption d _ =>
      Some (ValueOption_to_json d)
  | ButtonOption _ => None
  | GroupedOption _ children => Some (JDict (collect to_json children))
  | NestedOption _ children => Some (JDict (collect to_json children))
  end.

(** ** settings.py *)

(** [key in container], for a string key and whatever [json.load]
    returned. *)
Definition py_contains (key : string) (c : JSON) : result bool :=
  match c with
  | JDict d => Ok (dict_mem d key)
  | JList l =>
      Ok (existsb (fun x => match x with JStr s => String.eqb s key | _ => false end) l)
  | JStr s => Ok (is_substring key s)
  | JNull | JBool _ | JInt _ | JFloat _ => Raise TypeError
  end.

(** [container[key]], for a string key. *)
Definition py_getitem (c : JSON) (key : string) : result JSON :=
  match c with
  | JDict d => match dict_get d key with Some v => Ok v | None => Raise KeyError end
  | _ => Raise TypeError
  end.

(** [container.get(key, default)]. *)
Definition py_get (c : JSON) (key : string) (default : JSON) : result JSON :=
  match c with
  | JDict d => Ok (match dict_get d key with Some v => v | None => default end)
  | _ => Raise AttributeError
  end.

(** The body of the loop of [load_options_dict]. *)
Definition load_option (settings : JSON) (o : BaseOption) : outcome BaseOption :=
  match py_contains (option_identifier o) settings with
  | inl e => throw e o
  | inr false => ret o
  | inr true =>
      match py_getitem settings (option_identifier o) with
      | inl e => throw e o
      | inr v => from_json o v
      end
  end.

Definition load_options_dict (options : list BaseOption) (settings : JSON)
    : outcome (list BaseOption) :=
  for_each (load_option settings) options.

Definition create_options_dict (options : list BaseOption) : dict :=
  collect to_json options.

(** Modelled from the spec: [KeybindType] ([keybinds.py] is not under
    src).  Of a keybind the settings code uses its identifier, its
    current key ([None] when unbound) and whether it may be rebound. *)
Record KeybindType : Type := mkKeybind {
  kb_identifier : string;
  key : option string;
  kb_is_rebindable : bool
}.

Definition key_json (k : option string) : JSON :=
  match k with Some s => JStr s | None => JNull end.

(** [keybind.key = k]. *)
Definition set_key (kb : KeybindType) (k : option string) : outcome KeybindType :=
  emit (EvKeybindKey (kb_identifier kb) k)
       (mkKeybind (kb_identifier kb) k (kb_is_rebindable kb)).

(** Modelled from the spec: [Mod] ([mod.py] is not under src).  The
    fields the settings code reads: the settings file path, the option
    and keybind sequences, the auto-enable flag and the enabled state. *)
Record Mod : Type := mkMod {
  settings_file : option string;
  options : list BaseOption;
  keybinds : list KeybindType;
  auto_enable : bool;
  is_enabled : bool
}.

Definition with_options (m : Mod) (os : list BaseOption) : Mod :=
  mkMod (settings_file m) os (keybinds m) (auto_enable m) (is_enabled m).

Definition with_keybinds (m : Mod) (ks : list KeybindType) : Mod :=
  mkMod (settings_file m) (options m) ks (auto_enable m) (is_enabled m).

(** Modelled from the spec: [Mod.enable] ([mod.py] is not under src):
    the mod enters the enabled state; the call is recorded as
    [EvEnable]. *)
Definition Mod_enable (m : Mod) : outcome Mod :=
  emit EvEnable
       (mkMod (settings_file m) (options m) (keybinds m) (auto_enable m) true).

(** What [open] and [json.load] make of a path: no file
    ([FileNotFoundError]); a text that is not JSON
    ([json.JSONDecodeError]); any other exception, which is not one
    of the two that the load catches (a directory or a file that may
    not be read, [OSError]; bytes that are not UTF-8 or an int
    literal of more than 4300 digits, each a [ValueError] that is not
    a [JSONDecodeError]; nesting deeper than the interpreter's stack,
    [RecursionError]); or a document. *)
Inductive file_state : Type :=
| Missing
| Malformed
| Unreadable (e : exception)
| Document (j : JSON).

Definition filesystem : Type := string -> file_state.

Definition fs_update (fs : filesystem) (p : string) (x : file_state) : filesystem :=
  fun q => if String.eqb q p then x else fs q.

(** The body of the keybind loop of [default_load_mod_settings]. *)
Definition load_keybind (saved_keybinds : JSON) (kb : KeybindType)
    : outcome KeybindType :=
  match py_contains (kb_identifier kb) saved_keybinds with
  | inl e => throw e kb
  | inr false => ret kb
  | inr true =>
      match py_getitem saved_keybinds (kb_identifier kb) with
      | inl e => throw e kb
      | inr JNull => set_key kb None
      | inr k => set_key kb (Some (py_str k))
      end
  end.

Definition load_options_section (settings : JSON) (m : Mod) : outcome Mod :=
  match py_contains "options" settings with
  | inl e => throw e m
  | inr false => ret m
  | inr true =>
      match py_getitem settings "options" with
      | inl e => throw e m
      | inr section => lift (with_options m) (load_options_dict (options m) section)
      end
  end.

Definition load_keybinds_section (settings : JSON) (m : Mod) : outcome Mod :=
  match py_contains "keybinds" settings with
  | inl e => throw e m
  | inr false => ret m
  | inr true =>
      match py_getitem settings "keybinds" with
      | inl e => throw e m
      | inr saved => lift (with_keybinds m) (for_each (load_keybind saved) (keybinds m))
      end
  end.

(** [if self.auto_enable and settings.get("enabled", False): self.enable()]. *)
Definition load_enabled (settings : JSON) (m : Mod) : outcome Mod :=
  if auto_enable m then
    match py_get settings "enabled" (JBool false) with
    | inl e => throw e m
    | inr v => if py_bool v then Mod_enable m else ret m
    end
  else ret m.

Definition default_load_mod_settings (m : Mod) (fs : filesystem) : outcome Mod :=
  match settings_file m with
  | None => ret m
  | Some p =>
      match fs p with
      | Missing | Malformed => ret m
      | Unreadable e => throw e m
      | Document settings =>
          seq (seq (load_options_section settings m)
                   (load_keybinds_section settings))
              (load_enabled settings)
      end
  end.

(** The keybind loop of [default_save_mod_settings]. *)
Definition keybind_settings (ks : list KeybindType) : dict :=
  fold_left (fun acc kb =>
               if negb (kb_is_rebindable kb) then acc
               else dict_set acc (kb_identifier kb) (key_json (key kb)))
            ks [].

(** The document [default_save_mod_settings] builds. *)
Definition save_document (m : Mod) : dict :=
  let settings : dict := [] in
  let settings :=
    if (0 <? List.length (options m))%nat then
      let option_settings := create_options_dict (options m) in
      if (0 <? List.length option_settings)%nat
      then dict_set settings "options" (JDict option_settings)
      else settings
    else settings in
  let settings :=
    if (0 <? List.length (keybinds m))%nat then
      let ks := keybind_settings (keybinds m) in
      if (0 <? List.length ks)%nat
      then dict_set settings "keybinds" (JDict ks)
      else settings
    else settings in
  if auto_enable m then dict_set settings "enabled" (JBool (is_enabled m))
  else settings.

(** [default_save_mod_settings]: the file system afterwards. *)
Definition default_save_mod_settings (m : Mod) (fs : filesystem) : filesystem :=
  match settings_file m with
  | None => fs
  | Some p =>
      let settings := save_document m in
      if (List.length settings =? 0)%nat then fs_update fs p Missing
      else fs_update fs p (Document (JDict settings))
  end.

(** ** Well-behaved callbacks

    Exceptions raised by a callback are the mod author's; the
    statements below about the library say so when they need a
    callback that returns. *)

Fixpoint never_raises (c : Cmd) : Prop :=
  match c with
  | CDone => True
  | CRaise _ => False
  | CRead k => forall x, never_raises (k x)
  | CAssign _ k => never_raises k
  | CEffect _ _ k => never_raises k
  end.

(** The option has no callback, or one that always returns. *)
Definition quiet (d : ValueData) : Prop :=
  match on_change d with
  | None => True
  | Some cb => forall v, never_raises (cb v)
  end.

Definition is_on_change (e : event) : bool :=
  match e with EvOnChange _ _ => true | _ => false end.

Definition is_log_error (e : event) : bool :=
  match e with EvLogError _ => true | _ => false end.

Definition is_enable (e : event) : bool :=
  match e with EvEnable => true | _ => false end.

(** Events an option can produce: everything but the mod-level ones. *)
Definition is_option_event (e : event) : bool :=
  match e with
  | EvOnChange _ _ | EvEffect _ _ | EvStore _ _ | EvLogError _ => true
  | EvWarn _ | EvKeybindKey _ _ | EvEnable => false
  end.

(** [a == b] as the round trip needs it: the same value, or two numbers
    that compare equal ([5 == 5.0]). *)
Definition py_eq (a b : JSON) : Prop :=
  a = b \/ num_eqb a b = Some true.

(** The values a slider is meant to hold: a finite float, or an int
    that [float] represents exactly ([float(v) == v]); when the slider
    is integer-flagged, a float value is integral ([v == int(v)], the
    test of [__post_init__]). *)
Definition slider_domain (is_integer : bool) (v : JSON) : Prop :=
  match v with
  | JInt z =>
      exists f, Float64.of_Z z = Some f /\ Float64.compare_Z_float z f = Some Eq
  | JFloat f =>
      Float64.is_finite f = true /\
      (is_integer = true -> num_ne_int (NFloat f) = Ok false)
  | _ => False
  end.

(** The valid domain of each value-holding class. *)
Definition in_domain (o : BaseOption) : Prop :=
  match o with
  | HiddenOption _ => True
  | SliderOption d _ _ _ int => slider_domain int (value d)
  | SpinnerOption d cs _ | DropdownOption d cs =>
      exists s, value d = JStr s /\ In s cs
  | BoolOption d _ _ => exists b, value d = JBool b
  | KeybindOption d _ => value d = JNull \/ exists s, value d = JStr s
  | ButtonOption _ | GroupedOption _ _ | NestedOption _ _ => False
  end.

(** The value data of a value-holding option. *)
Definition option_data (o : BaseOption) : option ValueData :=
  match o with
  | HiddenOption d | SliderOption d _ _ _ _ | SpinnerOption d _ _
  | BoolOption d _ _ | DropdownOption d _ | KeybindOption d _ => Some d
  | ButtonOption _ | GroupedOption _ _ | NestedOption _ _ => None
  end.

Definition quiet_option (o : BaseOption) : Prop :=
  match option_data o with Some d => quiet d | None => True end.

(** What the loader finds for a mod: the parsed document, if the mod
    has a settings file and the file holds one. *)
Definition persisted (m : Mod) (fs : filesystem) : option JSON :=
  match settings_file m with
  | None => None
  | Some p => match fs p with Document j => Some j | _ => None end
  end.

(** The document marks the mod enabled: [settings.get("enabled", False)]
    is truthy. *)
Definition marks_enabled (m : Mod) (fs : filesystem) : bool :=
  match persisted m fs with
  | Some j =>
      match py_get j "enabled" (JBool false) with
      | inr v => py_bool v
      | inl _ => false
      end
  | None => false
  end.

(** The run of [default_load_mod_settings] up to the enable step. *)
Definition load_values (settings : JSON) (m : Mod) : outcome Mod :=
  seq (load_options_section settings m) (load_keybinds_section settings).

Definition quiet_event (e : event) : bool :=
  is_option_event e && negb (is_log_error e).


(** The option with its value replaced, everything else as it was. *)
Definition option_with_value (o : BaseOption) (x : JSON) : BaseOption :=
  match o with
  | HiddenOption d => HiddenOption (with_value d x)
  | SliderOption d lo hi st int => SliderOption (with_value d x) lo hi st int
  | SpinnerOption d cs w => SpinnerOption (with_value d x) cs w
  | BoolOption d t f => BoolOption (with_value d x) t f
  | DropdownOption d cs => DropdownOption (with_value d x) cs
  | KeybindOption d r => KeybindOption (with_value d x) r
  | ButtonOption _ | GroupedOption _ _ | NestedOption _ _ => o
  end.

(** The choices of a spinner or dropdown. *)
Definition option_choices (o : BaseOption) : option (list string) :=
  match o with
  | SpinnerOption _ cs _ | DropdownOption _ cs => Some cs
  | _ => None
  end.

(** At least one option serializes to a value (not to [Ellipsis]). *)
Definition has_option_value (m : Mod) : Prop :=
  exists o, In o (options m) /\ to_json o <> None.

(** At least one keybind is rebindable. *)
Definition has_rebindable (m : Mod) : Prop :=
  exists kb, In kb (keybinds m) /\ kb_is_rebindable kb = true.

Definition not_enable (e : event) : bool := negb (is_enable e).

(** No slider anywhere in the option, and every callback returns. *)
Fixpoint slider_free (o : BaseOption) : Prop :=
  match o with
  | SliderOption _ _ _ _ _ => False
  | HiddenOption d | SpinnerOption d _ _ | BoolOption d _ _
  | DropdownOption d _ | KeybindOption d _ => quiet d
  | ButtonOption _ => True
  | GroupedOption _ children | NestedOption _ children =>
      (fix all (l : list BaseOption) : Prop :=
         match l with
         | [] => True
         | c :: l' => slider_free c /\ all l'
         end) children
  end.

(** ** Sample options, mods and documents

    The data of the closed instances at the end. *)

Definition base_of (id : string) : BaseData :=
  BaseOption_post_init id None "" None false.

(** [SliderOption("volume", 5, 0, 10)]. *)
Definition volume : BaseOption :=
  SliderOption (ValueOption_init (base_of "volume") (JInt 5) None)
               (NInt 0) (NInt 10) (NInt 1) true.

(** [SliderOption("ticks", 2**53 + 1, 0, 2**54)]. *)
Definition ticks : BaseOption :=
  SliderOption (ValueOption_init (base_of "ticks") (JInt (2 ^ 53 + 1)) None)
               (NInt 0) (NInt (2 ^ 54)) (NInt 1) true.

(** [SpinnerOption("mode", "b", ["a", "b", "c"])]. *)
Definition mode : BaseOption :=
  SpinnerOption (ValueOption_init (base_of "mode") (JStr "b") None)
                ["a"; "b"; "c"] false.

(** An option whose callback first overwrites the value with 0. *)
Definition resetting : ValueData :=
  mkValue (base_of "secret") (JInt 1) (JInt 1)
          (Some (fun _ => CAssign (JInt 0) CDone)) false.

Definition sample_mod : Mod :=
  mkMod (Some "sample.json") [volume; mode]
        [mkKeybind "jump" (Some "F1") true] true false.

(** A mod with nothing to save: a button, a keybind that cannot be
    rebound, no auto-enable. *)
Definition bare_mod : Mod :=
  mkMod (Some "bare.json") [ButtonOption (base_of "press")]
        [mkKeybind "fixed" (Some "F2") false] false false.

Definition sample_document : JSON :=
  JDict [("options", JDict [("volume", JStr "7.6")]);
         ("keybinds", JDict [("jump", JNull)]);
         ("enabled", JBool true)].

Definition sample_fs : filesystem := fun _ => Document sample_document.

(** [SliderOption("strict", 5, 0, 10, on_change=...)]: the callback
    raises whatever the new value is. *)
Definition strict : BaseOption :=
  SliderOption (ValueOption_init (base_of "strict") (JInt 5)
                                 (Some (fun _ => CRaise CallbackError)))
               (NInt 0) (NInt 10) (NInt 1) true.

Definition strict_mod : Mod :=
  mkMod (Some "strict.json") [strict] [] true false.

(** A document with a value for that slider, which marks the mod
    enabled. *)
Definition strict_document : JSON :=
  JDict [("options", JDict [("strict", JInt 7)]); ("enabled", JBool true)].

Definition strict_fs : filesystem := fun _ => Document strict_document.


(** ** More of the options and of the settings codec *)

(** The value of the last option of the sequence that is named [k] and
    serializes to a value: what a dict comprehension keeps for [k]. *)
Definition last_json (os : list BaseOption) (k : string) : option JSON :=
  fold_left (fun acc o =>
               if String.eqb k (option_identifier o)
               then match to_json o with Some j => Some j | None => acc end
               else acc) os None.

(** The key of the last rebindable keybind named [k]. *)
Definition last_key (ks : list KeybindType) (k : string) : option JSON :=
  fold_left (fun acc kb =>
               if String.eqb k (kb_identifier kb) && kb_is_rebindable kb
               then Some (key_json (key kb)) else acc) ks None.



(** The value of a slider reads back as itself, same type included: an
    int that [float] represents exactly on an integer-flagged slider, a
    float on one that is not. *)
Definition slider_settled (is_integer : bool) (v : JSON) : Prop :=
  match v with
  | JInt z =>
      is_integer = true /\
      exists f, Float64.of_Z z = Some f /\ Float64.compare_Z_float z f = Some Eq
  | JFloat _ => is_integer = false
  | _ => False
  end.

(** An option tree that a save followed by a load restores: every
    value is one its class reads back as itself, every callback
    returns, and the identifiers of siblings are distinct. *)
Fixpoint restorable (o : BaseOption) : Prop :=
  match o with
  | HiddenOption d => quiet d
  | SliderOption d _ _ _ int => quiet d /\ slider_settled int (value d)
  | SpinnerOption d cs _ | DropdownOption d cs =>
      quiet d /\ exists s, value d = JStr s /\ In s cs
  | BoolOption d _ _ => quiet d /\ exists b, value d = JBool b
  | KeybindOption d _ => quiet d /\ (value d = JNull \/ exists s, value d = JStr s)
  | ButtonOption _ => True
  | GroupedOption _ children | NestedOption _ children =>
      (fix all (l : list BaseOption) : Prop :=
         match l with
         | [] => True
         | c :: l' => restorable c /\ all l'
         end) children /\
      NoDup (map option_identifier children)
  end.

(** An option reads its own serialization back and is left as it was. *)
Definition reloads (o : BaseOption) : Prop :=
  forall j, to_json o = Some j ->
    raised (from_json o j) = None /\ post (from_json o j) = o /\
    forallb quiet_event (trace (from_json o j)) = true.

Definition restorable_mod (m : Mod) : Prop :=
  Forall restorable (options m) /\
  NoDup (map option_identifier (options m)) /\
  NoDup (map kb_identifier (keybinds m)).



(** A JSON value that is not a mapping. *)
Definition not_mapping (v : JSON) : bool :=
  match v with JDict _ => false | _ => true end.

(** An event that is neither an error line nor the enable call. *)
Definition calm (e : event) : bool := negb (is_log_error e) && negb (is_enable e).

(** Every character of the string is whitespace. *)
Fixpoint all_space (s : string) : bool :=
  match s with
  | EmptyString => true
  | String c s' => is_space c && all_space s'
  end.

(** The test [key in container] does not come out false: it is true or
    it raises. *)
Definition found_or_fails (key : string) (c : JSON) : bool :=
  match py_contains key c with
  | inr false => false
  | _ => true
  end.




(** ** More samples *)

(** [BoolOption("hud", True)]. *)
Definition hud : BaseOption :=
  BoolOption (ValueOption_init (base_of "hud") (JBool true) None) None None.

(** [GroupedOption("audio", [volume, mode, ButtonOption("press")])]. *)
Definition audio : BaseOption :=
  GroupedOption (base_of "audio") [volume; mode; ButtonOption (base_of "press")].

(** A mod with a group, two keybinds of which one is rebindable,
    auto-enabled and enabled. *)
Definition grouped_mod : Mod :=
  mkMod (Some "grouped.json") [audio; hud]
        [mkKeybind "jump" (Some "F1") true; mkKeybind "fixed" None false] true true.

(** A mod whose only option is a group without children. *)
Definition hollow_mod : Mod :=
  mkMod (Some "hollow.json") [NestedOption (base_of "page") []] [] false false.

Definition no_fs : filesystem := fun _ => Missing.

(** ** command.py *)

(** The characters of [" \f\n\r\t\v"]. *)
Definition command_whitespace : list ascii :=
  [" "%char; "012"%char; "010"%char; "013"%char; "009"%char; "011"%char].

(** [for char in chars: if char in cmd: raise ValueError(...)]. *)
Fixpoint reject_chars (chars : list ascii) (cmd : string) : result unit :=
  match chars with
  | [] => Ok tt
  | c :: chars' =>
      if is_substring (String c "") cmd then Raise ValueError
      else reject_chars chars' cmd
  end.

(** [AbstractCommand.__post_init__]. *)
Definition AbstractCommand_post_init (cmd : string) : result unit :=
  reject_chars command_whitespace cmd.

(** Python objects the library passes around without looking inside:
    callables (of which it reads [__name__]), argument parsers, hooks,
    and the members of the enums of [mod.py] (which is not under src)
    with the lookup by name [Enum.__members__.get] and, for the flags
    of [Game], [operator.or_]. *)
Variable Callable : Type.
Variable callable_name : Callable -> string.
Variable ArgumentParser : Type.
Variable HookType : Type.
Variable ModType : Type.
Variable Game : Type.
Variable CoopSupport : Type.
Variable ModType_members : string -> option ModType.
Variable Game_members : string -> option Game.
Variable CoopSupport_members : string -> option CoopSupport.
Variable Game_or : Game -> Game -> Game.

(** The dataclass [ArgParseCommand]. *)
Record ArgParseCommand : Type := mkArgParseCommand {
  cmd : string;
  callback : Callable;
  parser : ArgumentParser;
  splitter : Callable
}.

(** A path: one given by the caller, or [SETTINGS_DIR / file]. *)
Inductive Path : Type :=
| GivenPath (p : string)
| InSettingsDir (file : string).

(** The Python values the commands and the mod factory handle: plain
    data (what [tomllib] returns, strings, [None] as [JNull]), and the
    objects of the library. *)
#[warnings="-register-all"]
Inductive PyObj : Type :=
| PData (j : JSON)
| PCallable (f : Callable)
| PPath (p : Path)
| PModType (x : ModType)
| PGame (g : Game)
| PCoopSupport (c : CoopSupport)
| PKeybind (kb : KeybindType)
| POption (o : BaseOption)
| PHook (h : HookType)
| PCommand (c : ArgParseCommand)
| PTuple (l : list Z)
| PSeq (l : list PyObj).

Definition PNone : PyObj := PData JNull.

(** [x is None]. *)
Definition is_None (x : PyObj) : bool :=
  match x with PData JNull => true | _ => false end.

(** A namespace with string keys: keyword arguments, the attributes of
    a module. *)
Definition namespace : Type := list (string * PyObj).

Fixpoint ns_get (d : namespace) (k : string) : option PyObj :=
  match d with
  | [] => None
  | (k', v) :: d' => if String.eqb k k' then Some v else ns_get d' k
  end.

Definition ns_mem (d : namespace) (k : string) : bool :=
  match ns_get d k with Some _ => true | None => false end.

Fixpoint ns_set (d : namespace) (k : string) (v : PyObj) : namespace :=
  match d with
  | [] => [(k, v)]
  | (k', v') :: d' =>
      if String.eqb k k' then (k', v) :: d' else (k', v') :: ns_set d' k v
  end.

(** [argparse.ArgumentParser] called with the keyword arguments: what
    [argparse] makes of them, an exception included, is its own. *)
Variable new_ArgumentParser : namespace -> result ArgumentParser.

(** The first argument of [command]: nothing, a name, or, when it is
    used as a plain decorator, the function itself. *)
Inductive command_arg : Type :=
| NoName
| Name (s : string)
| Function (f : Callable).

(** What the closure [decorator] shares with [command] and keeps from
    one call to the next: [cmd_name] (declared [nonlocal]) and the
    dictionary [kwargs]. *)
Record closure : Type := mkClosure {
  cmd_name : option string;
  kwargs : namespace;
  closure_splitter : Callable
}.

(** [decorator(func)]: the closure afterwards and the command built,
    or the exception raised. *)
Definition decorator (c : closure) (func : Callable)
    : closure * result ArgParseCommand :=
  let name :=
    match cmd_name c with
    | Some s => if String.eqb s "" then callable_name func else s
    | None => callable_name func
    end in
  let kwargs' :=
    if ns_mem (kwargs c) "prog" then kwargs c
    else ns_set (kwargs c) "prog" (PData (JStr name)) in
  let c' := mkClosure (Some name) kwargs' (closure_splitter c) in
  match new_ArgumentParser kwargs' with
  | inl e => (c', Raise e)
  | inr p =>
      match AbstractCommand_post_init name with
      | inl e => (c', Raise e)
      | inr _ => (c', Ok (mkArgParseCommand name func p (closure_splitter c)))
      end
  end.

(** [command]: the decorator, as its closure, and, when [cmd] is the
    function, the result of applying it. *)
Definition command (arg : command_arg) (split : Callable) (kw : namespace)
    : closure * option (result ArgParseCommand) :=
  match arg with
  | Function f =>
      let '(c, r) := decorator (mkClosure None kw split) f in (c, Some r)
  | Name s => (mkClosure (Some s) kw split, None)
  | NoName => (mkClosure None kw split, None)
  end.

(** The name [decorator] settles on: [cmd_name or func.__name__]. *)
Definition resolved_name (c : closure) (func : Callable) : string :=
  match cmd_name c with
  | Some s => if String.eqb s "" then callable_name func else s
  | None => callable_name func
  end.

(** ** mod_factory.py *)

(** [ModFactoryFields], the keyword arguments and the variables of a
    module are dictionaries with string keys: [namespace]s.  A TOML
    document is what [tomllib.load] returns, a dictionary of plain
    data (dates and times are left out). *)

(** A module: its [__name__], which the import system sets to a
    string, and its other variables. *)
Record ModuleType : Type := mkModule {
  module_name : string;
  module_vars : namespace
}.

(** [getattr(module, attr)]. *)
Definition getattr (module : ModuleType) (attr : string) : result PyObj :=
  if String.eqb attr "__name__" then Ok (PData (JStr (module_name module)))
  else match ns_get (module_vars module) attr with
       | Some v => Ok v
       | None => Raise AttributeError
       end.

(** [hasattr(module, attr)]. *)
Definition hasattr (module : ModuleType) (attr : string) : bool :=
  match getattr module attr with inr _ => true | inl _ => false end.

(** [setattr(module, attr, v)], for an attribute other than
    [__name__]. *)
Definition setattr (module : ModuleType) (attr : string) (v : PyObj) : ModuleType :=
  mkModule (module_name module) (ns_set (module_vars module) attr v).

(** Statements one after the other. *)
Fixpoint do_all {A} (steps : list (A -> outcome A)) (a : A) : outcome A :=
  match steps with
  | [] => ret a
  | s :: steps' => seq (s a) (do_all steps')
  end.

(** [if fields[field] is None and key in source:
       fields[field] = convert(source[key])]. *)
Definition take_from (convert : JSON -> result PyObj) (source : JSON)
    (field key : string) (fields : namespace) : outcome namespace :=
  match ns_get fields field with
  | None => throw KeyError fields
  | Some v =>
      if is_None v then
        match py_contains key source with
        | inl e => throw e fields
        | inr false => ret fields
        | inr true =>
            match py_getitem source key with
            | inl e => throw e fields
            | inr x =>
                match convert x with
                | inl e => throw e fields
                | inr y => ret (ns_set fields field y)
                end
            end
        end
      else ret fields
  end.

Definition plain (x : JSON) : result PyObj := Ok (PData x).

(** [Enum.__members__.get(x)]: a list or a dictionary cannot be
    hashed; anything else that is not the name of a member gives
    [None]. *)
Definition members_get {A} (members : string -> option A) (inj : A -> PyObj)
    (x : JSON) : result PyObj :=
  match x with
  | JStr s => Ok (match members s with Some m => inj m | None => PNone end)
  | JList _ | JDict _ => Raise TypeError
  | _ => Ok PNone
  end.

(** [iter(x)]. *)
Definition py_iter (x : JSON) : result (list JSON) :=
  match x with
  | JList l => Ok l
  | JStr s => Ok (map (fun c => JStr (String c "")) (list_ascii_of_string s))
  | JDict d => Ok (map (fun kv => JStr (fst kv)) d)
  | JNull | JBool _ | JInt _ | JFloat _ => Raise TypeError
  end.

(** [[Game[name] for name in names if name in Game.__members__]]. *)
Fixpoint valid_games (names : list JSON) : result (list Game) :=
  match names with
  | [] => Ok []
  | x :: names' =>
      match x with
      | JList _ | JDict _ => Raise TypeError
      | JStr s =>
          match valid_games names' with
          | inl e => Raise e
          | inr gs => Ok (match Game_members s with Some g => g :: gs | None => gs end)
          end
      | _ => valid_games names'
      end
  end.

(** The value [supported_games] gets: [functools.reduce(operator.or_,
    valid_games)], and [None] for "leave the field alone". *)
Definition games_of (x : JSON) : result (option PyObj) :=
  match py_iter x with
  | inl e => Raise e
  | inr names =>
      match valid_games names with
      | inl e => Raise e
      | inr [] => Ok None
      | inr (g :: gs) => Ok (Some (PGame (fold_left Game_or gs g)))
      end
  end.

Definition take_games (sdkmod : JSON) (fields : namespace) : outcome namespace :=
  match ns_get fields "supported_games" with
  | None => throw KeyError fields
  | Some v =>
      if is_None v then
        match py_contains "supported_games" sdkmod with
        | inl e => throw e fields
        | inr false => ret fields
        | inr true =>
            match py_getitem sdkmod "supported_games" with
            | inl e => throw e fields
            | inr x =>
                match games_of x with
                | inl e => throw e fields
                | inr None => ret fields
                | inr (Some g) => ret (ns_set fields "supported_games" g)
                end
            end
        end
      else ret fields
  end.

Definition update_fields_with_pyproject_tool_sdkmod (sdkmod : JSON)
    (fields : namespace) : outcome namespace :=
  do_all [take_from plain sdkmod "name" "name";
          take_from plain sdkmod "version" "version";
          take_from plain sdkmod "auto_enable" "auto_enable";
          take_from (members_get ModType_members PModType) sdkmod "mod_type" "mod_type";
          take_games sdkmod;
          take_from (members_get CoopSupport_members PCoopSupport) sdkmod
                    "coop_support" "coop_support"]
         fields.

(** [author["name"] for author in authors if "name" in author], as
    [str.join] wants it: every item a string. *)
Fixpoint author_names (authors : list JSON) : result (list string) :=
  match authors with
  | [] => Ok []
  | a :: authors' =>
      match py_contains "name" a with
      | inl e => Raise e
      | inr false => author_names authors'
      | inr true =>
          match py_getitem a "name" with
          | inl e => Raise e
          | inr (JStr s) =>
              match author_names authors' with
              | inl e => Raise e
              | inr l => Ok (s :: l)
              end
          | inr _ => Raise TypeError
          end
      end
  end.

(** [", ".join(...)] over the authors. *)
Definition joined_authors (x : JSON) : result PyObj :=
  match py_iter x with
  | inl e => Raise e
  | inr authors =>
      match author_names authors with
      | inl e => Raise e
      | inr l => Ok (PData (JStr (join ", " l)))
      end
  end.

Definition update_fields_with_pyproject_project (project : JSON)
    (fields : namespace) : outcome namespace :=
  do_all [take_from plain project "name" "name";
          take_from plain project "version" "version";
          take_from plain project "description" "description";
          take_from plain project "_version_info" "version";
          take_from joined_authors project "author" "authors"]
         fields.

(** [update_fields_with_pyproject], on the document [load_pyproject]
    returned (the empty one when there is no readable
    [pyproject.toml]). *)
Definition update_fields_with_pyproject (toml_data : dict) (fields : namespace)
    : outcome namespace :=
  seq (match dict_get toml_data "tool" with
       | None => ret fields
       | Some tool =>
           match py_contains "sdkmod" tool with
           | inl e => throw e fields
           | inr false => ret fields
           | inr true =>
               match py_getitem tool "sdkmod" with
               | inl e => throw e fields
               | inr sdkmod => update_fields_with_pyproject_tool_sdkmod sdkmod fields
               end
           end
       end)
      (fun fields' =>
         match dict_get toml_data "project" with
         | None => ret fields'
         | Some project => update_fields_with_pyproject_project project fields'
         end).

(** [if fields[field] is not None: continue], then the assignment
    under [contextlib.suppress(AttributeError)]. *)
Definition take_attribute (module : ModuleType) (field attr : string)
    (fields : namespace) : outcome namespace :=
  match ns_get fields field with
  | None => throw KeyError fields
  | Some v =>
      if is_None v then
        match getattr module attr with
        | inl e =>
            if exception_eqb e AttributeError then ret fields else throw e fields
        | inr x => ret (ns_set fields field x)
        end
      else ret fields
  end.

Definition default_settings_file (module : ModuleType) (fields : namespace)
    : outcome namespace :=
  match ns_get fields "settings_file" with
  | None => throw KeyError fields
  | Some v =>
      if is_None v
      then ret (ns_set fields "settings_file"
                       (PPath (InSettingsDir (module_name module ++ ".json"))))
      else ret fields
  end.

Definition update_fields_with_module_attributes (module : ModuleType)
    (fields : namespace) : outcome namespace :=
  do_all [take_attribute module "name" "__name__";
          take_attribute module "author" "__author__";
          take_attribute module "version" "__version__";
          take_attribute module "on_enable" "on_enable";
          take_attribute module "on_disable" "on_disable";
          default_settings_file module]
         fields.

(** [inspect.getmembers(module)]: the variables sorted by name. *)
Fixpoint insert_member (kv : string * PyObj) (l : namespace) : namespace :=
  match l with
  | [] => [kv]
  | x :: l' => if String.leb (fst kv) (fst x) then kv :: l else x :: insert_member kv l'
  end.

Definition getmembers (module : ModuleType) : namespace :=
  fold_right insert_member []
             (("__name__", PData (JStr (module_name module))) :: module_vars module).

(** What the search has gathered so far. *)
Record gathered : Type := mkGathered {
  new_keybinds : list PyObj;
  new_options : list PyObj;
  new_hooks : list PyObj;
  new_commands : list PyObj
}.

Definition group_warning_message (module : ModuleType) (cls : string) : string :=
  module_name module ++ ": " ++ cls
    ++ " instances must be explicitly specified in the options list!".

(** The body of the loop over the members: the [match] statement. *)
Definition search_member (module : ModuleType)
    (find_keybinds find_options find_hooks find_commands : bool)
    (value : PyObj) (g : gathered) : outcome gathered :=
  match value with
  | PKeybind _ =>
      if find_keybinds
      then ret (mkGathered (new_keybinds g ++ [value]) (new_options g)
                           (new_hooks g) (new_commands g))
      else ret g
  | POption (GroupedOption _ _) =>
      if find_options
      then emit (EvWarn (group_warning_message module "GroupedOption")) g
      else ret g
  | POption (NestedOption _ _) =>
      if find_options
      then emit (EvWarn (group_warning_message module "NestedOption")) g
      else ret g
  | POption _ =>
      if find_options
      then ret (mkGathered (new_keybinds g) (new_options g ++ [value])
                           (new_hooks g) (new_commands g))
      else ret g
  | PHook _ =>
      if find_hooks
      then ret (mkGathered (new_keybinds g) (new_options g)
                           (new_hooks g ++ [value]) (new_commands g))
      else ret g
  | PCommand _ =>
      if find_commands
      then ret (mkGathered (new_keybinds g) (new_options g)
                           (new_hooks g) (new_commands g ++ [value]))
      else ret g
  | _ => ret g
  end.

(** [if find and found: fields[field] = found]. *)
Definition assign_found (find : bool) (found : list PyObj) (field : string)
    (fields : namespace) : namespace :=
  if find && (match found with [] => false | _ => true end)
  then ns_set fields field (PSeq found)
  else fields.

Definition update_fields_with_module_search (module : ModuleType)
    (fields : namespace) : outcome namespace :=
  match ns_get fields "keybinds", ns_get fields "options",
        ns_get fields "hooks", ns_get fields "commands" with
  | Some k, Some o, Some h, Some c =>
      let find_keybinds := is_None k in
      let find_options := is_None o in
      let find_hooks := is_None h in
      let find_commands := is_None c in
      if negb (find_keybinds || find_options || find_hooks || find_commands)
      then ret fields
      else
        let r := do_all (map (fun kv => search_member module find_keybinds find_options
                                          find_hooks find_commands (snd kv))
                             (getmembers module))
                        (mkGathered [] [] [] []) in
        let g := post r in
        mkOutcome
          (assign_found find_commands (new_commands g) "commands"
             (assign_found find_hooks (new_hooks g) "hooks"
                (assign_found find_options (new_options g) "options"
                   (assign_found find_keybinds (new_keybinds g) "keybinds" fields))))
          (trace r) (raised r)
  | _, _, _, _ => throw KeyError fields
  end.

(** [s.split(sep)] for a separator of one character. *)
Fixpoint split_on (sep : ascii) (s : string) : list string :=
  match s with
  | EmptyString => [EmptyString]
  | String c s' =>
      if Ascii.eqb c sep then EmptyString :: split_on sep s'
      else match split_on sep s' with
           | x :: l => String c x :: l
           | [] => [String c EmptyString]
           end
  end.

(** [int(s)] for an ASCII string: an optionally signed run of digits,
    in which a single underscore may separate two digits, surrounded
    by optional whitespace; more than 4300 digits are refused. *)
Definition int_of_ascii (s : string) : result Z :=
  let '(neg, body) := parse_sign (c_strip s) in
  match digitpart body with
  | Some (v, n, EmptyString) =>
      if 4300 <? n then Raise ValueError else Ok (if neg then - v else v)
  | _ => Raise ValueError
  end.

(** [int(s)] for a string. *)
Definition py_int_of_string (s : string) : result Z :=
  if all_ascii s then int_of_ascii s
  else match unicode_int s with
       | Some z => Ok z
       | None => Raise ValueError
       end.

Fixpoint ints_of (l : list string) : result (list Z) :=
  match l with
  | [] => Ok []
  | x :: l' =>
      match py_int_of_string x with
      | inl e => Raise e
      | inr z =>
          match ints_of l' with
          | inl e => Raise e
          | inr zs => Ok (z :: zs)
          end
      end
  end.

(** The default [version_info_parser]:
    [lambda v: tuple(int(x) for x in v.split("."))]. *)
Definition default_version_info_parser (v : PyObj) : result PyObj :=
  match v with
  | PData (JStr s) =>
      match ints_of (split_on "." s) with
      | inl e => Raise e
      | inr zs => Ok (PTuple zs)
      end
  | _ => Raise AttributeError
  end.

(** The dictionary [fields] that [build_mod] starts from: its
    arguments, and [None] for [_version_info]. *)
Definition initial_fields
    (name author description version mod_type supported_games coop_support
     settings_file keybinds options hooks commands auto_enable on_enable
     on_disable : PyObj) : namespace :=
  [("name", name); ("author", author); ("description", description);
   ("version", version); ("_version_info", PNone); ("mod_type", mod_type);
   ("supported_games", supported_games); ("coop_support", coop_support);
   ("settings_file", settings_file); ("keybinds", keybinds); ("options", options);
   ("hooks", hooks); ("commands", commands); ("auto_enable", auto_enable);
   ("on_enable", on_enable); ("on_disable", on_disable)].

(** The two [if] statements under [inject_version_from_pyproject]. *)
Definition inject_version (version_info_parser : PyObj -> result PyObj)
    (fields : namespace) (module : ModuleType) : outcome ModuleType :=
  seq (if hasattr module "__version__" then ret module
       else match ns_get fields "version" with
            | None => throw KeyError module
            | Some v =>
                if is_None v then ret module
                else ret (setattr module "__version__" v)
            end)
      (fun module' =>
         if hasattr module' "__version_info__" then ret module'
         else match ns_get fields "_version_info" with
              | None => throw KeyError module'
              | Some v =>
                  if is_None v then ret module'
                  else match version_info_parser v with
                       | inl e => throw e module'
                       | inr t => ret (setattr module' "__version_info__" t)
                       end
              end).

(** [build_mod] up to the point where the fields are complete: the
    module and the fields afterwards. *)
Definition gather_fields (inject_version_from_pyproject : bool)
    (version_info_parser : PyObj -> result PyObj) (toml_data : dict)
    (module : ModuleType) (fields : namespace) : outcome (ModuleType * namespace) :=
  do_all [fun s => lift (pair (fst s)) (update_fields_with_pyproject toml_data (snd s));
          fun s => if inject_version_from_pyproject
                   then lift (fun m => (m, snd s))
                             (inject_version version_info_parser (snd s) (fst s))
                   else ret s;
          fun s => lift (pair (fst s))
                        (update_fields_with_module_attributes (fst s) (snd s));
          fun s => lift (pair (fst s))
                        (update_fields_with_module_search (fst s) (snd s))]
         (module, fields).

(** [{k: v for k, v in fields.items() if v is not None and not
    k.startswith("_")}]. *)
Definition kwargs_of (fields : namespace) : namespace :=
  filter (fun kv => negb (is_None (snd kv)) && negb (prefix "_" (fst kv))) fields.

(** The keyword arguments [build_mod] calls [cls] with. *)
Definition build_mod_kwargs (inject_version_from_pyproject : bool)
    (version_info_parser : PyObj -> result PyObj) (toml_data : dict)
    (module : ModuleType) (fields : namespace) : result namespace :=
  let r := gather_fields inject_version_from_pyproject version_info_parser
                         toml_data module fields in
  match raised r with
  | Some e => Raise e
  | None => Ok (kwargs_of (snd (post r)))
  end.

(** The keys of [ModFactoryFields]. *)
Definition field_names : list string :=
  ["name"; "author"; "description"; "version"; "_version_info"; "mod_type";
   "supported_games"; "coop_support"; "settings_file"; "keybinds"; "options";
   "hooks"; "commands"; "auto_enable"; "on_enable"; "on_disable"].

(** The dictionary has every key of [ModFactoryFields]. *)
Definition complete (fields : namespace) : Prop :=
  forall k, In k field_names -> ns_mem fields k = true.

(** From [fields] to [fields']: the same keys in the same order, and
    every field that was given (was not [None]) as it was. *)
Definition keeps_given (fields fields' : namespace) : Prop :=
  map fst fields' = map fst fields /\
  forall k v, ns_get fields k = Some v -> is_None v = false ->
              ns_get fields' k = Some v.

(** [a] unless it is [None], then [b]. *)
Definition or_else (a b : PyObj) : PyObj := if is_None a then b else a.

(** What a TOML table holds under a key, [None] when it has none. *)
Definition toml_value (d : dict) (k : string) : PyObj :=
  match dict_get d k with Some x => PData x | None => PNone end.

(** The table of the docstring of [build_mod], column [pyproject.toml]:
    what each field gets from the table [tool.sdkmod] and what from the
    table [project], [None] when the table has nothing for it. *)
Definition enum_value {A} (members : string -> option A) (inj : A -> PyObj)
    (d : dict) (k : string) : PyObj :=
  match dict_get d k with
  | Some (JStr s) => match members s with Some m => inj m | None => PNone end
  | _ => PNone
  end.

Definition games_value (d : dict) : PyObj :=
  match dict_get d "supported_games" with
  | Some x => match games_of x with inr (Some g) => g | _ => PNone end
  | None => PNone
  end.

Definition sdkmod_value (sd : dict) (k : string) : PyObj :=
  if String.eqb k "name" then toml_value sd "name"
  else if String.eqb k "version" then toml_value sd "version"
  else if String.eqb k "auto_enable" then toml_value sd "auto_enable"
  else if String.eqb k "mod_type" then enum_value ModType_members PModType sd "mod_type"
  else if String.eqb k "supported_games" then games_value sd
  else if String.eqb k "coop_support"
       then enum_value CoopSupport_members PCoopSupport sd "coop_support"
  else PNone.

Definition authors_value (pr : dict) : PyObj :=
  match dict_get pr "authors" with
  | Some x => match joined_authors x with inr y => y | inl _ => PNone end
  | None => PNone
  end.

Definition project_value (pr : dict) (k : string) : PyObj :=
  if String.eqb k "name" then toml_value pr "name"
  else if String.eqb k "version" then toml_value pr "version"
  else if String.eqb k "description" then toml_value pr "description"
  else if String.eqb k "_version_info" then toml_value pr "version"
  else if String.eqb k "author" then authors_value pr
  else PNone.

(** The table under a key of a TOML table: the empty one when the key
    is missing, none when the key holds something else. *)
Definition table_at (d : dict) (k : string) : option dict :=
  match dict_get d k with
  | None => Some []
  | Some (JDict t) => Some t
  | Some _ => None
  end.

(** An entry of [project.authors] as the packaging rules want it: a
    table whose [name], if it has one, is a string. *)
Definition author_entry (a : JSON) : Prop :=
  match a with
  | JDict d =>
      match dict_get d "name" with
      | None | Some (JStr _) => True
      | Some _ => False
      end
  | _ => False
  end.

(** The name of an entry, if it has one. *)
Definition author_name (a : JSON) : list string :=
  match a with
  | JDict d => match dict_get d "name" with Some (JStr s) => [s] | _ => [] end
  | _ => []
  end.

(** The members of [Game] that the names stand for, unknown names
    dropped. *)
Definition known_games (names : list string) : list Game :=
  flat_map (fun s => match Game_members s with Some g => [g] | None => [] end) names.

(** The classes the search tells apart. *)
Definition is_keybind (v : PyObj) : bool :=
  match v with PKeybind _ => true | _ => false end.

Definition is_group (v : PyObj) : bool :=
  match v with
  | POption (GroupedOption _ _) | POption (NestedOption _ _) => true
  | _ => false
  end.

Definition is_plain_option (v : PyObj) : bool :=
  match v with POption _ => negb (is_group v) | _ => false end.

Definition is_hook (v : PyObj) : bool :=
  match v with PHook _ => true | _ => false end.

Definition is_command (v : PyObj) : bool :=
  match v with PCommand _ => true | _ => false end.

(** The warning the search issues for a member. *)
Definition group_warning (module : ModuleType) (v : PyObj) : list event :=
  match v with
  | POption (GroupedOption _ _) => [EvWarn (group_warning_message module "GroupedOption")]
  | POption (NestedOption _ _) => [EvWarn (group_warning_message module "NestedOption")]
  | _ => []
  end.

(** A field after the search: what was given, else what was found,
    else still [None]. *)
Definition found_or (given : PyObj) (found : list PyObj) : PyObj :=
  if is_None given
  then match found with [] => given | _ => PSeq found end
  else given.

(** ** Sample projects and modules *)

(** A [pyproject.toml] with both tables. *)
Definition sample_toml : dict :=
  [("project",
    JDict [("name", JStr "nice-mod"); ("version", JStr "1.2.3");
           ("authors", JList [JDict [("name", JStr "Ann")];
                              JDict [("email", JStr "bob@example.org")];
                              JDict [("name", JStr "Cy")]])]);
   ("tool",
    JDict [("sdkmod",
            JDict [("name", JStr "Nice Mod"); ("mod_type", JStr "Libary")])])].

(** The fields when [build_mod] is called without arguments. *)
Definition no_fields : namespace :=
  initial_fields PNone PNone PNone PNone PNone PNone PNone PNone PNone PNone PNone
                 PNone PNone PNone PNone.

(** A module with a slider, a group and a keybind among its variables. *)
Definition sample_module : ModuleType :=
  mkModule "nice_mod"
           [("volume", POption volume); ("audio", POption audio);
            ("jump", PKeybind (mkKeybind "jump" (Some "F1") true));
            ("__author__", PData (JStr "Dee"))].
(** * Proofs *)

Unset Implicit Arguments.

(** ** Sequencing *)

Lemma seq_returned : forall A (r : outcome A) k,
  raised r = None ->
  seq r k = mkOutcome (post (k (post r))) (trace r ++ trace (k (post r)))
                      (raised (k (post r))).
Proof.
  intros A r k H. unfold seq. rewrite H. reflexivity.
Qed.

(** ** The change callback and its guard *)

(** While the guard is set, [__setattr__] only stores. *)
Lemma setattr_value_guarded : forall n o v,
  guard o = true -> setattr_value n o v = store o v.
Proof.
  intros n o v Hg. destruct n; simpl; rewrite Hg; destruct (on_change o); reflexivity.
Qed.

Lemma setattr_value_no_callback : forall n o v,
  on_change o = None -> setattr_value n o v = store o v.
Proof.
  intros n o v H. destruct n; simpl; rewrite H; reflexivity.
Qed.

(** What a callback body leaves alone when its assignments only store. *)
Lemma run_cmd_store_frame : forall c o,
  let r := run_cmd store c o in
  base (post r) = base o /\ default_value (post r) = default_value o /\
  on_change (post r) = on_change o /\ guard (post r) = guard o /\
  forallb (fun e => negb (is_on_change e) && is_option_event e
                    && negb (is_log_error e)) (trace r) = true.
Proof.
  induction c as [ | e | k IH | w k IH | tag arg k IH ]; intros o; simpl.
  - repeat split; reflexivity.
  - repeat split; reflexivity.
  - apply IH.
  - unfold seq. simpl.
    destruct (IH (with_value o w)) as (Hb & Hd & Hc & Hg & Ht).
    simpl in *. repeat split; auto.
  - unfold seq. simpl.
    destruct (IH o) as (Hb & Hd & Hc & Hg & Ht).
    simpl in *. repeat split; auto.
Qed.

(** Inside a callback the guard is set, so the nested [__setattr__]
    calls are plain stores whatever fuel is left. *)
Lemma run_cmd_guarded : forall n c o,
  guard o = true -> run_cmd (setattr_value n) c o = run_cmd store c o.
Proof.
  intros n. induction c as [ | e | k IH | w k IH | tag arg k IH ]; intros o Hg; simpl.
  - reflexivity.
  - reflexivity.
  - now apply IH.
  - rewrite (setattr_value_guarded n o w Hg). unfold seq. simpl.
    rewrite IH by exact Hg. reflexivity.
  - unfold seq. simpl. rewrite IH by exact Hg. reflexivity.
Qed.

Lemma setattr_value_S : forall n o v,
  setattr_value (S n) o v =
  match on_change o with
  | Some cb =>
      if negb (guard o) then
        seq (seq (seq (emit (EvOnChange (identifier (base o)) v) (with_guard o true))
                      (run_cmd (setattr_value n) (cb v)))
                 (fun o2 => ret (with_guard o2 false)))
            (fun o3 => store o3 v)
      else store o v
  | None => store o v
  end.
Proof. reflexivity. Qed.

Lemma callback_run_guarded : forall n e o c,
  seq (emit e (with_guard o true)) (run_cmd (setattr_value n) c) =
  seq (emit e (with_guard o true)) (run_cmd store c).
Proof.
  intros n e o c. unfold seq. simpl.
  rewrite run_cmd_guarded by reflexivity. reflexivity.
Qed.

(** One level of fuel is all [__setattr__] ever uses. *)
Lemma setattr_value_fuel : forall n o v,
  setattr_value (S n) o v = setattr_value 1 o v.
Proof.
  intros n o v. rewrite !setattr_value_S.
  destruct (on_change o) as [cb | ]; [ | reflexivity ].
  destruct (negb (guard o)); [ | reflexivity ].
  rewrite !callback_run_guarded. reflexivity.
Qed.

Lemma run_cmd_never_raises : forall c o,
  never_raises c -> raised (run_cmd store c o) = None.
Proof.
  induction c as [ | e | k IH | w k IH | tag arg k IH ]; intros o H; simpl in *.
  - reflexivity.
  - contradiction.
  - apply IH, H.
  - unfold seq. simpl. now apply IH.
  - unfold seq. simpl. now apply IH.
Qed.

(** An assignment made outside the callback, on an option that has
    one: the callback runs first, on the option as it was; only if it
    returns is the guard removed and the new value stored. *)
Lemma set_value_callback : forall o cb v,
  on_change o = Some cb -> guard o = false ->
  let body := run_cmd store (cb v) (with_guard o true) in
  set_value o v =
  match raised body with
  | Some e =>
      mkOutcome (post body) (EvOnChange (identifier (base o)) v :: trace body) (Some e)
  | None =>
      mkOutcome (with_value (with_guard (post body) false) v)
                (EvOnChange (identifier (base o)) v
                 :: trace body ++ [EvStore (identifier (base o)) v])
                None
  end.
Proof.
  intros o cb v Hcb Hg body. unfold set_value.
  rewrite setattr_value_S, Hcb, Hg. simpl negb. cbv iota.
  rewrite callback_run_guarded.
  destruct (run_cmd_store_frame (cb v) (with_guard o true)) as (Hb & _).
  fold body in Hb. simpl in Hb.
  replace (seq (emit (EvOnChange (identifier (base o)) v) (with_guard o true))
               (run_cmd store (cb v)))
    with (mkOutcome (post body) (EvOnChange (identifier (base o)) v :: trace body)
                    (raised body)) by reflexivity.
  destruct (raised body) as [e | ] eqn:Hr.
  - reflexivity.
  - unfold seq. simpl. rewrite Hb, app_nil_r. reflexivity.
Qed.

Lemma forallb_weaken : forall A (p q : A -> bool) l,
  (forall x, p x = true -> q x = true) ->
  forallb p l = true -> forallb q l = true.
Proof.
  intros A p q l Hpq. rewrite !forallb_forall. auto.
Qed.

(** With a callback that returns (or none), [self.value = x] returns
    and leaves exactly the value changed; nothing is logged. *)
Lemma set_value_quiet : forall d x,
  quiet d ->
  raised (set_value d x) = None /\
  post (set_value d x) = with_value d x /\
  forallb quiet_event (trace (set_value d x)) = true.
Proof.
  intros d x Hq. unfold quiet in Hq.
  destruct (on_change d) as [cb | ] eqn:Hcb.
  - destruct (guard d) eqn:Hg.
    + unfold set_value. rewrite setattr_value_guarded by exact Hg.
      repeat split; reflexivity.
    + rewrite (set_value_callback d cb x Hcb Hg).
      pose proof (run_cmd_never_raises (cb x) (with_guard d true) (Hq x)) as Hr.
      destruct (run_cmd_store_frame (cb x) (with_guard d true))
        as (Hb & Hd & Hc & Hgd & Ht).
      cbv zeta. rewrite Hr. cbn [raised post trace].
      cbn [base default_value on_change guard with_guard] in Hb, Hd, Hc.
      repeat split.
      * unfold with_value. cbn [base default_value on_change guard value with_guard].
        rewrite Hb, Hd, Hc, Hg. reflexivity.
      * change (forallb quiet_event
                  (trace (run_cmd store (cb x) (with_guard d true))
                   ++ [EvStore (identifier (base d)) x]) = true).
        rewrite forallb_app. apply andb_true_iff. split; [ | reflexivity ].
        revert Ht. apply forallb_weaken.
        intros e He. unfold quiet_event.
        destruct e; simpl in *; try reflexivity; discriminate.
  - unfold set_value. rewrite setattr_value_no_callback by exact Hcb.
    repeat split; reflexivity.
Qed.

Lemma with_value_same : forall d, with_value d (value d) = d.
Proof. intros [b v dv cb g]. reflexivity. Qed.

Lemma quiet_with_value : forall d x, quiet d -> quiet (with_value d x).
Proof. intros d x H. exact H. Qed.

(** ** Rounding *)

Lemma div_half_even_exact : forall z d, 0 < d -> Float64.div_half_even (z * d) d = z.
Proof.
  intros z d Hd. unfold Float64.div_half_even.
  rewrite Z.mod_mul by lia. rewrite Z.div_mul by lia.
  destruct (Z.compare_spec (2 * 0) d) as [Hc | Hc | Hc]; [ lia | reflexivity | lia ].
Qed.


Lemma cond_Zopp_mul : forall s a b, cond_Zopp s a * b = cond_Zopp s (a * b).
Proof. intros [] a b; simpl; lia. Qed.

Lemma pow2_pos : forall e, e < 0 -> 0 < 2 ^ (- e).
Proof. intros e He. apply Z.pow_pos_nonneg; lia. Qed.

(** [round] of a float that equals an int is that int. *)
Lemma round_of_exact : forall z f,
  Float64.compare_Z_float z f = Some Eq -> py_round f = Ok z.
Proof.
  intros z [s | s | | s m e] H; simpl in H.
  - injection H as H. apply Z.compare_eq_iff in H. subst z. reflexivity.
  - destruct s; discriminate.
  - discriminate.
  - injection H as H. unfold Float64.compare_Z_dyadic in H.
    unfold py_round, Float64.round_half_even.
    destruct (0 <=? e) eqn:He.
    + apply Z.compare_eq_iff in H. subst z. now rewrite cond_Zopp_mul.
    + apply Z.leb_gt in He. apply Z.compare_eq_iff in H.
      pose proof (pow2_pos e He) as Hp.
      assert (Hm : Zpos m = cond_Zopp s z * 2 ^ (- e)).
      { rewrite cond_Zopp_mul, H. destruct s; simpl; lia. }
      rewrite Hm, div_half_even_exact by exact Hp.
      destruct s; simpl; f_equal; lia.
Qed.



(** A float that equals its truncation rounds to an int equal to it. *)
Lemma round_of_integral : forall f,
  num_ne_int (NFloat f) = Ok false ->
  exists z, py_round f = Ok z /\ Float64.compare_Z_float z f = Some Eq.
Proof.
  intros f H. unfold num_ne_int in H.
  destruct (py_int_of_float f) as [e | z] eqn:Hi; [ discriminate | ].
  destruct (Float64.compare_Z_float z f) as [[ | | ] | ] eqn:Hc; try discriminate.
  exists z. split; [ now apply round_of_exact | exact Hc ].
Qed.

(** ** [try]/[except] *)

Lemma try_except_returned : forall A (body : outcome A) x h,
  raised body = None -> try_except body x h = body.
Proof. intros A body x h H. unfold try_except. now rewrite H. Qed.

Lemma try_except_other : forall A (body : outcome A) x h e,
  raised body = Some e -> exception_eqb e x = false -> try_except body x h = body.
Proof. intros A body x h e H Hx. unfold try_except. now rewrite H, Hx. Qed.

Lemma try_except_caught : forall A (body : outcome A) x h,
  raised body = Some x ->
  try_except body x h =
  mkOutcome (post (h (post body))) (trace body ++ trace (h (post body)))
            (raised (h (post body))).
Proof.
  intros A body x h H. unfold try_except. rewrite H.
  now destruct x.
Qed.

(** ** The slider *)

(** A slider never converts [None], a list or a mapping: [float]
    raises a [TypeError], which the [except ValueError] clause lets
    through, before anything is assigned or logged. *)
Lemma SliderOption_from_json_escapes : forall d int v e,
  py_float v = Raise e -> e <> ValueError ->
  SliderOption_from_json d int v = throw e d.
Proof.
  intros d int v e Hf He. unfold SliderOption_from_json.
  rewrite Hf. unfold Raise. cbv iota beta.
  apply try_except_other with (e := e); [ reflexivity | ].
  destruct e; try reflexivity. now elim He.
Qed.

(** What a slider does with a value [float] converts, callbacks apart. *)
Lemma SliderOption_from_json_converted : forall d int v f,
  quiet d -> py_float v = Ok f ->
  let r := SliderOption_from_json d int v in
  (int = false ->
     raised r = None /\ post r = with_value d (JFloat f) /\
     forallb quiet_event (trace r) = true) /\
  (int = true -> forall z, py_round f = Ok z ->
     raised r = None /\ post r = with_value d (JInt z) /\
     forallb quiet_event (trace r) = true) /\
  (int = true -> forall e, py_round f = Raise e ->
     post r = with_value d (JFloat f) /\
     raised r = (if exception_eqb e ValueError then None else Some e)).
Proof.
  intros d int v f Hq Hf r. subst r. unfold SliderOption_from_json.
  rewrite Hf. unfold Ok, Raise. cbv iota beta.
  destruct (set_value_quiet d (JFloat f) Hq) as (R1 & P1 & T1).
  rewrite (seq_returned _ _ _ R1), P1.
  destruct int.
  - split; [ discriminate | ]. cbn [value with_value py_round_value].
    split; intros _.
    + intros z Hz. rewrite Hz.
      destruct (set_value_quiet (with_value d (JFloat f)) (JInt z)
                  (quiet_with_value d (JFloat f) Hq)) as (R2 & P2 & T2).
      rewrite try_except_returned by exact R2. cbn [raised post trace].
      repeat split; [ exact R2 | exact P2 | ].
      rewrite forallb_app, T1, T2. reflexivity.
    + intros e He. rewrite He. cbn [post trace raised throw].
      destruct (exception_eqb e ValueError) eqn:Hx.
      * destruct e; try discriminate.
        rewrite try_except_caught by reflexivity. split; reflexivity.
      * erewrite try_except_other by (try reflexivity; exact Hx).
        split; reflexivity.
  - split; [ intros _ | split; discriminate ].
    rewrite try_except_returned by reflexivity. cbn [raised post trace ret].
    repeat split. now rewrite app_nil_r.
Qed.


(** C1 (the failing input): [SliderOption._from_json] catches
    [ValueError] only.  Handed [None], a list or a mapping it lets the
    [TypeError] of [float] escape, the value being the old one and
    nothing logged; handed an infinity while integer-flagged it lets
    the [OverflowError] of [round] escape after the infinity has been
    stored; handed a NaN while integer-flagged it logs the error and
    returns, but the NaN has replaced the value. *)
Theorem slider_from_json_raises_TypeError :
  forall d lo hi st int,
    let o := SliderOption d lo hi st int in
    from_json o JNull = throw TypeError o /\
    (forall l, from_json o (JList l) = throw TypeError o) /\
    (forall m, from_json o (JDict m) = throw TypeError o) /\
    (forall s, quiet d ->
       let r := from_json (SliderOption d lo hi st true) (JFloat (S754_infinity s)) in
       raised r = Some OverflowError /\
       option_value (post r) = Some (JFloat (S754_infinity s))) /\
    (quiet d ->
       let r := from_json (SliderOption d lo hi st true) (JFloat S754_nan) in
       raised r = None /\ option_value (post r) = Some (JFloat S754_nan)).
Proof.
  intros d lo hi st int o. subst o. simpl.
  split; [ | split; [ | split; [ | split ] ] ].
  - rewrite SliderOption_from_json_escapes with (e := TypeError);
      first [ reflexivity | discriminate ].
  - intros l. rewrite SliderOption_from_json_escapes with (e := TypeError);
      first [ reflexivity | discriminate ].
  - intros m. rewrite SliderOption_from_json_escapes with (e := TypeError);
      first [ reflexivity | discriminate ].
  - intros s Hq.
    destruct (SliderOption_from_json_converted d true (JFloat (S754_infinity s))
                (S754_infinity s) Hq eq_refl) as (_ & _ & He).
    destruct (He eq_refl OverflowError eq_refl) as (P & R).
    rewrite R, P. split; reflexivity.
  - intros Hq.
    destruct (SliderOption_from_json_converted d true (JFloat S754_nan)
                S754_nan Hq eq_refl) as (_ & _ & He).
    destruct (He eq_refl ValueError eq_refl) as (P & R).
    rewrite R, P. split; reflexivity.
Qed.



(** ** Spinner and dropdown *)

Lemma in_choices_In : forall s cs, in_choices s cs = true <-> In s cs.
Proof.
  intros s cs. unfold in_choices. rewrite existsb_exists. split.
  - intros (x & Hx & He). apply String.eqb_eq in He. now subst.
  - intros H. exists s. split; [ exact H | apply String.eqb_refl ].
Qed.

Lemma choice_from_json_match : forall d cs v,
  In (py_str v) cs -> choice_from_json d cs v = set_value d (JStr (py_str v)).
Proof.
  intros d cs v H. unfold choice_from_json.
  apply in_choices_In in H. now rewrite H.
Qed.

Lemma choice_from_json_mismatch : forall d cs v,
  ~ In (py_str v) cs ->
  choice_from_json d cs v =
  emit (EvLogError (invalid_message (py_str v) (identifier (base d)))) d.
Proof.
  intros d cs v H. unfold choice_from_json.
  destruct (in_choices (py_str v) cs) eqn:Hc; [ | reflexivity ].
  apply in_choices_In in Hc. contradiction.
Qed.

(** C4: a spinner or dropdown takes the incoming value only when its
    string conversion is, character for character, one of the choices;
    otherwise it logs one error and is left exactly as it was.  With
    choices a, b, c and the value b, loading z (or B) leaves b. *)
Theorem choice_from_json_exact_match :
  (forall o d cs v,
     option_choices o = Some cs -> option_data o = Some d ->
     let r := from_json o v in
     (In (py_str v) cs -> quiet d ->
        raised r = None /\ post r = option_with_value o (JStr (py_str v)) /\
        forallb (fun e => negb (is_log_error e)) (trace r) = true) /\
     (~ In (py_str v) cs ->
        r = emit (EvLogError (invalid_message (py_str v) (option_identifier o))) o) /\
     (post r <> o -> In (py_str v) cs)) /\
  (forall b w v,
     v = JStr "z" \/ v = JStr "B" ->
     let o := SpinnerOption (ValueOption_init b (JStr "b") None) ["a"; "b"; "c"] w in
     let o' := DropdownOption (ValueOption_init b (JStr "b") None) ["a"; "b"; "c"] in
     post (from_json o v) = o /\ option_value (post (from_json o v)) = Some (JStr "b") /\
     post (from_json o' v) = o' /\ option_value (post (from_json o' v)) = Some (JStr "b")).
Proof.
  split.
  - intros o d cs v Hcs Hd r.
    assert (Hyes : In (py_str v) cs -> quiet d ->
              raised r = None /\ post r = option_with_value o (JStr (py_str v)) /\
              forallb (fun e => negb (is_log_error e)) (trace r) = true).
    { intros Hin Hq.
      destruct (set_value_quiet d (JStr (py_str v)) Hq) as (R & P & T).
      assert (Hlog : forallb (fun e => negb (is_log_error e))
                       (trace (set_value d (JStr (py_str v)))) = true).
      { revert T. apply forallb_weaken. intros e He.
        unfold quiet_event in He. now apply andb_true_iff in He. }
      subst r. destruct o; try discriminate; simpl in Hcs, Hd |- *;
        injection Hcs as <-; injection Hd as <-;
        unfold SpinnerOption_from_json, DropdownOption_from_json;
        rewrite (choice_from_json_match _ _ _ Hin), R, P; auto. }
    assert (Hno : ~ In (py_str v) cs ->
              r = emit (EvLogError (invalid_message (py_str v) (option_identifier o))) o).
    { intros Hin. subst r.
      destruct o; try discriminate; simpl in Hcs, Hd |- *;
        injection Hcs as <-; injection Hd as <-;
        unfold SpinnerOption_from_json, DropdownOption_from_json;
        rewrite (choice_from_json_mismatch _ _ _ Hin); reflexivity. }
    repeat split; try (apply Hyes; assumption); [ exact Hno | ].
    intros Hchg. destruct (in_choices (py_str v) cs) eqn:Hc.
    + now apply in_choices_In.
    + exfalso. apply Hchg. rewrite Hno; [ reflexivity | ].
      intros Hin. apply in_choices_In in Hin. congruence.
  - intros b w v [-> | ->]; repeat split; reflexivity.
Qed.

(** ** Ints that [float] represents exactly *)

Lemma binary_round_aux_exact : forall sx mz ez,
  Zpos (digits2_pos mz) = 53 -> -1074 <= ez <= 971 ->
  binary_round_aux 53 1024 sx (Zpos mz) ez loc_Exact = S754_finite sx mz ez.
Proof.
  intros sx mz ez Hd He.
  unfold binary_round_aux, shr_fexp, Zdigits2, fexp, emin.
  rewrite Hd.
  replace (Z.max (53 + ez - 53) (3 - 1024 - 53) - ez) with 0 by lia.
  cbn [shr shr_record_of_loc shr_m loc_of_shr_record round_nearest_even].
  cbn [Zdigits2]. rewrite Hd.
  replace (Z.max (53 + ez - 53) (3 - 1024 - 53) - ez) with 0 by lia.
  cbn [shr shr_record_of_loc shr_m].
  replace (ez <=? 1024 - 53) with true; [ reflexivity | ].
  symmetry. apply Z.leb_le. lia.
Qed.

Lemma digits2_pos_size : forall m, digits2_pos m = Pos.size m.
Proof. induction m; simpl; congruence. Qed.

Lemma iter_xO_spec : forall k m,
  Zpos (Pos.iter xO m k) = Zpos m * 2 ^ Zpos k /\
  Zpos (digits2_pos (Pos.iter xO m k)) = Zpos (digits2_pos m) + Zpos k.
Proof.
  intros k m. induction k as [ | k IH ] using Pos.peano_ind.
  - simpl. split; lia.
  - rewrite Pos.iter_succ. destruct IH as (IH1 & IH2). split.
    + rewrite Pos2Z.inj_xO, IH1, Pos2Z.inj_succ, Z.pow_succ_r by lia. ring.
    + cbn [digits2_pos]. rewrite Pos2Z.inj_succ, IH2, Pos2Z.inj_succ. lia.
Qed.

Lemma digits_bound : forall m, Zpos m < 2 ^ 53 -> Zpos (digits2_pos m) <= 53.
Proof.
  intros m H. rewrite digits2_pos_size.
  pose proof (Pos.size_le m) as Hs.
  destruct (Z_le_gt_dec (Zpos (Pos.size m)) 53) as [ | Hgt ]; [ assumption | exfalso ].
  assert (H1 : 2 ^ 54 <= 2 ^ Zpos (Pos.size m)) by (apply Z.pow_le_mono_r; lia).
  assert (H2 : 2 ^ Zpos (Pos.size m) <= 2 * Zpos m).
  { change (2 * Zpos m) with (Zpos m~0). rewrite <- Pos2Z.inj_pow. 
    apply Pos2Z.pos_le_pos. exact Hs. }
  change (2 ^ 54) with (2 * 2 ^ 53) in H1. lia.
Qed.

Lemma binary_round_small : forall sx m,
  Zpos m < 2 ^ 53 ->
  exists mz ez, binary_round 53 1024 sx m 0 = S754_finite sx mz ez /\
                ez <= 0 /\ Zpos mz = Zpos m * 2 ^ (- ez).
Proof.
  intros sx m H. pose proof (digits_bound m H) as Hd.
  assert (Hd1 : 1 <= Zpos (digits2_pos m)) by lia.
  unfold binary_round, fexp, emin.
  replace (Z.max (Zpos (digits2_pos m) + 0 - 53) (3 - 1024 - 53))
    with (Zpos (digits2_pos m) - 53) by lia.
  unfold shl_align.
  destruct (Zpos (digits2_pos m) - 53 - 0) as [ | p | p ] eqn:Hk.
  - exists m, 0. split; [ | split; [ lia | simpl; lia ] ].
    apply binary_round_aux_exact; lia.
  - lia.
  - destruct (iter_xO_spec p m) as (Hv & Hdig).
    exists (Pos.iter xO m p), (Zpos (digits2_pos m) - 53).
    split; [ | split; [ lia | ] ].
    + apply binary_round_aux_exact; lia.
    + rewrite Hv. f_equal. f_equal. lia.
Qed.

(** Every int of magnitude at most 2**53 is in the domain of a slider. *)
Lemma small_int_in_slider_domain : forall z int,
  Z.abs z <= 2 ^ 53 -> slider_domain int (JInt z).
Proof.
  intros z int Hz. simpl.
  destruct (Z.eq_dec (Z.abs z) (2 ^ 53)) as [Hmax | Hlt].
  { destruct z as [ | m | m ]; try discriminate Hmax;
      simpl in Hmax; injection Hmax as ->; eexists; split; reflexivity. }
  destruct z as [ | m | m ].
  - eexists. split; reflexivity.
  - destruct (binary_round_small false m) as (mz & ez & Hr & He & Hv);
      [ simpl in Hz, Hlt; lia | ].
    exists (S754_finite false mz ez). unfold Float64.of_Z.
    change (binary_normalize Float64.prec Float64.emax (Z.pos m) 0 false)
      with (binary_round 53 1024 false m 0).
    rewrite Hr. split; [ reflexivity | ].
    simpl. unfold Float64.compare_Z_dyadic. f_equal.
    destruct (0 <=? ez) eqn:E.
    + apply Z.leb_le in E. assert (ez = 0) by lia. subst ez.
      apply Z.compare_eq_iff. simpl in Hv. lia.
    + apply Z.compare_eq_iff. lia.
  - destruct (binary_round_small true m) as (mz & ez & Hr & He & Hv);
      [ simpl in Hz, Hlt; lia | ].
    exists (S754_finite true mz ez). unfold Float64.of_Z.
    change (binary_normalize Float64.prec Float64.emax (Z.neg m) 0 false)
      with (binary_round 53 1024 true m 0).
    rewrite Hr. split; [ reflexivity | ].
    simpl. unfold Float64.compare_Z_dyadic. f_equal.
    destruct (0 <=? ez) eqn:E.
    + apply Z.leb_le in E. assert (ez = 0) by lia. subst ez.
      apply Z.compare_eq_iff. simpl in Hv. lia.
    + apply Z.compare_eq_iff. lia.
Qed.

(** ** Round trip *)

Lemma py_eq_refl : forall a, py_eq a a.
Proof. intros a. now left. Qed.

(** A slider in its domain reads its own value back as an equal number. *)
Lemma slider_round_trip : forall d int,
  slider_domain int (value d) -> quiet d ->
  exists x,
    raised (SliderOption_from_json d int (value d)) = None /\
    post (SliderOption_from_json d int (value d)) = with_value d x /\
    py_eq x (value d).
Proof.
  intros d int Hdom Hq. unfold slider_domain in Hdom.
  destruct (value d) as [ | | z | f | | | ] eqn:Hv; try contradiction.
  - destruct Hdom as (f & Hf & Hc).
    assert (Hpf : py_float (JInt z) = Ok f) by (simpl; now rewrite Hf).
    destruct (SliderOption_from_json_converted d int (JInt z) f Hq Hpf)
      as (Hno & Hyes & _).
    destruct int.
    + destruct (Hyes eq_refl z (round_of_exact z f Hc)) as (R & P & _).
      exists (JInt z). repeat split; [ exact R | exact P | apply py_eq_refl ].
    + destruct (Hno eq_refl) as (R & P & _).
      exists (JFloat f). repeat split; [ exact R | exact P | ].
      right. simpl. now rewrite Hc.
  - destruct Hdom as (Hfin & Hint).
    destruct (SliderOption_from_json_converted d int (JFloat f) f Hq eq_refl)
      as (Hno & Hyes & _).
    destruct int.
    + destruct (round_of_integral f (Hint eq_refl)) as (z & Hz & Hc).
      destruct (Hyes eq_refl z Hz) as (R & P & _).
      exists (JInt z). repeat split; [ exact R | exact P | ].
      right. simpl. now rewrite Hc.
    + destruct (Hno eq_refl) as (R & P & _).
      exists (JFloat f). repeat split; [ exact R | exact P | apply py_eq_refl ].
Qed.

(** C2 (amended): for every value-holding class, an option whose value
    is in the class's domain (for a slider: a finite number that
    [float] represents exactly, integral when the slider is
    integer-flagged) and whose callback, if it has one, never raises
    reads its own [_to_json] back without an exception and is left as
    it was, its value equal to the old one (the same value; for a
    slider possibly the same number as an int instead of a float, or
    the reverse). *)
Theorem to_json_from_json_round_trip :
  forall o j,
    in_domain o -> quiet_option o -> to_json o = Some j ->
    let r := from_json o j in
    raised r = None /\
    exists x y,
      option_value o = Some y /\ py_eq x y /\
      post r = option_with_value o x /\ option_value (post r) = Some x /\
      match o with SliderOption _ _ _ _ _ => True | _ => post r = o end.
Proof.
  intros o j Hdom Hq Hj r. subst r.
  destruct o as [d | d lo hi st int | d cs w | d t f | d cs | b | d rb | b cs | b cs];
    simpl in Hdom, Hq, Hj; try contradiction;
    injection Hj as <-; unfold ValueOption_to_json; unfold quiet_option in Hq;
    simpl in Hq.
  - (* hidden *)
    destruct (set_value_quiet d (value d) Hq) as (R & P & _).
    simpl. unfold HiddenOption_from_json. rewrite R, P, with_value_same.
    split; [ reflexivity | ]. exists (value d), (value d).
    repeat split; auto using py_eq_refl; simpl; now rewrite ?with_value_same.
  - (* slider *)
    destruct (slider_round_trip d int Hdom Hq) as (x & R & P & E).
    simpl. rewrite R, P. split; [ reflexivity | ]. exists x, (value d).
    repeat split; auto.
  - (* spinner *)
    destruct Hdom as (s & Hv & Hin).
    destruct (set_value_quiet d (JStr s) Hq) as (R & P & _).
    simpl. unfold SpinnerOption_from_json. rewrite Hv.
    rewrite (choice_from_json_match d cs (JStr s) Hin). simpl py_str.
    rewrite R, P, <- Hv, with_value_same.
    split; [ reflexivity | ]. exists (value d), (value d).
    repeat split; auto using py_eq_refl; simpl; now rewrite ?with_value_same.
  - (* bool *)
    destruct Hdom as (b & Hv).
    destruct (set_value_quiet d (JBool b) Hq) as (R & P & _).
    simpl. unfold BoolOption_from_json. rewrite Hv. simpl py_bool.
    rewrite R, P, <- Hv, with_value_same.
    split; [ reflexivity | ]. exists (value d), (value d).
    repeat split; auto using py_eq_refl; simpl; now rewrite ?with_value_same.
  - (* dropdown *)
    destruct Hdom as (s & Hv & Hin).
    destruct (set_value_quiet d (JStr s) Hq) as (R & P & _).
    simpl. unfold DropdownOption_from_json. rewrite Hv.
    rewrite (choice_from_json_match d cs (JStr s) Hin). simpl py_str.
    rewrite R, P, <- Hv, with_value_same.
    split; [ reflexivity | ]. exists (value d), (value d).
    repeat split; auto using py_eq_refl; simpl; now rewrite ?with_value_same.
  - (* keybind *)
    assert (Hk : KeybindOption_from_json d (value d) = set_value d (value d)).
    { destruct Hdom as [Hv | (s & Hv)]; rewrite Hv; reflexivity. }
    destruct (set_value_quiet d (value d) Hq) as (R & P & _).
    simpl. rewrite Hk, R, P, with_value_same.
    split; [ reflexivity | ]. exists (value d), (value d).
    repeat split; auto using py_eq_refl; simpl; now rewrite ?with_value_same.
Qed.

(** ** Construction of a slider *)

(** C8: constructing a slider whose step is strictly greater than
    [max_value - min_value] raises [ValueError]; between ints the
    difference is the exact one.  Step 20 with min 0 and max 10
    raises. *)
Theorem slider_step_exceeding_range_raises :
  (forall id v lo hi st int display descr title hidden cb range,
     num_sub hi lo = Ok range -> num_gtb st range = true ->
     SliderOption_init id v lo hi st int display descr title hidden cb
     = Raise ValueError) /\
  (forall id v (lo hi st : Z) int display descr title hidden cb,
     hi - lo < st ->
     SliderOption_init id v (NInt lo) (NInt hi) (NInt st) int display descr title
                       hidden cb
     = Raise ValueError) /\
  (forall id v int display descr title hidden cb,
     SliderOption_init id v (NInt 0) (NInt 10) (NInt 20) int display descr title
                       hidden cb
     = Raise ValueError).
Proof.
  assert (H : forall id v lo hi st int display descr title hidden cb range,
     num_sub hi lo = Ok range -> num_gtb st range = true ->
     SliderOption_init id v lo hi st int display descr title hidden cb
     = Raise ValueError).
  { intros id v lo hi st int display descr title hidden cb range Hs Hg.
    unfold SliderOption_init. rewrite Hs. unfold Ok. cbv iota beta.
    now rewrite Hg. }
  split; [ exact H | split ].
  - intros id v lo hi st int display descr title hidden cb Hlt.
    apply H with (range := NInt (hi - lo)); [ reflexivity | ].
    unfold num_gtb, num_compare.
    destruct (Z.compare_spec st (hi - lo)); [ lia | lia | reflexivity ].
  - intros. reflexivity.
Qed.

(** ** The change callback *)

(** The ordinary case of an assignment to the value of an option that
    has a callback, made while the object carries no guard attribute:
    the callback is entered first, while the option still holds the
    old value; the assignments its body makes are plain stores, so the
    callback is entered exactly once; if the body returns, the guard is
    removed and the new value is stored last, and if it raises the new
    value is not stored.  A callback that assigns [w] gives the events
    callback, store of [w], store of the new value. *)
Lemma on_change_runs_before_store_once :
  forall o cb v,
    on_change o = Some cb -> guard o = false ->
    let r := set_value o v in
    let id := identifier (base o) in
    let body := run_cmd store (cb v) (with_guard o true) in
    value (with_guard o true) = value o /\
    (forall n, setattr_value (S n) o v = r) /\
    trace r = (EvOnChange id v :: trace body
               ++ match raised body with None => [EvStore id v] | Some _ => [] end)%list /\
    List.length (filter is_on_change (trace r)) = 1%nat /\
    raised r = raised body /\
    (raised body = None -> value (post r) = v /\ guard (post r) = false) /\
    (raised body <> None -> post r = post body) /\
    (forall w, cb v = CAssign w CDone ->
       trace r = [EvOnChange id v; EvStore id w; EvStore id v] /\ value (post r) = v).
Proof.
  intros o cb v Hcb Hg r id body.
  assert (Hr : r = match raised body with
                   | Some e => mkOutcome (post body) (EvOnChange id v :: trace body)
                                         (Some e)
                   | None => mkOutcome (with_value (with_guard (post body) false) v)
                                       (EvOnChange id v :: trace body ++ [EvStore id v])
                                       None
                   end)
    by exact (set_value_callback o cb v Hcb Hg).
  destruct (run_cmd_store_frame (cb v) (with_guard o true)) as (_ & _ & _ & _ & Ht).
  fold body in Ht.
  assert (Hnone : filter is_on_change (trace body) = []).
  { clear - Ht. induction (trace body) as [ | e t IH ]; [ reflexivity | ].
    simpl in Ht. apply andb_true_iff in Ht. destruct Ht as (He & Ht).
    simpl. destruct (is_on_change e); [ discriminate | now apply IH ]. }
  split; [ reflexivity | ].
  split; [ intros n; apply setattr_value_fuel | ].
  assert (Htr : trace r = (EvOnChange id v :: trace body
               ++ match raised body with None => [EvStore id v] | Some _ => [] end)%list).
  { rewrite Hr. destruct (raised body); simpl; [ now rewrite app_nil_r | reflexivity ]. }
  split; [ exact Htr | ].
  split.
  { rewrite Htr. simpl. rewrite filter_app, Hnone.
    destruct (raised body); reflexivity. }
  split; [ rewrite Hr; destruct (raised body); reflexivity | ].
  split; [ intros Hb; rewrite Hr, Hb; split; reflexivity | ].
  split.
  { intros Hb. rewrite Hr. destruct (raised body); [ reflexivity | now elim Hb ]. }
  intros w Hw. rewrite Hr. unfold body. rewrite Hw. simpl. split; reflexivity.
Qed.

(** C9 (the failing input): [__setattr__] removes the guard attribute
    only when the callback returns.  A callback that raises leaves it
    on the object (the new value is not stored either), and from then
    on an assignment to the value stores it without invoking the
    callback, which is still set. *)
Theorem guard_stays_after_raising_callback :
  forall b v0 e v1 v2,
    let o := mkValue b v0 v0 (Some (fun _ => CRaise e)) false in
    let r1 := set_value o v1 in
    let r2 := set_value (post r1) v2 in
    trace r1 = [EvOnChange (identifier b) v1] /\ raised r1 = Some e /\
    value (post r1) = v0 /\ guard (post r1) = true /\
    on_change (post r1) = on_change o /\
    trace r2 = [EvStore (identifier b) v2] /\ raised r2 = None /\
    value (post r2) = v2 /\
    filter is_on_change (trace r2) = [].
Proof.
  intros b v0 e v1 v2 o r1 r2. repeat split.
Qed.

(** ** Loops over options *)

Lemma for_each_length : forall A (body : A -> outcome A) xs,
  List.length (post (for_each body xs)) = List.length xs.
Proof.
  intros A body. induction xs as [ | x xs IH ]; [ reflexivity | ].
  simpl. destruct (raised (body x)); simpl; [ reflexivity | now rewrite IH ].
Qed.

(** An element the loop body leaves alone is the same afterwards,
    wherever the loop stopped. *)
Lemma for_each_frame : forall A (body : A -> outcome A) xs i x,
  nth_error xs i = Some x -> post (body x) = x ->
  nth_error (post (for_each body xs)) i = Some x.
Proof.
  intros A body. induction xs as [ | y xs IH ]; intros i x Hn Hb.
  - destruct i; discriminate.
  - simpl. destruct i as [ | i ]; simpl in Hn.
    + injection Hn as ->. destruct (raised (body x)); simpl; now rewrite Hb.
    + destruct (raised (body y)); simpl; [ exact Hn | now apply IH ].
Qed.

(** Elements on which the body does nothing can be left out of the
    loop: the events and the exception are the same. *)
Lemma for_each_filter : forall A (body : A -> outcome A) (p : A -> bool) xs,
  (forall x, In x xs -> p x = false -> body x = ret x) ->
  trace (for_each body xs) = trace (for_each body (filter p xs)) /\
  raised (for_each body xs) = raised (for_each body (filter p xs)).
Proof.
  intros A body p. induction xs as [ | x xs IH ]; intros H; [ now split | ].
  assert (IH' := IH (fun y Hy => H y (or_intror Hy))). destruct IH' as (IHt & IHr).
  simpl filter. destruct (p x) eqn:Hp.
  - simpl. destruct (raised (body x)); simpl; [ now split | ].
    now rewrite IHt, IHr.
  - simpl. rewrite (H x (or_introl eq_refl) Hp). simpl. now split.
Qed.

Lemma for_each_all_skipped : forall A (body : A -> outcome A) xs,
  (forall x, In x xs -> body x = ret x) -> for_each body xs = ret xs.
Proof.
  intros A body. induction xs as [ | x xs IH ]; intros H; [ reflexivity | ].
  simpl. rewrite (H x (or_introl eq_refl)). simpl.
  rewrite IH by (intros y Hy; apply H; now right). reflexivity.
Qed.

Lemma for_each_trace : forall A (body : A -> outcome A) (p : event -> bool) xs,
  (forall x, In x xs -> forallb p (trace (body x)) = true) ->
  forallb p (trace (for_each body xs)) = true.
Proof.
  intros A body p. induction xs as [ | x xs IH ]; intros H; [ reflexivity | ].
  simpl. pose proof (H x (or_introl eq_refl)) as Hx.
  destruct (raised (body x)); simpl; [ exact Hx | ].
  rewrite forallb_app, Hx. apply IH. intros y Hy. apply H. now right.
Qed.

(** On a mapping the loop of [load_options_dict] is the loop of the
    two composite classes. *)
Lemma load_option_dict : forall m o,
  load_option (JDict m) o = dispatch_child from_json m o.
Proof.
  intros m o. unfold load_option, dispatch_child, py_contains, py_getitem, dict_mem.
  destruct (dict_get m (option_identifier o)); reflexivity.
Qed.

Lemma for_each_ext : forall A (f g : A -> outcome A) xs,
  (forall x, f x = g x) -> for_each f xs = for_each g xs.
Proof.
  intros A f g. induction xs as [ | x xs IH ]; intros H; [ reflexivity | ].
  simpl. now rewrite H, IH.
Qed.

Lemma dispatch_child_absent : forall m o,
  dict_mem m (option_identifier o) = false -> dispatch_child from_json m o = ret o.
Proof.
  intros m o H. unfold dispatch_child, dict_mem in *.
  destruct (dict_get m (option_identifier o)); [ discriminate | reflexivity ].
Qed.

(** C5: loading a document into a sequence of options, at the top
    level ([load_options_dict]) or into a group or nested group: an
    option whose identifier is not a key of the document is the same
    object afterwards, and the events and the outcome of the load are
    those of dispatching to the options whose identifiers are keys and
    to no other; when no identifier is a key, nothing happens at all. *)
Theorem absent_identifiers_untouched :
  forall (m : dict) (opts : list BaseOption),
    let present o := dict_mem m (option_identifier o) in
    let r := load_options_dict opts (JDict m) in
    (forall i o, nth_error opts i = Some o -> present o = false ->
                 nth_error (post r) i = Some o) /\
    List.length (post r) = List.length opts /\
    trace r = trace (load_options_dict (filter present opts) (JDict m)) /\
    raised r = raised (load_options_dict (filter present opts) (JDict m)) /\
    ((forall o, In o opts -> present o = false) -> r = ret opts) /\
    (forall b, from_json (GroupedOption b opts) (JDict m) = lift (GroupedOption b) r) /\
    (forall b, from_json (NestedOption b opts) (JDict m) = lift (NestedOption b) r).
Proof.
  intros m opts present r.
  assert (Habs : forall o, present o = false -> load_option (JDict m) o = ret o).
  { intros o Ho. rewrite load_option_dict. now apply dispatch_child_absent. }
  split.
  { intros i o Hn Ho. apply for_each_frame; [ exact Hn | ]. now rewrite Habs. }
  split; [ apply for_each_length | ].
  destruct (for_each_filter _ (load_option (JDict m)) present opts) as (Ht & Hr).
  { intros o _ Ho. now apply Habs. }
  split; [ exact Ht | ]. split; [ exact Hr | ].
  split.
  { intros Hall. apply for_each_all_skipped. intros o Ho. apply Habs. now apply Hall. }
  split; intros b; simpl; f_equal; apply for_each_ext; intros o;
    symmetry; apply load_option_dict.
Qed.

(** ** Saving *)

Lemma dict_set_not_nil : forall d k v, dict_set d k v <> [].
Proof.
  intros [ | [k' v'] d ] k v; simpl; [ discriminate | ].
  destruct (String.eqb k k'); discriminate.
Qed.

(** A dict comprehension is empty exactly when every element was
    filtered out. *)
Lemma collect_nil_acc : forall os acc,
  fold_left (fun acc o => match to_json o with
                          | Some j => dict_set acc (option_identifier o) j
                          | None => acc
                          end) os acc = [] <->
  acc = [] /\ forall o, In o os -> to_json o = None.
Proof.
  induction os as [ | x xs IH ]; intros acc; simpl.
  - split; [ intros ->; now split | now intros (-> & _) ].
  - rewrite IH. destruct (to_json x) as [j | ] eqn:Hs.
    + split.
      * intros (H & _). now apply dict_set_not_nil in H.
      * intros (_ & H). specialize (H x (or_introl eq_refl)). congruence.
    + split.
      * intros (-> & H). split; [ reflexivity | ]. intros y [<- | Hy]; auto.
      * intros (-> & H). split; [ reflexivity | ]. intros y Hy. apply H. now right.
Qed.

Lemma create_options_dict_nil : forall os,
  create_options_dict os = [] <-> forall o, In o os -> to_json o = None.
Proof.
  intros os. unfold create_options_dict, collect. rewrite collect_nil_acc.
  split; [ now intros (_ & H) | now split ].
Qed.

Lemma keybind_settings_nil_acc : forall ks acc,
  fold_left (fun acc kb =>
               if negb (kb_is_rebindable kb) then acc
               else dict_set acc (kb_identifier kb) (key_json (key kb)))
            ks acc = [] <->
  acc = [] /\ forall kb, In kb ks -> kb_is_rebindable kb = false.
Proof.
  induction ks as [ | x xs IH ]; intros acc; simpl.
  - split; [ intros ->; now split | now intros (-> & _) ].
  - rewrite IH. destruct (kb_is_rebindable x) eqn:Hs; simpl.
    + split.
      * intros (H & _). now apply dict_set_not_nil in H.
      * intros (_ & H). specialize (H x (or_introl eq_refl)). congruence.
    + split.
      * intros (-> & H). split; [ reflexivity | ]. intros y [<- | Hy]; auto.
      * intros (-> & H). split; [ reflexivity | ]. intros y Hy. apply H. now right.
Qed.

Lemma keybind_settings_nil : forall ks,
  keybind_settings ks = [] <-> forall kb, In kb ks -> kb_is_rebindable kb = false.
Proof.
  intros ks. unfold keybind_settings. rewrite keybind_settings_nil_acc.
  split; [ now intros (_ & H) | now split ].
Qed.

Lemma create_options_dict_not_nil : forall os,
  create_options_dict os <> [] <-> exists o, In o os /\ to_json o <> None.
Proof.
  intros os. rewrite create_options_dict_nil. split.
  - intros H. induction os as [ | o os IH ].
    + exfalso. apply H. intros o [].
    + destruct (to_json o) as [j | ] eqn:Hj.
      * exists o. split; [ now left | congruence ].
      * destruct IH as (o' & Hin & Hne).
        { intros Hall. apply H. intros y [<- | Hy]; auto. }
        exists o'. split; [ now right | exact Hne ].
  - intros (o & Hin & Hne) Hall. apply Hne. now apply Hall.
Qed.

Lemma keybind_settings_not_nil : forall ks,
  keybind_settings ks <> [] <-> exists kb, In kb ks /\ kb_is_rebindable kb = true.
Proof.
  intros ks. rewrite keybind_settings_nil. split.
  - intros H. induction ks as [ | k ks IH ].
    + exfalso. apply H. intros k [].
    + destruct (kb_is_rebindable k) eqn:Hk.
      * exists k. split; [ now left | exact Hk ].
      * destruct IH as (k' & Hin & Hne).
        { intros Hall. apply H. intros y [<- | Hy]; auto. }
        exists k'. split; [ now right | exact Hne ].
  - intros (k & Hin & Hk) Hall. rewrite (Hall k Hin) in Hk. discriminate.
Qed.

(** The document that is saved: the sections, in this order, each
    left out when it would be empty. *)
Lemma save_document_sections : forall m,
  save_document m =
  ((match create_options_dict (options m) with
    | [] => []
    | od => [("options", JDict od)]
    end)
   ++ (match keybind_settings (keybinds m) with
       | [] => []
       | ks => [("keybinds", JDict ks)]
       end)
   ++ (if auto_enable m then [("enabled", JBool (is_enabled m))] else []))%list.
Proof.
  intros m. unfold save_document.
  assert (Ho : (if (0 <? List.length (options m))%nat
                then if (0 <? List.length (create_options_dict (options m)))%nat
                     then dict_set [] "options" (JDict (create_options_dict (options m)))
                     else []
                else []) =
               match create_options_dict (options m) with
               | [] => []
               | od => [("options", JDict od)]
               end).
  { destruct (options m) as [ | o os ] eqn:Hos; [ reflexivity | ].
    change ((0 <? List.length (o :: os))%nat) with true. cbv iota.
    destruct (create_options_dict (o :: os)); reflexivity. }
  rewrite Ho. clear Ho.
  assert (Hk : forall settings : dict,
            (if (0 <? List.length (keybinds m))%nat
             then if (0 <? List.length (keybind_settings (keybinds m)))%nat
                  then dict_set settings "keybinds"
                                (JDict (keybind_settings (keybinds m)))
                  else settings
             else settings) =
            match keybind_settings (keybinds m) with
            | [] => settings
            | ks => dict_set settings "keybinds" (JDict ks)
            end).
  { intros settings. destruct (keybinds m) as [ | k ks ] eqn:Hks; [ reflexivity | ].
    change ((0 <? List.length (k :: ks))%nat) with true. cbv iota.
    destruct (keybind_settings (k :: ks)); reflexivity. }
  rewrite Hk. clear Hk.
  destruct (create_options_dict (options m)) as [ | x od ];
    destruct (keybind_settings (keybinds m)) as [ | y ks ];
    destruct (auto_enable m); reflexivity.
Qed.

Lemma fs_update_same : forall fs p x, fs_update fs p x p = x.
Proof. intros fs p x. unfold fs_update. now rewrite String.eqb_refl. Qed.

Lemma fs_update_other : forall fs p x q, q <> p -> fs_update fs p x q = fs q.
Proof.
  intros fs p x q H. unfold fs_update.
  destruct (String.eqb q p) eqn:E; [ | reflexivity ].
  apply String.eqb_eq in E. contradiction.
Qed.

Ltac decide_section :=
  split; intros H;
  first [ reflexivity | discriminate H | congruence
        | exfalso; apply H; reflexivity ].

Lemma save_document_keys : forall m,
  let doc := save_document m in
  (dict_mem doc "options" = true <-> create_options_dict (options m) <> []) /\
  (dict_mem doc "keybinds" = true <-> keybind_settings (keybinds m) <> []) /\
  (dict_mem doc "enabled" = true <-> auto_enable m = true) /\
  (doc = [] <-> create_options_dict (options m) = [] /\
                keybind_settings (keybinds m) = [] /\ auto_enable m = false) /\
  (forall k, dict_mem doc k = true ->
             k = "options" \/ k = "keybinds" \/ k = "enabled").
Proof.
  intros m doc. subst doc. rewrite save_document_sections.
  destruct (create_options_dict (options m)) as [ | x od ];
    destruct (keybind_settings (keybinds m)) as [ | y ks ];
    destruct (auto_enable m);
    (split; [ decide_section | ]);
    (split; [ decide_section | ]);
    (split; [ decide_section | ]);
    (split; [ split; [ intros H; try discriminate H; now repeat split
                     | intros (H1 & H2 & H3);
                       first [ reflexivity | discriminate H1 | discriminate H2
                             | discriminate H3 ] ] | ]);
    intros k H; unfold dict_mem in H; simpl in H;
    repeat match type of H with
           | context [String.eqb k ?s] =>
               let E := fresh "E" in
               destruct (String.eqb k s) eqn:E;
               [ apply String.eqb_eq in E; auto | ]
           end; discriminate H.
Qed.

(** C6: the document [default_save_mod_settings] builds has no key
    but "options", "keybinds" and "enabled"; "options" is there exactly
    when some option serializes to a value, "keybinds" exactly when some
    keybind is rebindable, "enabled" exactly when the mod auto-enables.
    When none of the three holds the settings file is removed;
    otherwise it is overwritten with the (non-empty) document.  No
    other file is touched, and a mod without a settings file saves
    nothing. *)
Theorem save_writes_sections_or_removes_file :
  forall m,
    let doc := save_document m in
    (dict_mem doc "options" = true <-> has_option_value m) /\
    (dict_mem doc "keybinds" = true <-> has_rebindable m) /\
    (dict_mem doc "enabled" = true <-> auto_enable m = true) /\
    (forall k, dict_mem doc k = true ->
               k = "options" \/ k = "keybinds" \/ k = "enabled") /\
    (forall fs p, settings_file m = Some p ->
       (~ has_option_value m /\ ~ has_rebindable m /\ auto_enable m = false ->
          doc = [] /\ default_save_mod_settings m fs p = Missing) /\
       (has_option_value m \/ has_rebindable m \/ auto_enable m = true ->
          doc <> [] /\ default_save_mod_settings m fs p = Document (JDict doc)) /\
       (forall q, q <> p -> default_save_mod_settings m fs q = fs q)) /\
    (settings_file m = None -> forall fs, default_save_mod_settings m fs = fs).
Proof.
  intros m doc.
  destruct (save_document_keys m) as (Ko & Kk & Ke & Knil & Kall). fold doc in Ko, Kk, Ke, Knil, Kall.
  pose proof (create_options_dict_not_nil (options m)) as Ho.
  pose proof (keybind_settings_not_nil (keybinds m)) as Hk.
  fold (has_option_value m) in Ho. fold (has_rebindable m) in Hk.
  assert (Hsave : forall fs p, settings_file m = Some p ->
            default_save_mod_settings m fs =
            match doc with
            | [] => fs_update fs p Missing
            | _ => fs_update fs p (Document (JDict doc))
            end).
  { intros fs p Hp. unfold default_save_mod_settings. rewrite Hp. fold doc.
    destruct doc; reflexivity. }
  assert (Hempty : ~ has_option_value m /\ ~ has_rebindable m /\ auto_enable m = false
                   -> doc = []).
  { intros (H1 & H2 & H3). apply Knil. repeat split; [ | | exact H3 ].
    - destruct (create_options_dict (options m)) eqn:E; [ reflexivity | ].
      elim H1. apply Ho. discriminate.
    - destruct (keybind_settings (keybinds m)) eqn:E; [ reflexivity | ].
      elim H2. apply Hk. discriminate. }
  assert (Hfull : has_option_value m \/ has_rebindable m \/ auto_enable m = true
                  -> doc <> []).
  { intros H Hd. apply Knil in Hd. destruct Hd as (H1 & H2 & H3).
    destruct H as [H | [H | H]].
    - apply Ho in H. contradiction.
    - apply Hk in H. contradiction.
    - congruence. }
  split; [ now rewrite Ko | ].
  split; [ now rewrite Kk | ].
  split; [ exact Ke | ].
  split; [ exact Kall | ].
  split.
  - intros fs p Hp. rewrite (Hsave fs p Hp). repeat split.
    + now apply Hempty.
    + rewrite (Hempty H). apply fs_update_same.
    + now apply Hfull.
    + apply Hfull in H. destruct doc; [ now elim H | apply fs_update_same ].
    + intros q Hq. destruct doc; now apply fs_update_other.
  - intros Hn fs. unfold default_save_mod_settings. now rewrite Hn.
Qed.

(** ** Events of a load *)

(** Induction on an option tree, children included. *)
Lemma BaseOption_tree_ind : forall P : BaseOption -> Prop,
  (forall d, P (HiddenOption d)) ->
  (forall d lo hi st int, P (SliderOption d lo hi st int)) ->
  (forall d cs w, P (SpinnerOption d cs w)) ->
  (forall d t f, P (BoolOption d t f)) ->
  (forall d cs, P (DropdownOption d cs)) ->
  (forall b, P (ButtonOption b)) ->
  (forall d r, P (KeybindOption d r)) ->
  (forall b cs, Forall P cs -> P (GroupedOption b cs)) ->
  (forall b cs, Forall P cs -> P (NestedOption b cs)) ->
  forall o, P o.
Proof.
  intros P Hh Hs Hsp Hb Hd Hbu Hk Hg Hn.
  fix IH 1. intros o.
  destruct o as [d | d lo hi st int | d cs w | d t f | d cs | b | d rb | b cs | b cs].
  - apply Hh.
  - apply Hs.
  - apply Hsp.
  - apply Hb.
  - apply Hd.
  - apply Hbu.
  - apply Hk.
  - apply Hg. induction cs as [ | c cs IHcs ]; constructor; [ apply IH | exact IHcs ].
  - apply Hn. induction cs as [ | c cs IHcs ]; constructor; [ apply IH | exact IHcs ].
Qed.

Lemma seq_trace_forall : forall A (p : event -> bool) (r : outcome A) k,
  forallb p (trace r) = true -> (forall a, forallb p (trace (k a)) = true) ->
  forallb p (trace (seq r k)) = true.
Proof.
  intros A p r k Hr Hk. unfold seq. destruct (raised r); [ exact Hr | ].
  simpl. now rewrite forallb_app, Hr, Hk.
Qed.

Lemma try_except_trace_forall : forall A (p : event -> bool) (r : outcome A) x h,
  forallb p (trace r) = true -> (forall a, forallb p (trace (h a)) = true) ->
  forallb p (trace (try_except r x h)) = true.
Proof.
  intros A p r x h Hr Hh. unfold try_except.
  destruct (raised r) as [e | ]; [ | exact Hr ].
  destruct (exception_eqb e x); [ | exact Hr ].
  simpl. now rewrite forallb_app, Hr, Hh.
Qed.

(** Whatever the callback does, an assignment produces option events
    only. *)
Lemma set_value_events : forall d x,
  forallb is_option_event (trace (set_value d x)) = true.
Proof.
  intros d x. destruct (on_change d) as [cb | ] eqn:Hcb.
  - destruct (guard d) eqn:Hg.
    + unfold set_value. now rewrite setattr_value_guarded.
    + rewrite (set_value_callback d cb x Hcb Hg).
      destruct (run_cmd_store_frame (cb x) (with_guard d true)) as (_ & _ & _ & _ & Ht).
      assert (Ht' : forallb is_option_event
                      (trace (run_cmd store (cb x) (with_guard d true))) = true).
      { revert Ht. apply forallb_weaken. intros e He.
        apply andb_true_iff in He. destruct He as (He & _).
        apply andb_true_iff in He. now destruct He. }
      cbv zeta. destruct (raised (run_cmd store (cb x) (with_guard d true))); simpl.
      * exact Ht'.
      * now rewrite forallb_app, Ht'.
  - unfold set_value. now rewrite setattr_value_no_callback.
Qed.

Lemma from_json_events : forall o v,
  forallb is_option_event (trace (from_json o v)) = true.
Proof.
  intros o. induction o as [d | d lo hi st int | d cs w | d t f | d cs | b | d rb
                           | b cs IH | b cs IH] using BaseOption_tree_ind;
    intros v; simpl.
  - apply set_value_events.
  - unfold SliderOption_from_json. apply try_except_trace_forall; [ | reflexivity ].
    destruct (py_float v) as [e | f]; [ reflexivity | ].
    apply seq_trace_forall; [ apply set_value_events | ].
    intros a. destruct int; [ | reflexivity ].
    destruct (py_round_value (value a)); [ reflexivity | apply set_value_events ].
  - unfold SpinnerOption_from_json, choice_from_json.
    destruct (in_choices (py_str v) cs); [ apply set_value_events | reflexivity ].
  - apply set_value_events.
  - unfold DropdownOption_from_json, choice_from_json.
    destruct (in_choices (py_str v) cs); [ apply set_value_events | reflexivity ].
  - reflexivity.
  - unfold KeybindOption_from_json. destruct v; apply set_value_events.
  - destruct v; try reflexivity. simpl. apply for_each_trace.
    intros c Hc. unfold dispatch_child.
    destruct (dict_get l (option_identifier c)); [ | reflexivity ].
    rewrite Forall_forall in IH. now apply IH.
  - destruct v; try reflexivity. simpl. apply for_each_trace.
    intros c Hc. unfold dispatch_child.
    destruct (dict_get l (option_identifier c)); [ | reflexivity ].
    rewrite Forall_forall in IH. now apply IH.
Qed.

Lemma option_event_not_enable : forall t,
  forallb is_option_event t = true -> forallb not_enable t = true.
Proof.
  intros t. apply forallb_weaken. intros e He. now destruct e.
Qed.

Lemma not_enable_not_in : forall t,
  forallb not_enable t = true -> ~ In EvEnable t.
Proof.
  intros t H Hin. rewrite forallb_forall in H. specialize (H _ Hin). discriminate.
Qed.

Lemma load_option_events : forall settings o,
  forallb not_enable (trace (load_option settings o)) = true.
Proof.
  intros settings o. unfold load_option.
  destruct (py_contains (option_identifier o) settings) as [e | []]; try reflexivity.
  destruct (py_getitem settings (option_identifier o)); [ reflexivity | ].
  apply option_event_not_enable, from_json_events.
Qed.

Lemma load_keybind_events : forall saved kb,
  forallb not_enable (trace (load_keybind saved kb)) = true.
Proof.
  intros saved kb. unfold load_keybind.
  destruct (py_contains (kb_identifier kb) saved) as [e | []]; try reflexivity.
  destruct (py_getitem saved (kb_identifier kb)) as [e | []]; reflexivity.
Qed.

(** Up to the enable step a load produces no enable event and leaves
    the auto-enable flag alone. *)
Lemma load_values_events : forall settings m,
  forallb not_enable (trace (load_values settings m)) = true /\
  auto_enable (post (load_values settings m)) = auto_enable m.
Proof.
  intros settings m. unfold load_values.
  assert (Ho : forallb not_enable (trace (load_options_section settings m)) = true /\
               auto_enable (post (load_options_section settings m)) = auto_enable m).
  { unfold load_options_section.
    destruct (py_contains "options" settings) as [e | []]; try (now split).
    destruct (py_getitem settings "options") as [e | section]; [ now split | ].
    split; [ | reflexivity ]. simpl. apply for_each_trace.
    intros o _. apply load_option_events. }
  assert (Hk : forall m', forallb not_enable (trace (load_keybinds_section settings m')) = true /\
               auto_enable (post (load_keybinds_section settings m')) = auto_enable m').
  { intros m'. unfold load_keybinds_section.
    destruct (py_contains "keybinds" settings) as [e | []]; try (now split).
    destruct (py_getitem settings "keybinds") as [e | saved]; [ now split | ].
    split; [ | reflexivity ]. simpl. apply for_each_trace.
    intros kb _. apply load_keybind_events. }
  destruct Ho as (Ho1 & Ho2). split.
  - apply seq_trace_forall; [ exact Ho1 | intros a; apply Hk ].
  - unfold seq. destruct (raised (load_options_section settings m)); [ exact Ho2 | ].
    simpl. destruct (Hk (post (load_options_section settings m))) as (_ & ->).
    exact Ho2.
Qed.

(** C7 (amended): in [default_load_mod_settings] the enable operation
    runs only when the mod auto-enables and the document marks it
    enabled, and then it is the last thing that happens: every event
    of applying the options and keybinds sections comes before it, the
    enable call sees the mod with all of them applied, and nothing
    follows.  In a load that returns, it runs whenever the mod
    auto-enables and the document marks it enabled. *)
Theorem enable_is_last_step_of_load :
  forall m fs,
    let r := default_load_mod_settings m fs in
    (In EvEnable (trace r) ->
       auto_enable m = true /\ marks_enabled m fs = true /\ raised r = None /\
       exists settings,
         persisted m fs = Some settings /\
         raised (load_values settings m) = None /\
         forallb not_enable (trace (load_values settings m)) = true /\
         trace r = (trace (load_values settings m) ++ [EvEnable])%list /\
         post r = post (Mod_enable (post (load_values settings m)))) /\
    (raised r = None -> auto_enable m = true -> marks_enabled m fs = true ->
       In EvEnable (trace r)).
Proof.
  intros m fs r. subst r.
  unfold default_load_mod_settings, marks_enabled, persisted.
  destruct (settings_file m) as [p | ]; [ | split; [ intros [] | discriminate ] ].
  destruct (fs p) as [ | | e | settings ]; try (split; [ intros [] | discriminate ]).
  fold (load_values settings m).
  destruct (load_values_events settings m) as (Ht & Ha).
  pose proof (not_enable_not_in _ Ht) as Hnot.
  unfold seq. destruct (raised (load_values settings m)) as [e | ] eqn:Hr.
  - split; [ intros Hin; contradiction | ]. rewrite Hr. discriminate.
  - cbn [trace raised post]. unfold load_enabled. rewrite Ha.
    destruct (auto_enable m).
    + destruct (py_get settings "enabled" (JBool false)) as [e | v].
      * split; [ | discriminate ].
        cbn [trace throw]. rewrite app_nil_r. intros Hin. contradiction.
      * destruct (py_bool v).
        -- split.
           ++ intros _. repeat split. exists settings. repeat split; auto.
           ++ intros _ _ _. apply in_or_app. right. now left.
        -- split; [ | discriminate ].
           cbn [trace ret]. rewrite app_nil_r. intros Hin. contradiction.
    + split; [ | discriminate ].
      cbn [trace ret]. rewrite app_nil_r. intros Hin. contradiction.
Qed.

(** ** Where exceptions can come from *)

Lemma for_each_returns : forall A (body : A -> outcome A) xs,
  (forall x, In x xs -> raised (body x) = None) ->
  raised (for_each body xs) = None.
Proof.
  intros A body. induction xs as [ | x xs IH ]; intros H; [ reflexivity | ].
  simpl. rewrite (H x (or_introl eq_refl)). simpl.
  apply IH. intros y Hy. apply H. now right.
Qed.

Lemma slider_free_children : forall cs,
  (fix all (l : list BaseOption) : Prop :=
     match l with
     | [] => True
     | c :: l' => slider_free c /\ all l'
     end) cs <-> Forall slider_free cs.
Proof.
  induction cs as [ | c cs IH ]; split; intros H.
  - constructor.
  - exact I.
  - destruct H as (Hc & Hcs). constructor; [ exact Hc | now apply IH ].
  - inversion H; subst. split; [ assumption | now apply IH ].
Qed.

(** Apart from the slider no class raises, whatever it is handed:
    with callbacks that return, [_from_json] of an option without a
    slider in it returns. *)
Lemma from_json_returns : forall o v,
  slider_free o -> raised (from_json o v) = None.
Proof.
  intros o. induction o as [d | d lo hi st int | d cs w | d t f | d cs | b | d rb
                           | b cs IH | b cs IH] using BaseOption_tree_ind;
    intros v Hfree; simpl in Hfree |- *.
  - now destruct (set_value_quiet d v Hfree).
  - contradiction.
  - unfold SpinnerOption_from_json, choice_from_json.
    destruct (in_choices (py_str v) cs); [ | reflexivity ].
    now destruct (set_value_quiet d (JStr (py_str v)) Hfree).
  - unfold BoolOption_from_json.
    match goal with
    | |- raised (set_value d ?x) = None => now destruct (set_value_quiet d x Hfree)
    end.
  - unfold DropdownOption_from_json, choice_from_json.
    destruct (in_choices (py_str v) cs); [ | reflexivity ].
    now destruct (set_value_quiet d (JStr (py_str v)) Hfree).
  - reflexivity.
  - unfold KeybindOption_from_json.
    destruct v;
      match goal with
      | |- raised (set_value d ?x) = None => now destruct (set_value_quiet d x Hfree)
      end.
  - apply slider_free_children in Hfree.
    destruct v; try reflexivity. simpl. apply for_each_returns.
    intros c Hc. unfold dispatch_child.
    destruct (dict_get l (option_identifier c)); [ | reflexivity ].
    rewrite Forall_forall in IH, Hfree. apply IH; auto.
  - apply slider_free_children in Hfree.
    destruct v; try reflexivity. simpl. apply for_each_returns.
    intros c Hc. unfold dispatch_child.
    destruct (dict_get l (option_identifier c)); [ | reflexivity ].
    rewrite Forall_forall in IH, Hfree. apply IH; auto.
Qed.

(** * More of the code *)

(** ** Dictionaries *)

Lemma dict_get_set : forall d k v k',
  dict_get (dict_set d k v) k' = if String.eqb k' k then Some v else dict_get d k'.
Proof.
  induction d as [ | [k0 v0] d IH ]; intros k v k'; simpl.
  - reflexivity.
  - destruct (String.eqb k k0) eqn:Hk; simpl.
    + apply String.eqb_eq in Hk. subst k0.
      destruct (String.eqb k' k); reflexivity.
    + destruct (String.eqb k' k0) eqn:Hk'.
      * apply String.eqb_eq in Hk'. subst k0.
        destruct (String.eqb k' k) eqn:E; [ | reflexivity ].
        apply String.eqb_eq in E. subst k'. rewrite String.eqb_refl in Hk. discriminate.
      * apply IH.
Qed.

Lemma dict_mem_In : forall d k, dict_mem d k = true <-> In k (map fst d).
Proof.
  unfold dict_mem. induction d as [ | [k0 v0] d IH ]; intros k; simpl.
  - split; [ discriminate | contradiction ].
  - destruct (String.eqb k k0) eqn:Hk.
    + apply String.eqb_eq in Hk. subst. split; auto.
    + rewrite IH. split; [ now right | ].
      intros [H | H]; [ | exact H ]. subst. rewrite String.eqb_refl in Hk. discriminate.
Qed.

Lemma dict_set_keys : forall d k v,
  map fst (dict_set d k v) = if dict_mem d k then map fst d else (map fst d ++ [k])%list.
Proof.
  unfold dict_mem. induction d as [ | [k0 v0] d IH ]; intros k v; simpl.
  - reflexivity.
  - destruct (String.eqb k k0) eqn:Hk; simpl; [ reflexivity | ].
    rewrite IH. destruct (dict_get d k); reflexivity.
Qed.

Lemma dict_set_NoDup : forall d k v,
  NoDup (map fst d) -> NoDup (map fst (dict_set d k v)).
Proof.
  intros d k v H. rewrite dict_set_keys.
  destruct (dict_mem d k) eqn:Hm; [ exact H | ].
  apply NoDup_app; [ exact H | constructor; [ intros [] | constructor ] | ].
  intros x Hx [<- | []]. apply dict_mem_In in Hx. congruence.
Qed.

Lemma dict_set_fresh : forall d k v,
  dict_mem d k = false -> dict_set d k v = (d ++ [(k, v)])%list.
Proof.
  unfold dict_mem. induction d as [ | [k0 v0] d IH ]; intros k v H; simpl in *.
  - reflexivity.
  - destruct (String.eqb k k0) eqn:Hk; [ discriminate | ].
    rewrite IH by exact H. reflexivity.
Qed.

(** ** The dictionary of a sequence of options *)

Lemma collect_acc_keys : forall os acc,
  NoDup (map fst acc) ->
  NoDup (map fst (fold_left (fun acc o => match to_json o with
                                          | Some j => dict_set acc (option_identifier o) j
                                          | None => acc
                                          end) os acc)).
Proof.
  induction os as [ | o os IH ]; intros acc H; simpl.
  - exact H.
  - apply IH. destruct (to_json o); [ apply dict_set_NoDup | ]; exact H.
Qed.

Lemma collect_acc_get : forall os acc k,
  dict_get (fold_left (fun acc o => match to_json o with
                                    | Some j => dict_set acc (option_identifier o) j
                                    | None => acc
                                    end) os acc) k =
  match fold_left (fun acc o =>
                     if String.eqb k (option_identifier o)
                     then match to_json o with Some j => Some j | None => acc end
                     else acc) os None with
  | Some j => Some j
  | None => dict_get acc k
  end.
Proof.
  induction os as [ | o os IH ]; intros acc k; simpl.
  - reflexivity.
  - rewrite IH. clear IH.
    assert (G : forall (a : option JSON),
              fold_left (fun acc o =>
                     if String.eqb k (option_identifier o)
                     then match to_json o with Some j => Some j | None => acc end
                     else acc) os a =
              match fold_left (fun acc o =>
                     if String.eqb k (option_identifier o)
                     then match to_json o with Some j => Some j | None => acc end
                     else acc) os None with
              | Some j => Some j
              | None => a
              end).
    { clear. induction os as [ | o os IH ]; intros a; simpl.
      - reflexivity.
      - destruct (String.eqb k (option_identifier o)); [ | apply IH ].
        destruct (to_json o) as [j | ]; [ | apply IH ].
        rewrite (IH (Some j)).
        destruct (fold_left _ os None); reflexivity. }
    rewrite (G (if String.eqb k (option_identifier o)
                then match to_json o with Some j => Some j | None => None end
                else None)).
    destruct (fold_left _ os None) as [j | ]; [ reflexivity | ].
    destruct (to_json o) as [j | ].
    + rewrite dict_get_set. destruct (String.eqb k (option_identifier o)); reflexivity.
    + destruct (String.eqb k (option_identifier o)); reflexivity.
Qed.

Lemma last_json_In : forall os k j,
  last_json os k = Some j ->
  exists o, In o os /\ option_identifier o = k /\ to_json o = Some j.
Proof.
  unfold last_json. intros os k.
  assert (G : forall a j,
            fold_left (fun acc o =>
                     if String.eqb k (option_identifier o)
                     then match to_json o with Some j => Some j | None => acc end
                     else acc) os a = Some j ->
            a = Some j \/
            exists o, In o os /\ option_identifier o = k /\ to_json o = Some j).
  { induction os as [ | o os IH ]; intros a j H; simpl in H.
    - left. exact H.
    - apply IH in H. destruct H as [H | (o' & Hin & Hid & Hj)].
      + destruct (String.eqb k (option_identifier o)) eqn:Hk; [ | left; exact H ].
        destruct (to_json o) as [j' | ] eqn:Hj; [ | left; exact H ].
        right. exists o. apply String.eqb_eq in Hk.
        split; [ left; reflexivity | ]. split; [ symmetry; exact Hk | congruence ].
      + right. exists o'. split; [ right; exact Hin | ]. split; assumption. }
  intros j H. destruct (G None j H) as [H' | H']; [ discriminate | exact H' ].
Qed.

Lemma last_json_sticky : forall os k a,
  a <> None ->
  fold_left (fun acc o =>
               if String.eqb k (option_identifier o)
               then match to_json o with Some j => Some j | None => acc end
               else acc) os a <> None.
Proof.
  induction os as [ | x os IH ]; intros k a Ha; simpl.
  - exact Ha.
  - apply IH. destruct (String.eqb _ _); [ | exact Ha ].
    destruct (to_json x); [ discriminate | exact Ha ].
Qed.

Lemma last_json_present_acc : forall os o a,
  In o os -> to_json o <> None ->
  fold_left (fun acc o0 =>
               if String.eqb (option_identifier o) (option_identifier o0)
               then match to_json o0 with Some j => Some j | None => acc end
               else acc) os a <> None.
Proof.
  induction os as [ | x os IH ]; intros o a Hin Hj; [ contradiction | ]. simpl.
  destruct Hin as [-> | Hin].
  - rewrite String.eqb_refl.
    destruct (to_json o) eqn:E; [ | exfalso; apply Hj; reflexivity ].
    apply last_json_sticky. discriminate.
  - apply IH; assumption.
Qed.

Lemma last_json_present : forall os o,
  In o os -> to_json o <> None -> last_json os (option_identifier o) <> None.
Proof.
  intros os o Hin Hj. unfold last_json. apply last_json_present_acc; assumption.
Qed.

Lemma last_json_unique : forall os o,
  NoDup (map option_identifier os) -> In o os ->
  last_json os (option_identifier o) = to_json o.
Proof.
  intros os o Hnd Hin.
  destruct (last_json os (option_identifier o)) as [j | ] eqn:Hl.
  - apply last_json_In in Hl. destruct Hl as (o' & Hin' & Hid & Hj).
    assert (o' = o); [ | subst; symmetry; exact Hj ].
    clear Hj. induction os as [ | x os IH ]; [ contradiction | ].
    simpl in Hnd. inversion Hnd as [ | ? ? Hx Hnd' ]; subst.
    destruct Hin as [-> | Hin]; destruct Hin' as [-> | Hin'].
    + reflexivity.
    + exfalso. apply Hx. rewrite <- Hid. apply in_map. exact Hin'.
    + exfalso. apply Hx. rewrite Hid. apply in_map. exact Hin.
    + apply IH; assumption.
  - destruct (to_json o) as [j | ] eqn:Hj; [ | reflexivity ].
    exfalso. apply (last_json_present os o Hin); [ congruence | exact Hl ].
Qed.

Lemma collect_ordered : forall os acc,
  NoDup (map fst acc ++ map option_identifier os) ->
  fold_left (fun acc o => match to_json o with
                          | Some j => dict_set acc (option_identifier o) j
                          | None => acc
                          end) os acc =
  (acc ++ flat_map (fun o => match to_json o with
                             | Some j => [(option_identifier o, j)]
                             | None => []
                             end) os)%list.
Proof.
  induction os as [ | o os IH ]; intros acc H; simpl.
  - symmetry. apply app_nil_r.
  - assert (Hfresh : dict_mem acc (option_identifier o) = false).
    { destruct (dict_mem acc (option_identifier o)) eqn:Hm; [ | reflexivity ].
      exfalso. apply dict_mem_In in Hm. simpl in H.
      apply NoDup_remove_2 in H. apply H. apply in_or_app. left. exact Hm. }
    destruct (to_json o) as [j | ].
    + rewrite IH.
      * rewrite dict_set_fresh by exact Hfresh. rewrite <- app_assoc. reflexivity.
      * rewrite dict_set_keys, Hfresh. rewrite <- app_assoc. exact H.
    + rewrite IH; [ reflexivity | ]. simpl in H. apply NoDup_remove_1 in H. exact H.
Qed.

Lemma create_options_dict_get : forall os k,
  dict_get (create_options_dict os) k = last_json os k.
Proof.
  intros os k. unfold create_options_dict, collect.
  rewrite collect_acc_get. unfold last_json.
  destruct (fold_left _ os None); reflexivity.
Qed.

Lemma create_options_dict_mem : forall os k,
  dict_mem (create_options_dict os) k = true <->
  exists o, In o os /\ option_identifier o = k /\ to_json o <> None.
Proof.
  intros os k. unfold dict_mem. rewrite create_options_dict_get. split.
  - destruct (last_json os k) as [j | ] eqn:Hl; [ | discriminate ].
    intros _. apply last_json_In in Hl. destruct Hl as (o & Hin & Hid & Hj).
    exists o. split; [ exact Hin | ]. split; [ exact Hid | congruence ].
  - intros (o & Hin & Hid & Hj).
    destruct (last_json os k) eqn:Hl; [ reflexivity | ].
    exfalso. subst k. apply (last_json_present os o Hin Hj). exact Hl.
Qed.

(** X1 ([create_options_dict], and with it the [_to_json] of a group):
    the dictionary has every identifier at most once; what it holds
    for an identifier is the value of the last option of that name that
    serializes to one, so a later duplicate overrides an earlier one and
    an option without a value (a button) never hides one; its keys are
    the identifiers of the options that serialize to a value; and when
    the identifiers are distinct it lists them in declaration order. *)
Theorem create_options_dict_lookup :
  forall os,
    NoDup (map fst (create_options_dict os)) /\
    (forall k, dict_get (create_options_dict os) k = last_json os k) /\
    (forall k, dict_mem (create_options_dict os) k = true <->
               exists o, In o os /\ option_identifier o = k /\ to_json o <> None) /\
    (NoDup (map option_identifier os) ->
       create_options_dict os =
       flat_map (fun o => match to_json o with
                          | Some j => [(option_identifier o, j)]
                          | None => []
                          end) os) /\
    (forall b, to_json (GroupedOption b os) = Some (JDict (create_options_dict os))) /\
    (forall b, to_json (NestedOption b os) = Some (JDict (create_options_dict os))).
Proof.
  intros os.
  split; [ unfold create_options_dict, collect; apply collect_acc_keys; constructor | ].
  split; [ apply create_options_dict_get | ].
  split; [ apply create_options_dict_mem | ].
  split; [ | split; intros; reflexivity ].
  intros Hnd. unfold create_options_dict, collect.
  rewrite collect_ordered; [ reflexivity | exact Hnd ].
Qed.

(** ** What a load never changes *)













(** ** Saving, then loading *)

Lemma restorable_children : forall cs,
  (fix all (l : list BaseOption) : Prop :=
     match l with
     | [] => True
     | c :: l' => restorable c /\ all l'
     end) cs <-> Forall restorable cs.
Proof.
  induction cs as [ | c cs IH ]; split; intros H.
  - constructor.
  - exact I.
  - destruct H as [Hc Hcs]. constructor; [ exact Hc | apply IH; exact Hcs ].
  - inversion H; subst. split; [ assumption | apply IH; assumption ].
Qed.

Lemma for_each_fixed : forall A (body : A -> outcome A) xs,
  (forall x, In x xs -> raised (body x) = None /\ post (body x) = x) ->
  raised (for_each body xs) = None /\ post (for_each body xs) = xs.
Proof.
  intros A body xs. induction xs as [ | x xs IH ]; intros H; simpl.
  - split; reflexivity.
  - destruct (H x (or_introl eq_refl)) as [Hr Hp]. rewrite Hr. simpl.
    destruct IH as [IHr IHp]; [ intros y Hy; apply H; right; exact Hy | ].
    rewrite Hp, IHp. split; [ exact IHr | reflexivity ].
Qed.

Lemma reload_children : forall cs,
  Forall reloads cs -> NoDup (map option_identifier cs) ->
  let r := for_each (dispatch_child from_json (create_options_dict cs)) cs in
  raised r = None /\ post r = cs /\ forallb quiet_event (trace r) = true.
Proof.
  intros cs Hall Hnd. cbv zeta.
  assert (Hbody : forall o, In o cs ->
            raised (dispatch_child from_json (create_options_dict cs) o) = None /\
            post (dispatch_child from_json (create_options_dict cs) o) = o /\
            forallb quiet_event
              (trace (dispatch_child from_json (create_options_dict cs) o)) = true).
  { intros o Ho. unfold dispatch_child.
    rewrite create_options_dict_get, (last_json_unique cs o Hnd Ho).
    destruct (to_json o) as [j | ] eqn:Hj; [ | repeat split; reflexivity ].
    rewrite Forall_forall in Hall. apply (Hall o Ho j Hj). }
  destruct (for_each_fixed _ (dispatch_child from_json (create_options_dict cs)) cs)
    as [Hr Hp].
  { intros o Ho. destruct (Hbody o Ho) as (H1 & H2 & _). split; assumption. }
  split; [ exact Hr | ]. split; [ exact Hp | ].
  apply for_each_trace. intros o Ho. apply (Hbody o Ho).
Qed.

Lemma reloads_leaf : forall (f : ValueData -> BaseOption) (r : outcome ValueData) d,
  raised r = None /\ post r = with_value d (value d) /\
  forallb quiet_event (trace r) = true ->
  raised r = None /\ f (post r) = f d /\ forallb quiet_event (trace r) = true.
Proof.
  intros f r d (H1 & H2 & H3). rewrite H2, with_value_same. repeat split; assumption.
Qed.

Lemma restorable_reloads : forall o, restorable o -> reloads o.
Proof.
  induction o as [ d | d lo hi st int | d cs w | d t f | d cs | b | d r
                 | b cs IH | b cs IH ] using BaseOption_tree_ind;
    intros Hres j Hj; simpl in Hres, Hj.
  - injection Hj as <-. unfold lift; simpl. unfold HiddenOption_from_json, ValueOption_to_json.
    apply (reloads_leaf HiddenOption). apply set_value_quiet. exact Hres.
  - injection Hj as <-. destruct Hres as [Hq Hs]. unfold lift; simpl.
    unfold ValueOption_to_json. apply (reloads_leaf (fun d' => SliderOption d' lo hi st int)).
    unfold slider_settled in Hs.
    destruct (value d) as [ | | z | f | | | ] eqn:Hv; try contradiction.
    + destruct Hs as (-> & f & Hf & Hc).
      assert (Hpf : py_float (JInt z) = Ok f) by (simpl; now rewrite Hf).
      destruct (SliderOption_from_json_converted d true (JInt z) f Hq Hpf)
        as (_ & Hyes & _).
      exact (Hyes eq_refl z (round_of_exact z f Hc)).
    + subst int.
      destruct (SliderOption_from_json_converted d false (JFloat f) f Hq eq_refl)
        as (Hno & _).
      exact (Hno eq_refl).
  - injection Hj as <-. destruct Hres as (Hq & s & Hv & Hin). unfold lift; simpl.
    unfold SpinnerOption_from_json, ValueOption_to_json.
    apply (reloads_leaf (fun d' => SpinnerOption d' cs w)).
    rewrite Hv. rewrite choice_from_json_match by exact Hin.
    simpl. apply set_value_quiet. exact Hq.
  - injection Hj as <-. destruct Hres as (Hq & b & Hv). unfold lift; simpl.
    unfold BoolOption_from_json, ValueOption_to_json.
    apply (reloads_leaf (fun d' => BoolOption d' t f)).
    rewrite Hv. simpl. apply set_value_quiet. exact Hq.
  - injection Hj as <-. destruct Hres as (Hq & s & Hv & Hin). unfold lift; simpl.
    unfold DropdownOption_from_json, ValueOption_to_json.
    apply (reloads_leaf (fun d' => DropdownOption d' cs)).
    rewrite Hv. rewrite choice_from_json_match by exact Hin.
    simpl. apply set_value_quiet. exact Hq.
  - discriminate.
  - injection Hj as <-. destruct Hres as (Hq & Hv). unfold lift; simpl.
    unfold KeybindOption_from_json, ValueOption_to_json.
    apply (reloads_leaf (fun d' => KeybindOption d' r)).
    destruct Hv as [Hv | (s & Hv)]; rewrite Hv; simpl; apply set_value_quiet;
      exact Hq.
  - injection Hj as <-. destruct Hres as [Hall Hnd].
    apply restorable_children in Hall.
    assert (Hre : Forall reloads cs).
    { apply Forall_forall. intros c Hc. rewrite Forall_forall in IH, Hall.
      apply IH; [ exact Hc | apply Hall; exact Hc ]. }
    destruct (reload_children cs Hre Hnd) as (H1 & H2 & H3).
    change (collect to_json cs) with (create_options_dict cs).
    simpl. rewrite H2. repeat split; assumption.
  - injection Hj as <-. destruct Hres as [Hall Hnd].
    apply restorable_children in Hall.
    assert (Hre : Forall reloads cs).
    { apply Forall_forall. intros c Hc. rewrite Forall_forall in IH, Hall.
      apply IH; [ exact Hc | apply Hall; exact Hc ]. }
    destruct (reload_children cs Hre Hnd) as (H1 & H2 & H3).
    change (collect to_json cs) with (create_options_dict cs).
    simpl. rewrite H2. repeat split; assumption.
Qed.

Lemma save_document_get : forall m,
  let doc := save_document m in
  dict_get doc "options" =
    match create_options_dict (options m) with
    | [] => None
    | od => Some (JDict od)
    end /\
  dict_get doc "keybinds" =
    match keybind_settings (keybinds m) with
    | [] => None
    | ks => Some (JDict ks)
    end /\
  dict_get doc "enabled" =
    (if auto_enable m then Some (JBool (is_enabled m)) else None).
Proof.
  intros m. cbv zeta. rewrite save_document_sections.
  destruct (create_options_dict (options m)) as [ | x od ];
    destruct (keybind_settings (keybinds m)) as [ | y ks ];
    destruct (auto_enable m); repeat split; reflexivity.
Qed.

Lemma keybind_fold_other : forall ks acc k,
  ~ In k (map kb_identifier ks) ->
  dict_get (fold_left (fun acc kb =>
                         if negb (kb_is_rebindable kb) then acc
                         else dict_set acc (kb_identifier kb) (key_json (key kb)))
                      ks acc) k = dict_get acc k.
Proof.
  induction ks as [ | kb ks IH ]; intros acc k H; simpl.
  - reflexivity.
  - rewrite IH by (intros Hin; apply H; right; exact Hin).
    destruct (kb_is_rebindable kb); simpl; [ | reflexivity ].
    rewrite dict_get_set. destruct (String.eqb k (kb_identifier kb)) eqn:E;
      [ | reflexivity ].
    exfalso. apply H. left. apply String.eqb_eq in E. symmetry. exact E.
Qed.

Lemma keybind_fold_unique : forall ks acc kb,
  NoDup (map kb_identifier ks) -> In kb ks ->
  dict_get (fold_left (fun acc kb =>
                         if negb (kb_is_rebindable kb) then acc
                         else dict_set acc (kb_identifier kb) (key_json (key kb)))
                      ks acc) (kb_identifier kb) =
  if kb_is_rebindable kb then Some (key_json (key kb))
  else dict_get acc (kb_identifier kb).
Proof.
  induction ks as [ | x ks IH ]; intros acc kb Hnd Hin; [ contradiction | ].
  simpl in Hnd. inversion Hnd as [ | ? ? Hx Hnd' ]; subst. simpl.
  destruct Hin as [-> | Hin].
  - rewrite keybind_fold_other by exact Hx.
    destruct (kb_is_rebindable kb); simpl; [ | reflexivity ].
    rewrite dict_get_set, String.eqb_refl. reflexivity.
  - rewrite IH by assumption.
    destruct (kb_is_rebindable kb); [ reflexivity | ].
    destruct (kb_is_rebindable x); simpl; [ | reflexivity ].
    rewrite dict_get_set.
    destruct (String.eqb (kb_identifier kb) (kb_identifier x)) eqn:E; [ | reflexivity ].
    exfalso. apply Hx. apply String.eqb_eq in E. rewrite <- E.
    apply in_map. exact Hin.
Qed.

Lemma keybind_settings_unique : forall ks kb,
  NoDup (map kb_identifier ks) -> In kb ks ->
  dict_get (keybind_settings ks) (kb_identifier kb) =
  if kb_is_rebindable kb then Some (key_json (key kb)) else None.
Proof.
  intros ks kb Hnd Hin. unfold keybind_settings.
  rewrite keybind_fold_unique by assumption. reflexivity.
Qed.

Lemma quiet_event_calm : forall t,
  forallb quiet_event t = true -> forallb calm t = true.
Proof.
  intros t. apply forallb_weaken. intros e. unfold quiet_event, calm.
  destruct e; simpl; intros H; first [ reflexivity | discriminate H ].
Qed.

Lemma reload_keybind : forall ks kb,
  NoDup (map kb_identifier ks) -> In kb ks ->
  let r := load_keybind (JDict (keybind_settings ks)) kb in
  raised r = None /\ post r = kb /\ forallb calm (trace r) = true.
Proof.
  intros ks kb Hnd Hin. cbv zeta. unfold load_keybind. simpl. unfold dict_mem.
  rewrite (keybind_settings_unique ks kb Hnd Hin).
  destruct kb as [id k reb]. simpl.
  destruct reb; [ | repeat split; reflexivity ].
  destruct k as [s | ]; simpl; repeat split; reflexivity.
Qed.

Lemma load_options_after_save : forall m,
  Forall restorable (options m) -> NoDup (map option_identifier (options m)) ->
  let r := load_options_section (JDict (save_document m)) m in
  raised r = None /\ post r = m /\ forallb calm (trace r) = true.
Proof.
  intros m Hres Hnd. cbv zeta. unfold load_options_section. simpl. unfold dict_mem.
  destruct (save_document_get m) as (Ho & _). rewrite Ho.
  destruct (create_options_dict (options m)) as [ | x od ] eqn:Hod;
    [ repeat split; reflexivity | ].
  rewrite <- Hod. unfold load_options_dict, Ok. cbv iota beta.
  rewrite (for_each_ext _ (load_option (JDict (create_options_dict (options m))))
             (dispatch_child from_json (create_options_dict (options m))) (options m))
    by (intros o; apply load_option_dict).
  assert (Hre : Forall reloads (options m)).
  { apply Forall_forall. intros o Ho'. rewrite Forall_forall in Hres.
    apply restorable_reloads. apply Hres. exact Ho'. }
  destruct (reload_children (options m) Hre Hnd) as (H1 & H2 & H3).
  unfold lift. simpl. rewrite H2. split; [ exact H1 | ].
  split; [ destruct m; reflexivity | apply quiet_event_calm; exact H3 ].
Qed.

Lemma load_keybinds_after_save : forall m,
  NoDup (map kb_identifier (keybinds m)) ->
  let r := load_keybinds_section (JDict (save_document m)) m in
  raised r = None /\ post r = m /\ forallb calm (trace r) = true.
Proof.
  intros m Hnd. cbv zeta. unfold load_keybinds_section. simpl. unfold dict_mem.
  destruct (save_document_get m) as (_ & Hk & _). rewrite Hk.
  destruct (keybind_settings (keybinds m)) as [ | x ksd ] eqn:Hks;
    [ repeat split; reflexivity | ].
  rewrite <- Hks.
  destruct (for_each_fixed _ (load_keybind (JDict (keybind_settings (keybinds m))))
              (keybinds m)) as [H1 H2].
  { intros kb Hin. destruct (reload_keybind (keybinds m) kb Hnd Hin) as (A & B & _).
    split; assumption. }
  unfold lift. simpl. rewrite H2. split; [ exact H1 | ].
  split; [ destruct m; reflexivity | ].
  apply for_each_trace. intros kb Hin.
  apply (reload_keybind (keybinds m) kb Hnd Hin).
Qed.

Lemma load_enabled_after_save : forall m,
  load_enabled (JDict (save_document m)) m =
  if auto_enable m && is_enabled m then emit EvEnable m else ret m.
Proof.
  intros m. unfold load_enabled. simpl.
  destruct (save_document_get m) as (_ & _ & He). rewrite He.
  destruct m as [sf os ks auto en]. simpl.
  destruct auto; [ | reflexivity ]. simpl. destruct en; reflexivity.
Qed.

(** X3 ([default_save_mod_settings], then [default_load_mod_settings]):
    for a mod whose options hold values their classes read back as
    themselves, whose callbacks always return and whose sibling
    identifiers and keybind identifiers are distinct, loading what was
    just saved returns, logs no error and leaves every option and every
    keybind as it is, and it calls the enable operation exactly when
    the mod has a settings file, auto-enables and is enabled. *)
Theorem save_then_load_restores :
  forall m fs,
    restorable_mod m ->
    let r := default_load_mod_settings m (default_save_mod_settings m fs) in
    raised r = None /\ post r = m /\
    forallb (fun e => negb (is_log_error e)) (trace r) = true /\
    (In EvEnable (trace r) <->
     settings_file m <> None /\ auto_enable m = true /\ is_enabled m = true).
Proof.
  intros m fs (Hres & Hnd & Hkd). cbv zeta.
  unfold default_load_mod_settings, default_save_mod_settings.
  destruct (settings_file m) as [p | ] eqn:Hp.
  2: { simpl. repeat split; try reflexivity; try contradiction.
       intros (H & _). congruence. }
  destruct (save_document_keys m) as (_ & _ & _ & Hnil & _).
  destruct (List.length (save_document m) =? 0)%nat eqn:Hlen.
  - rewrite fs_update_same. simpl.
    repeat split; try reflexivity; try contradiction.
    intros (_ & Ha & _). apply Nat.eqb_eq in Hlen.
    apply length_zero_iff_nil in Hlen. apply Hnil in Hlen.
    destruct Hlen as (_ & _ & Hf). congruence.
  - rewrite fs_update_same.
    destruct (load_options_after_save m Hres Hnd) as (O1 & O2 & O3).
    destruct (load_keybinds_after_save m Hkd) as (K1 & K2 & K3).
    rewrite (seq_returned _ _ _ O1), O2.
    set (r1 := mkOutcome (post (load_keybinds_section (JDict (save_document m)) m))
                 (trace (load_options_section (JDict (save_document m)) m)
                  ++ trace (load_keybinds_section (JDict (save_document m)) m))
                 (raised (load_keybinds_section (JDict (save_document m)) m))).
    assert (R1 : raised r1 = None) by exact K1.
    rewrite (seq_returned _ _ _ R1). unfold r1. simpl. rewrite K2.
    rewrite load_enabled_after_save.
    assert (Hcalm : forallb calm
              (trace (load_options_section (JDict (save_document m)) m)
               ++ trace (load_keybinds_section (JDict (save_document m)) m)) = true).
    { rewrite forallb_app, O3, K3. reflexivity. }
    assert (Hnolog : forallb (fun e => negb (is_log_error e))
              (trace (load_options_section (JDict (save_document m)) m)
               ++ trace (load_keybinds_section (JDict (save_document m)) m)) = true).
    { revert Hcalm. apply forallb_weaken. intros e. unfold calm.
      intros H. apply andb_prop in H. apply H. }
    assert (Hnoen : ~ In EvEnable
              (trace (load_options_section (JDict (save_document m)) m)
               ++ trace (load_keybinds_section (JDict (save_document m)) m))).
    { intros Hin. rewrite forallb_forall in Hcalm. apply Hcalm in Hin. discriminate Hin. }
    destruct (auto_enable m); destruct (is_enabled m); simpl;
      (split; [ reflexivity | ]); (split; [ reflexivity | ]).
    + split.
      * rewrite forallb_app, Hnolog. reflexivity.
      * split; [ intros _; repeat split; congruence | ].
        intros _. apply in_or_app. right. left. reflexivity.
    + rewrite app_nil_r. split; [ exact Hnolog | ].
      split; [ intros H; contradiction | intros (_ & _ & H); discriminate H ].
    + rewrite app_nil_r. split; [ exact Hnolog | ].
      split; [ intros H; contradiction | intros (_ & H & _); discriminate H ].
    + rewrite app_nil_r. split; [ exact Hnolog | ].
      split; [ intros H; contradiction | intros (_ & H & _); discriminate H ].
Qed.


(** X4 ([GroupedOption._to_json], [NestedOption._to_json],
    [default_save_mod_settings]): a group always serializes to a
    dictionary, an empty one when it has no child or only buttons.  So a
    mod with a group among its options always writes its settings file,
    with an options section that has the group's identifier as a key. *)
Theorem group_always_saved :
  forall m b cs p fs,
    settings_file m = Some p ->
    In (GroupedOption b cs) (options m) \/ In (NestedOption b cs) (options m) ->
    exists doc od,
      default_save_mod_settings m fs p = Document (JDict doc) /\
      dict_get doc "options" = Some (JDict od) /\
      dict_mem od (identifier b) = true /\
      ((forall c, In c cs -> to_json c = None) ->
       to_json (GroupedOption b cs) = Some (JDict []) /\
       to_json (NestedOption b cs) = Some (JDict [])).
Proof.
  intros m b cs p fs Hp Hin.
  assert (Hk : dict_mem (create_options_dict (options m)) (identifier b) = true).
  { apply create_options_dict_mem. destruct Hin as [Hin | Hin];
      [ exists (GroupedOption b cs) | exists (NestedOption b cs) ];
      (split; [ exact Hin | split; [ reflexivity | discriminate ] ]). }
  destruct (save_document_get m) as (Ho & _).
  destruct (save_document_keys m) as (_ & _ & _ & Hnil & _).
  exists (save_document m), (create_options_dict (options m)).
  assert (Hod : create_options_dict (options m) <> []).
  { intros E. rewrite E in Hk. discriminate Hk. }
  split; [ | split; [ | split; [ exact Hk | ] ] ].
  - unfold default_save_mod_settings. rewrite Hp.
    destruct (List.length (save_document m) =? 0)%nat eqn:Hlen.
    + apply Nat.eqb_eq in Hlen. apply length_zero_iff_nil in Hlen.
      apply Hnil in Hlen. destruct Hlen as (E & _). contradiction.
    + apply fs_update_same.
  - rewrite Ho. destruct (create_options_dict (options m)); [ contradiction | reflexivity ].
  - intros Hnone. apply create_options_dict_nil in Hnone.
    unfold create_options_dict in Hnone. simpl. rewrite Hnone. split; reflexivity.
Qed.

(** ** The keybinds section *)

Lemma for_each_returned : forall A (body : A -> outcome A) xs,
  (forall x, In x xs -> raised (body x) = None) ->
  raised (for_each body xs) = None /\
  post (for_each body xs) = map (fun x => post (body x)) xs /\
  trace (for_each body xs) = flat_map (fun x => trace (body x)) xs.
Proof.
  intros A body xs. induction xs as [ | x xs IH ]; intros H; simpl.
  - repeat split; reflexivity.
  - rewrite (H x (or_introl eq_refl)). simpl.
    destruct IH as (I1 & I2 & I3); [ intros y Hy; apply H; right; exact Hy | ].
    rewrite I1, I2, I3. repeat split; reflexivity.
Qed.



(** ** Booleans *)

Lemma string_app_assoc : forall a b c : string,
  (a ++ (b ++ c))%string = ((a ++ b) ++ c)%string.
Proof. induction a as [ | x a IH ]; intros b c; simpl; [ | rewrite IH ]; reflexivity. Qed.

Lemma rev_string_app : forall s acc, rev_string s acc = (rev_string s "" ++ acc)%string.
Proof.
  induction s as [ | c s IH ]; intros acc; simpl.
  - reflexivity.
  - rewrite IH, (IH (String c "")). rewrite <- string_app_assoc. reflexivity.
Qed.

Lemma string_app_nil_r : forall s : string, (s ++ "")%string = s.
Proof. induction s as [ | c s IH ]; simpl; [ | rewrite IH ]; reflexivity. Qed.

Lemma rev_string_append : forall a b,
  rev_string (a ++ b)%string "" = (rev_string b "" ++ rev_string a "")%string.
Proof.
  induction a as [ | c a IH ]; intros b; simpl.
  - symmetry. apply string_app_nil_r.
  - rewrite rev_string_app, IH, (rev_string_app a (String c "")).
    rewrite string_app_assoc. reflexivity.
Qed.

Lemma rev_string_involutive : forall s, rev_string (rev_string s "") "" = s.
Proof.
  induction s as [ | c s IH ]; simpl; [ reflexivity | ].
  rewrite (rev_string_app s (String c "")), rev_string_append, IH. reflexivity.
Qed.

Lemma all_space_append : forall a b,
  all_space (a ++ b)%string = all_space a && all_space b.
Proof.
  induction a as [ | c a IH ]; intros b; simpl; [ reflexivity | ].
  rewrite IH, andb_assoc. reflexivity.
Qed.

Lemma all_space_rev : forall s, all_space (rev_string s "") = all_space s.
Proof.
  induction s as [ | c s IH ]; simpl; [ reflexivity | ].
  rewrite (rev_string_app s (String c "")), all_space_append, IH. simpl.
  rewrite andb_true_r. apply andb_comm.
Qed.

Lemma lstrip_spaces : forall pre s,
  all_space pre = true -> lstrip (pre ++ s)%string = lstrip s.
Proof.
  induction pre as [ | c pre IH ]; intros s H; simpl in *; [ reflexivity | ].
  apply andb_prop in H. destruct H as [Hc Hp]. rewrite Hc. apply IH. exact Hp.
Qed.

(** [ascii_strip] removes the whitespace around a string that neither
    starts nor ends with whitespace. *)
Lemma strip_padded : forall pre c s post,
  all_space pre = true -> all_space post = true ->
  is_space c = false ->
  (forall c' s', rev_string (String c s) "" = String c' s' -> is_space c' = false) ->
  ascii_strip (pre ++ String c s ++ post)%string = String c s.
Proof.
  intros pre c s post Hpre Hpost Hc Hlast. unfold ascii_strip.
  rewrite lstrip_spaces by exact Hpre.
  change (lstrip (String c s ++ post)%string)
    with (if is_space c then lstrip (s ++ post)%string else (String c s ++ post)%string).
  rewrite Hc, rev_string_append.
  rewrite lstrip_spaces by (rewrite all_space_rev; exact Hpost).
  destruct (rev_string (String c s) "") as [ | c' s' ] eqn:Hr.
  - apply (f_equal (fun x => rev_string x "")) in Hr.
    rewrite rev_string_involutive in Hr. discriminate Hr.
  - simpl. rewrite (Hlast c' s' eq_refl). rewrite <- Hr. apply rev_string_involutive.
Qed.

Lemma lower_not_space : forall c,
  is_space c = true -> lower_ascii c = c.
Proof.
  intros [[] [] [] [] [] [] [] []]; intros H; try reflexivity; discriminate H.
Qed.

(** A spelling of [false] in any mix of cases neither starts nor ends
    with whitespace. *)
Lemma false_spelling : forall s,
  lower s = "false" ->
  exists c s', s = String c s' /\ is_space c = false /\
    forall c' s'', rev_string (String c s') "" = String c' s'' -> is_space c' = false.
Proof.
  intros s H.
  destruct s as [ | c1 [ | c2 [ | c3 [ | c4 [ | c5 [ | c6 s ] ] ] ] ] ];
    simpl in H; try discriminate H.
  injection H as H1 H2 H3 H4 H5.
  exists c1, (String c2 (String c3 (String c4 (String c5 "")))).
  split; [ reflexivity | ]. split.
  - destruct (is_space c1) eqn:E; [ | reflexivity ].
    rewrite (lower_not_space c1 E) in H1. subst c1. discriminate E.
  - intros c' s'' Hr. simpl in Hr. injection Hr as <- _.
    destruct (is_space c5) eqn:E; [ | reflexivity ].
    rewrite (lower_not_space c5 E) in H5. subst c5. discriminate E.
Qed.

Lemma all_ascii_append : forall a b,
  all_ascii (a ++ b)%string = all_ascii a && all_ascii b.
Proof.
  induction a as [ | c a IH ]; intros b; simpl; [ reflexivity | ].
  rewrite IH, andb_assoc. reflexivity.
Qed.

Lemma space_is_ascii : forall c, is_space c = true -> is_ascii c = true.
Proof.
  intros [[] [] [] [] [] [] [] []]; intros H; try reflexivity; discriminate H.
Qed.

Lemma all_space_ascii : forall s, all_space s = true -> all_ascii s = true.
Proof.
  induction s as [ | c s IH ]; simpl; intros H; [ reflexivity | ].
  apply andb_prop in H. destruct H as [Hc Hs].
  rewrite (space_is_ascii c Hc), (IH Hs). reflexivity.
Qed.

Lemma lower_ascii_is_ascii : forall c,
  is_ascii (lower_ascii c) = true -> is_ascii c = true.
Proof.
  intros [[] [] [] [] [] [] [] []]; intros H; try reflexivity; discriminate H.
Qed.

(** Only an ASCII string reads as an ASCII string in lower case. *)
Lemma lower_all_ascii : forall s,
  all_ascii (lower s) = true -> all_ascii s = true.
Proof.
  induction s as [ | c s IH ]; simpl; intros H; [ reflexivity | ].
  apply andb_prop in H. destruct H as [Hc Hs].
  rewrite (lower_ascii_is_ascii c Hc), (IH Hs). reflexivity.
Qed.

Lemma lower_idempotent_false : forall pre s post,
  all_space pre = true -> all_space post = true -> lower s = "false" ->
  lower (strip (pre ++ s ++ post)%string) = "false".
Proof.
  intros pre s post Hpre Hpost Hs. unfold strip.
  assert (Ha : all_ascii (pre ++ s ++ post)%string = true).
  { rewrite !all_ascii_append, (all_space_ascii pre Hpre), (all_space_ascii post Hpost).
    rewrite (lower_all_ascii s); [ reflexivity | rewrite Hs; reflexivity ]. }
  rewrite Ha.
  destruct (false_spelling s Hs) as (c & s' & -> & Hc & Hlast).
  rewrite strip_padded by assumption. exact Hs.
Qed.

Lemma BoolOption_from_json_stored : forall d v,
  quiet d ->
  let r := BoolOption_from_json d v in
  raised r = None /\
  forallb (fun e => negb (is_log_error e)) (trace r) = true /\
  post r = with_value d
             (JBool match v with
                    | JStr s => negb (String.eqb s ""
                                      || String.eqb (lower (strip s)) "false")
                    | _ => py_bool v
                    end).
Proof.
  intros d v Hq. cbv zeta. unfold BoolOption_from_json. cbv zeta.
  match goal with
  | |- raised (set_value d ?x) = None /\ _ =>
      destruct (set_value_quiet d x Hq) as (H1 & H2 & H3)
  end.
  rewrite H2. split; [ exact H1 | ]. split.
  - revert H3. apply forallb_weaken. intros e. unfold quiet_event.
    intros H. apply andb_prop in H. apply H.
  - destruct v as [ | b | z | x | s | l | m ]; try reflexivity.
    destruct (String.eqb (lower (strip s)) "false"); simpl;
      [ rewrite orb_true_r | rewrite orb_false_r ]; reflexivity.
Qed.

(** X6 ([BoolOption._from_json]): a boolean option accepts every JSON
    value: the load returns, logs nothing and stores a boolean.  A
    string gives false when it is empty or when what [str.strip]
    leaves of it reads [false] in lower case, and true otherwise,
    ["0"] and ["no"] included; on a string with characters outside
    ASCII, what [str.strip] leaves is the parameter [unicode_strip].
    So every spelling of [false] in any mix of cases, with any number
    of ASCII whitespace characters (9 to 13 and 28 to 32) before and
    after it, gives false.  Any other value gives its truthiness. *)
Theorem bool_from_json_coerces :
  forall d t f,
    quiet d ->
    (forall v,
       let r := from_json (BoolOption d t f) v in
       raised r = None /\
       forallb (fun e => negb (is_log_error e)) (trace r) = true /\
       post r = BoolOption (with_value d
                  (JBool match v with
                         | JStr s => negb (String.eqb s ""
                                           || String.eqb (lower (strip s)) "false")
                         | _ => py_bool v
                         end)) t f) /\
    (forall pre s suf,
       all_space pre = true -> all_space suf = true -> lower s = "false" ->
       option_value (post (from_json (BoolOption d t f)
                                     (JStr (pre ++ s ++ suf)%string)))
       = Some (JBool false)).
Proof.
  intros d t f Hq. split.
  - intros v. cbv zeta. simpl.
    destruct (BoolOption_from_json_stored d v Hq) as (H1 & H2 & H3).
    rewrite H3. repeat split; assumption.
  - intros pre s suf Hpre Hsuf Hs. simpl.
    destruct (BoolOption_from_json_stored d (JStr (pre ++ s ++ suf)%string) Hq)
      as (_ & _ & ->).
    simpl. rewrite (lower_idempotent_false pre s suf Hpre Hsuf Hs).
    simpl. rewrite orb_true_r. reflexivity.
Qed.


(** X7 ([_from_json] of the hidden, spinner, boolean, dropdown and
    keybind options): whatever the document holds, loading it into an
    option of one of these classes that is in its domain returns and
    leaves the option in its domain: a hidden option holds the value
    it was given, a boolean option a boolean, a keybind option [None]
    or a string, a spinner or dropdown one of its choices. *)
Theorem load_keeps_domain :
  forall o v,
    in_domain o -> quiet_option o ->
    match o with
    | SliderOption _ _ _ _ _ => True
    | _ =>
        raised (from_json o v) = None /\
        in_domain (post (from_json o v)) /\
        quiet_option (post (from_json o v)) /\
        match o with
        | HiddenOption _ => to_json (post (from_json o v)) = Some v
        | _ => True
        end
    end.
Proof.
  intros o v Hdom Hq.
  destruct o as [ d | d lo hi st int | d cs w | d t f | d cs | b | d r | b cs | b cs ];
    try exact I; try contradiction; unfold quiet_option in Hq; simpl in Hq, Hdom.
  - simpl. unfold HiddenOption_from_json.
    destruct (set_value_quiet d v Hq) as (H1 & H2 & _). rewrite H2.
    repeat split; try exact H1. apply quiet_with_value. exact Hq.
  - simpl. unfold SpinnerOption_from_json, choice_from_json. cbv zeta.
    destruct (in_choices (py_str v) cs) eqn:Hc.
    + destruct (set_value_quiet d (JStr (py_str v)) Hq) as (H1 & H2 & _).
      rewrite H2. split; [ exact H1 | ]. split; [ | split; [ | exact I ] ].
      * exists (py_str v). split; [ reflexivity | apply in_choices_In; exact Hc ].
      * apply quiet_with_value. exact Hq.
    + simpl. repeat split; assumption.
  - simpl. destruct (BoolOption_from_json_stored d v Hq) as (H1 & _ & H3). rewrite H3.
    split; [ exact H1 | ]. split; [ eexists; reflexivity | ].
    split; [ apply quiet_with_value; exact Hq | exact I ].
  - simpl. unfold DropdownOption_from_json, choice_from_json. cbv zeta.
    destruct (in_choices (py_str v) cs) eqn:Hc.
    + destruct (set_value_quiet d (JStr (py_str v)) Hq) as (H1 & H2 & _).
      rewrite H2. split; [ exact H1 | ]. split; [ | split; [ | exact I ] ].
      * exists (py_str v). split; [ reflexivity | apply in_choices_In; exact Hc ].
      * apply quiet_with_value. exact Hq.
    + simpl. repeat split; assumption.
  - simpl. unfold KeybindOption_from_json.
    destruct v; simpl;
      match goal with
      | |- raised (set_value d ?x) = None /\ _ =>
          destruct (set_value_quiet d x Hq) as (H1 & H2 & _)
      end; rewrite H2; (split; [ exact H1 | ]);
      (split; [ | split; [ apply quiet_with_value; exact Hq | exact I ] ]);
      first [ left; reflexivity | right; eexists; reflexivity ].
Qed.

(** ** Documents of another shape *)

Lemma load_option_not_mapping : forall v o,
  not_mapping v = true ->
  load_option v o =
  if found_or_fails (option_identifier o) v then throw TypeError o else ret o.
Proof.
  intros v o Hv. unfold load_option, found_or_fails.
  destruct v; try discriminate Hv; simpl; try reflexivity.
  - destruct (is_substring (option_identifier o) s); reflexivity.
  - destruct (existsb _ l); reflexivity.
Qed.

Lemma for_each_guard : forall A (hit : A -> bool) (body : A -> outcome A) e xs,
  (forall x, body x = if hit x then throw e x else ret x) ->
  for_each body xs =
  mkOutcome xs [] (if existsb hit xs then Some e else None).
Proof.
  intros A hit body e xs H. induction xs as [ | x xs IH ]; simpl.
  - reflexivity.
  - rewrite H. destruct (hit x); simpl; [ reflexivity | ].
    rewrite IH. reflexivity.
Qed.

(** X8 ([load_options_dict], [GroupedOption._from_json],
    [NestedOption._from_json], [default_load_mod_settings]): an options
    section that is not a mapping changes no option and logs nothing,
    and it makes [load_options_dict] raise a [TypeError] as soon as the
    test [identifier in settings] does not come out false: at the first
    option for a null, a boolean or a number, at the first option whose
    identifier is an element of the list or a substring of the string
    otherwise.  A group given such a value logs an error instead and
    returns.  A settings file whose document is a null, a boolean or a
    number makes the whole load raise a [TypeError] with the mod
    untouched. *)
Theorem options_section_not_mapping :
  forall v,
    not_mapping v = true ->
    (forall os,
       load_options_dict os v =
       mkOutcome os []
         (if existsb (fun o => found_or_fails (option_identifier o) v) os
          then Some TypeError else None)) /\
    (forall b cs,
       from_json (GroupedOption b cs) v
       = emit (EvLogError (invalid_message (py_str v) (identifier b)))
              (GroupedOption b cs) /\
       from_json (NestedOption b cs) v
       = emit (EvLogError (invalid_message (py_str v) (identifier b)))
              (NestedOption b cs)) /\
    (forall m fs,
       persisted m fs = Some v ->
       match v with
       | JList _ | JStr _ => True
       | _ => default_load_mod_settings m fs = throw TypeError m
       end).
Proof.
  intros v Hv. split; [ | split ].
  - intros os. unfold load_options_dict.
    apply (for_each_guard _ (fun o => found_or_fails (option_identifier o) v)).
    intros o. apply load_option_not_mapping. exact Hv.
  - intros b cs. destruct v; try discriminate Hv; split; reflexivity.
  - intros m fs Hper. unfold persisted in Hper. unfold default_load_mod_settings.
    destruct (settings_file m) as [p | ]; [ | discriminate Hper ].
    destruct (fs p) as [ | | e | j ]; try discriminate Hper.
    injection Hper as ->.
    destruct v; try discriminate Hv; try exact I; reflexivity.
Qed.

Lemma load_sections_of_dict : forall d m,
  load_options_section (JDict d) m =
    match dict_get d "options" with
    | None => ret m
    | Some section => lift (with_options m) (load_options_dict (options m) section)
    end /\
  load_keybinds_section (JDict d) m =
    match dict_get d "keybinds" with
    | None => ret m
    | Some saved => lift (with_keybinds m) (for_each (load_keybind saved) (keybinds m))
    end /\
  load_enabled (JDict d) m =
    if auto_enable m
    then if py_bool (match dict_get d "enabled" with
                     | Some v => v
                     | None => JBool false
                     end)
         then Mod_enable m else ret m
    else ret m.
Proof.
  intros d m. unfold load_options_section, load_keybinds_section, load_enabled.
  simpl. unfold dict_mem.
  split; [ | split ].
  - destruct (dict_get d "options"); reflexivity.
  - destruct (dict_get d "keybinds"); reflexivity.
  - reflexivity.
Qed.

(** X9 ([default_load_mod_settings]): of a document that is an object
    the load reads the keys [options], [keybinds] and [enabled] and
    nothing else: two documents that agree on these three give the same
    run.  Without a settings file, with a file that is missing
    ([FileNotFoundError]) or whose text is not JSON
    ([json.JSONDecodeError]), and with a document that has none of the
    three keys, the load does nothing at all.  Any other exception of
    [open] or [json.load] is not caught: it escapes from the load,
    with the mod untouched and nothing logged. *)
Theorem load_reads_three_keys :
  (forall m fs fs' d d',
     persisted m fs = Some (JDict d) -> persisted m fs' = Some (JDict d') ->
     dict_get d "options" = dict_get d' "options" ->
     dict_get d "keybinds" = dict_get d' "keybinds" ->
     dict_get d "enabled" = dict_get d' "enabled" ->
     default_load_mod_settings m fs = default_load_mod_settings m fs') /\
  (forall m fs,
     settings_file m = None -> default_load_mod_settings m fs = ret m) /\
  (forall m fs p,
     settings_file m = Some p -> fs p = Missing \/ fs p = Malformed ->
     default_load_mod_settings m fs = ret m) /\
  (forall m fs p e,
     settings_file m = Some p -> fs p = Unreadable e ->
     default_load_mod_settings m fs = throw e m) /\
  (forall m fs d,
     persisted m fs = Some (JDict d) ->
     dict_mem d "options" = false -> dict_mem d "keybinds" = false ->
     dict_mem d "enabled" = false ->
     default_load_mod_settings m fs = ret m).
Proof.
  assert (Hdoc : forall m fs j, persisted m fs = Some j ->
            default_load_mod_settings m fs =
            seq (seq (load_options_section j m) (load_keybinds_section j))
                (load_enabled j)).
  { intros m fs j H. unfold persisted in H. unfold default_load_mod_settings.
    destruct (settings_file m) as [p | ]; [ | discriminate H ].
    destruct (fs p); try discriminate H. injection H as ->. reflexivity. }
  split; [ | split; [ | split; [ | split ] ] ].
  - intros m fs fs' d d' H H' Eo Ek Ee.
    rewrite (Hdoc m fs _ H), (Hdoc m fs' _ H').
    destruct (load_sections_of_dict d m) as (A1 & _).
    destruct (load_sections_of_dict d' m) as (B1 & _).
    rewrite A1, B1, Eo.
    assert (Hk : load_keybinds_section (JDict d) = load_keybinds_section (JDict d')).
    { unfold load_keybinds_section. simpl. unfold dict_mem. rewrite Ek. reflexivity. }
    assert (He : load_enabled (JDict d) = load_enabled (JDict d')).
    { unfold load_enabled. simpl. rewrite Ee. reflexivity. }
    rewrite Hk, He. reflexivity.
  - intros m fs H. unfold default_load_mod_settings. rewrite H. reflexivity.
  - intros m fs p H [Hp | Hp]; unfold default_load_mod_settings;
      rewrite H, Hp; reflexivity.
  - intros m fs p e H Hp. unfold default_load_mod_settings.
    rewrite H, Hp. reflexivity.
  - intros m fs d H Ho Hk He. rewrite (Hdoc m fs _ H).
    unfold dict_mem in Ho, Hk, He.
    destruct (load_sections_of_dict d m) as (A1 & A2 & A3).
    destruct (dict_get d "options"); [ discriminate Ho | ].
    destruct (dict_get d "keybinds") eqn:E2; [ discriminate Hk | ].
    destruct (dict_get d "enabled") eqn:E3; [ discriminate He | ].
    rewrite A1. unfold seq at 2. simpl. 
    unfold load_keybinds_section. simpl. unfold dict_mem. rewrite E2.
    unfold seq. simpl. unfold load_enabled. simpl. rewrite E3. simpl.
    destruct (auto_enable m); reflexivity.
Qed.

(** ** Construction *)

(** X10 ([SliderOption.__post_init__], [ValueOption.__post_init__],
    [BaseOption.__post_init__]): with int arguments a slider is
    constructed exactly when the step is at most [max - min], and then
    without a warning.  Nothing else is checked: the value may lie
    outside the range and the step may be zero or negative.  The new
    option has the value as its default value, no guard set, and the
    callback has not been run; its display name is the identifier
    unless one was given, and its description title is the display
    name unless one was given. *)
Theorem slider_init_integers :
  forall id (v lo hi st : Z) int display descr title hidden cb,
    SliderOption_init id (NInt v) (NInt lo) (NInt hi) (NInt st) int display descr
                      title hidden cb
    = (if hi - lo <? st then Raise ValueError
       else
         let shown := match display with Some s => s | None => id end in
         Ok (SliderOption
               (mkValue (mkBase id shown descr
                                (match title with Some s => s | None => shown end)
                                hidden)
                        (JInt v) (JInt v) cb false)
               (NInt lo) (NInt hi) (NInt st) int,
             [])).
Proof.
  intros id v lo hi st int display descr title hidden cb.
  unfold SliderOption_init. simpl. unfold num_gtb. simpl.
  rewrite Z.ltb_antisym, Z.leb_compare.
  destruct (st ?= hi - lo) eqn:E; simpl; destruct int; reflexivity.
Qed.


(** ** Exceptions and order *)

Lemma for_each_stops : forall A (body : A -> outcome A) xs1 x xs2 e,
  (forall y, In y xs1 -> raised (body y) = None) ->
  raised (body x) = Some e ->
  raised (for_each body (xs1 ++ x :: xs2)) = Some e /\
  post (for_each body (xs1 ++ x :: xs2))
  = (map (fun y => post (body y)) xs1 ++ post (body x) :: xs2)%list /\
  trace (for_each body (xs1 ++ x :: xs2))
  = (flat_map (fun y => trace (body y)) xs1 ++ trace (body x))%list.
Proof.
  intros A body xs1 x xs2 e H1 Hx. induction xs1 as [ | y xs1 IH ]; simpl.
  - rewrite Hx. simpl. repeat split; reflexivity.
  - rewrite (H1 y (or_introl eq_refl)). simpl.
    destruct IH as (I1 & I2 & I3); [ intros z Hz; apply H1; right; exact Hz | ].
    rewrite I1, I2, I3, <- app_assoc. repeat split; reflexivity.
Qed.

Lemma seq_stops : forall A (r : outcome A) k e, raised r = Some e -> seq r k = r.
Proof. intros A r k e H. unfold seq. rewrite H. reflexivity. Qed.

(** X12 ([load_options_dict], [default_load_mod_settings]): an
    exception that escapes from an option's [_from_json] ends the load
    there.  The options before it have been loaded, the option itself
    is left as its [_from_json] left it, and the options after it are
    untouched; no keybind is loaded and the mod is not enabled, whatever
    the document says. *)
Theorem load_stops_at_exception :
  (forall settings os1 o os2 e,
     (forall y, In y os1 -> raised (load_option settings y) = None) ->
     raised (load_option settings o) = Some e ->
     let r := load_options_dict (os1 ++ o :: os2) settings in
     raised r = Some e /\
     post r = (map (fun y => post (load_option settings y)) os1
               ++ post (load_option settings o) :: os2)%list /\
     trace r = (flat_map (fun y => trace (load_option settings y)) os1
                ++ trace (load_option settings o))%list) /\
  (forall m fs (doc : dict) section e,
     persisted m fs = Some (JDict doc) ->
     dict_get doc "options" = Some section ->
     raised (load_options_dict (options m) section) = Some e ->
     let r := default_load_mod_settings m fs in
     raised r = Some e /\
     keybinds (post r) = keybinds m /\
     is_enabled (post r) = is_enabled m /\
     options (post r) = post (load_options_dict (options m) section) /\
     trace r = trace (load_options_dict (options m) section) /\
     ~ In EvEnable (trace r)).
Proof.
  split.
  - intros settings os1 o os2 e H1 Ho. cbv zeta. unfold load_options_dict.
    apply for_each_stops; assumption.
  - intros m fs doc section e Hper Hsec Hr. cbv zeta.
    unfold persisted in Hper. unfold default_load_mod_settings.
    destruct (settings_file m) as [p | ]; [ | discriminate Hper ].
    destruct (fs p); try discriminate Hper. injection Hper as ->.
    destruct (load_sections_of_dict doc m) as (A1 & _).
    rewrite A1, Hsec.
    assert (R1 : raised (lift (with_options m) (load_options_dict (options m) section))
                 = Some e) by exact Hr.
    rewrite (seq_stops _ _ _ e R1), (seq_stops _ _ _ e R1). simpl.
    repeat split; try reflexivity; try exact Hr.
    apply not_enable_not_in. apply for_each_trace.
    intros o _. apply load_option_events.
Qed.

Lemma last_key_acc : forall ks k (a : option JSON),
  fold_left (fun acc kb =>
               if String.eqb k (kb_identifier kb) && kb_is_rebindable kb
               then Some (key_json (key kb)) else acc) ks a =
  match last_key ks k with
  | Some j => Some j
  | None => a
  end.
Proof.
  unfold last_key. induction ks as [ | kb ks IH ]; intros k a; simpl; [ reflexivity | ].
  destruct (String.eqb k (kb_identifier kb) && kb_is_rebindable kb); [ | apply IH ].
  rewrite (IH k (Some (key_json (key kb)))).
  destruct (fold_left _ ks None); reflexivity.
Qed.

Lemma last_key_cons : forall kb ks k,
  last_key (kb :: ks) k =
  match last_key ks k with
  | Some j => Some j
  | None => if String.eqb k (kb_identifier kb) && kb_is_rebindable kb
            then Some (key_json (key kb)) else None
  end.
Proof. intros kb ks k. unfold last_key at 1. simpl. apply last_key_acc. Qed.

Lemma keybind_fold_get : forall ks acc k,
  dict_get (fold_left (fun acc kb =>
                         if negb (kb_is_rebindable kb) then acc
                         else dict_set acc (kb_identifier kb) (key_json (key kb)))
                      ks acc) k =
  match last_key ks k with
  | Some j => Some j
  | None => dict_get acc k
  end.
Proof.
  induction ks as [ | kb ks IH ]; intros acc k; [ reflexivity | ].
  simpl. rewrite IH, last_key_cons.
  destruct (last_key ks k) as [j | ]; [ reflexivity | ].
  destruct (kb_is_rebindable kb); simpl.
  - rewrite dict_get_set, andb_true_r.
    destruct (String.eqb k (kb_identifier kb)); reflexivity.
  - rewrite andb_false_r. reflexivity.
Qed.

Lemma keybind_fold_keys : forall ks acc,
  NoDup (map fst acc) ->
  NoDup (map fst (fold_left (fun acc kb =>
                         if negb (kb_is_rebindable kb) then acc
                         else dict_set acc (kb_identifier kb) (key_json (key kb)))
                      ks acc)).
Proof.
  induction ks as [ | kb ks IH ]; intros acc H; simpl; [ exact H | ].
  apply IH. destruct (negb (kb_is_rebindable kb)); [ exact H | ].
  apply dict_set_NoDup. exact H.
Qed.

Lemma last_key_In : forall ks k,
  last_key ks k <> None <->
  exists kb, In kb ks /\ kb_identifier kb = k /\ kb_is_rebindable kb = true.
Proof.
  induction ks as [ | kb ks IH ]; intros k.
  - split; [ intros H; exfalso; apply H; reflexivity | intros (kb & [] & _) ].
  - rewrite last_key_cons. split.
    + intros H. destruct (last_key ks k) as [j | ] eqn:El.
      * destruct (proj1 (IH k)) as (kb' & Hin & Hid & Hr);
          [ rewrite El; discriminate | ].
        exists kb'. split; [ right; exact Hin | ]. split; assumption.
      * destruct (String.eqb k (kb_identifier kb) && kb_is_rebindable kb) eqn:E;
          [ | exfalso; apply H; reflexivity ].
        apply andb_prop in E. destruct E as [E1 E2].
        apply String.eqb_eq in E1. exists kb. split; [ left; reflexivity | ].
        split; [ symmetry; exact E1 | exact E2 ].
    + intros (kb' & [-> | Hin] & Hid & Hr).
      * destruct (last_key ks k); [ discriminate | ].
        subst k. rewrite String.eqb_refl, Hr. discriminate.
      * assert (Hl : last_key ks k <> None).
        { apply IH. exists kb'. split; [ exact Hin | ]. split; assumption. }
        destruct (last_key ks k); [ discriminate | exfalso; apply Hl; reflexivity ].
Qed.

(** X13 (the keybinds loop of [default_save_mod_settings]): the
    keybinds dictionary has every identifier at most once; its keys
    are the identifiers of the rebindable keybinds, and what it holds
    for one is the key of the last rebindable keybind of that name,
    null when it has none.  A keybind that is not rebindable never
    shows in it. *)
Theorem keybind_settings_lookup :
  forall ks,
    NoDup (map fst (keybind_settings ks)) /\
    (forall k, dict_get (keybind_settings ks) k = last_key ks k) /\
    (forall k, dict_mem (keybind_settings ks) k = true <->
               exists kb, In kb ks /\ kb_identifier kb = k /\
                          kb_is_rebindable kb = true) /\
    (forall kb, NoDup (map kb_identifier ks) -> In kb ks ->
       dict_get (keybind_settings ks) (kb_identifier kb) =
       if kb_is_rebindable kb then Some (key_json (key kb)) else None).
Proof.
  intros ks.
  assert (Hget : forall k, dict_get (keybind_settings ks) k = last_key ks k).
  { intros k. unfold keybind_settings. rewrite keybind_fold_get.
    destruct (last_key ks k); reflexivity. }
  split; [ unfold keybind_settings; apply keybind_fold_keys; constructor | ].
  split; [ exact Hget | ]. split.
  - intros k. unfold dict_mem. rewrite Hget, <- last_key_In.
    destruct (last_key ks k); split; intros H;
      first [ reflexivity | discriminate | exfalso; apply H; reflexivity ].
  - intros kb Hnd Hin. apply keybind_settings_unique; assumption.
Qed.

Lemma for_each_ext_in : forall A (f g : A -> outcome A) xs,
  (forall x, In x xs -> f x = g x) -> for_each f xs = for_each g xs.
Proof.
  intros A f g xs. induction xs as [ | x xs IH ]; intros H; simpl; [ reflexivity | ].
  rewrite (H x (or_introl eq_refl)), IH; [ reflexivity | ].
  intros y Hy. apply H. right. exact Hy.
Qed.

Lemma for_each_all_returned : forall A (body : A -> outcome A) xs,
  raised (for_each body xs) = None -> forall x, In x xs -> raised (body x) = None.
Proof.
  intros A body xs. induction xs as [ | y xs IH ]; intros H x Hin; [ contradiction | ].
  simpl in H. destruct (raised (body y)) eqn:Hy; [ discriminate H | ].
  destruct Hin as [-> | Hin]; [ exact Hy | apply IH; assumption ].
Qed.

(** X14 ([load_options_dict], and with it [_from_json] of a group): of
    a mapping the loop reads what is stored under the identifiers of
    its options and nothing else, so other keys and the order of the
    keys do not matter.  The options are loaded in the order in which
    they are declared, whatever the order in the document: when the
    load returns, its events are those of the options one after the
    other, and each option is as its own [_from_json] leaves it. *)
Theorem options_loaded_by_lookup :
  (forall os (d d' : dict),
     (forall o, In o os ->
        dict_get d (option_identifier o) = dict_get d' (option_identifier o)) ->
     load_options_dict os (JDict d) = load_options_dict os (JDict d')) /\
  (forall os (d : dict),
     let r := load_options_dict os (JDict d) in
     raised r = None ->
     post r = map (fun o => match dict_get d (option_identifier o) with
                            | None => o
                            | Some x => post (from_json o x)
                            end) os /\
     trace r = flat_map (fun o => match dict_get d (option_identifier o) with
                                  | None => []
                                  | Some x => trace (from_json o x)
                                  end) os) /\
  (forall b os (d : dict),
     from_json (GroupedOption b os) (JDict d)
     = lift (GroupedOption b) (load_options_dict os (JDict d)) /\
     from_json (NestedOption b os) (JDict d)
     = lift (NestedOption b) (load_options_dict os (JDict d))).
Proof.
  split; [ | split ].
  - intros os d d' H. unfold load_options_dict. apply for_each_ext_in.
    intros o Ho. rewrite !load_option_dict. unfold dispatch_child.
    rewrite (H o Ho). reflexivity.
  - intros os d. cbv zeta. intros Hr. unfold load_options_dict in *.
    destruct (for_each_returned _ (load_option (JDict d)) os
                (for_each_all_returned _ _ _ Hr)) as (_ & H2 & H3).
    rewrite H2, H3. split.
    + apply map_ext. intros o. rewrite load_option_dict. unfold dispatch_child.
      destruct (dict_get d (option_identifier o)); reflexivity.
    + clear. induction os as [ | o os IH ]; [ reflexivity | ]. simpl.
      rewrite IH, load_option_dict. unfold dispatch_child.
      destruct (dict_get d (option_identifier o)); reflexivity.
  - intros b os d. unfold load_options_dict. simpl.
    rewrite (for_each_ext _ (load_option (JDict d)) (dispatch_child from_json d) os)
      by (intros o; apply load_option_dict).
    split; reflexivity.
Qed.

(** ** Commands *)

Lemma is_substring_char : forall c s,
  is_substring (String c "") s = true <-> In c (list_ascii_of_string s).
Proof.
  intros c s. unfold is_substring. induction s as [ | b s IH ]; simpl.
  - split; [ discriminate | contradiction ].
  - destruct (ascii_dec c b) as [-> | Hne].
    + assert (Hp : prefix "" s = true) by (destruct s; reflexivity).
      rewrite Hp. split; auto.
    + destruct (index 0 (String c "") s) as [n | ].
      * split; [ intros _; right; apply IH; reflexivity | reflexivity ].
      * split; [ discriminate | ].
        intros [H | H]; [ congruence | ]. apply IH in H. discriminate H.
Qed.

Lemma reject_chars_spec : forall chars s,
  (reject_chars chars s = Ok tt <->
   forall c, In c (list_ascii_of_string s) -> ~ In c chars) /\
  (reject_chars chars s = Raise ValueError <->
   exists c, In c (list_ascii_of_string s) /\ In c chars).
Proof.
  induction chars as [ | x chars IH ]; intros s; simpl.
  - split; split.
    + intros _ c _ [].
    + reflexivity.
    + discriminate.
    + intros (c & _ & []).
  - destruct (IH s) as [IH1 IH2].
    destruct (is_substring (String x "") s) eqn:E.
    + apply is_substring_char in E. split; split.
      * discriminate.
      * intros H. exfalso. apply (H x E). left. reflexivity.
      * intros _. exists x. split; [ exact E | left; reflexivity ].
      * reflexivity.
    + assert (Hx : ~ In x (list_ascii_of_string s)).
      { intros H. apply is_substring_char in H. congruence. }
      split; split.
      * intros H c Hc [<- | Hin]; [ exact (Hx Hc) | ].
        apply (proj1 IH1 H c Hc Hin).
      * intros H. apply IH1. intros c Hc Hin. apply (H c Hc). right. exact Hin.
      * intros H. apply IH2 in H. destruct H as (c & Hc & Hin).
        exists c. split; [ exact Hc | right; exact Hin ].
      * intros (c & Hc & [<- | Hin]); [ contradiction | ].
        apply IH2. exists c. split; assumption.
Qed.

Lemma reject_chars_cases : forall chars s,
  reject_chars chars s = Ok tt \/ reject_chars chars s = Raise ValueError.
Proof.
  induction chars as [ | x chars IH ]; intros s; simpl; [ left; reflexivity | ].
  destruct (is_substring (String x "") s); [ right; reflexivity | apply IH ].
Qed.

Lemma list_ascii_of_string_app : forall a b,
  list_ascii_of_string (a ++ b) = (list_ascii_of_string a ++ list_ascii_of_string b)%list.
Proof. induction a as [ | c a IH ]; intros b; simpl; [ | rewrite IH ]; reflexivity. Qed.

(** X15 ([AbstractCommand.__post_init__]): a command name is accepted
    exactly when none of its characters is a space, a form feed, a
    line feed, a carriage return, a tab or a vertical tab, and it is
    refused with a [ValueError] otherwise; so the empty name is
    accepted, and a name is accepted exactly when each of its parts
    is.  The six characters are whitespace for [str.strip] too, which
    knows four more (the separators 28 to 31) that a name may hold. *)
Theorem command_name_whitespace :
  forall name,
    (AbstractCommand_post_init name = Ok tt <->
     forall c, In c (list_ascii_of_string name) -> ~ In c command_whitespace) /\
    (AbstractCommand_post_init name = Raise ValueError <->
     exists c, In c (list_ascii_of_string name) /\ In c command_whitespace) /\
    (forall a b,
       name = (a ++ b)%string ->
       (AbstractCommand_post_init name = Ok tt <->
        AbstractCommand_post_init a = Ok tt /\ AbstractCommand_post_init b = Ok tt)) /\
    AbstractCommand_post_init "" = Ok tt /\
    (forall c, In c command_whitespace -> is_space c = true) /\
    (forall c, is_space c = true -> ~ In c command_whitespace ->
               AbstractCommand_post_init (String c name) = AbstractCommand_post_init name).
Proof.
  intros name. unfold AbstractCommand_post_init.
  destruct (reject_chars_spec command_whitespace name) as [H1 H2].
  split; [ exact H1 | ]. split; [ exact H2 | ].
  split; [ | split; [ reflexivity | split ] ].
  - intros a b ->.
    rewrite (proj1 (reject_chars_spec command_whitespace (a ++ b))),
            (proj1 (reject_chars_spec command_whitespace a)),
            (proj1 (reject_chars_spec command_whitespace b)).
    rewrite list_ascii_of_string_app. split.
    + intros H. split; intros c Hc; apply H; apply in_or_app; auto.
    + intros [Ha Hb] c Hc. apply in_app_or in Hc. destruct Hc; auto.
  - intros c Hc. simpl in Hc.
    repeat (destruct Hc as [<- | Hc]; [ reflexivity | ]). contradiction.
  - intros c _ Hc.
    destruct (reject_chars_cases command_whitespace name) as [E | E]; rewrite E.
    + apply (reject_chars_spec command_whitespace (String c name)).
      intros x [<- | Hx]; [ exact Hc | ]. apply (proj1 H1 E x Hx).
    + apply H2 in E. destruct E as (x & Hx & Hin).
      apply (reject_chars_spec command_whitespace (String c name)).
      exists x. split; [ right; exact Hx | exact Hin ].
Qed.

Lemma ns_get_set : forall d k v k',
  ns_get (ns_set d k v) k' = if String.eqb k' k then Some v else ns_get d k'.
Proof.
  induction d as [ | [k0 v0] d IH ]; intros k v k'; simpl.
  - reflexivity.
  - destruct (String.eqb k k0) eqn:Hk; simpl.
    + apply String.eqb_eq in Hk. subst k0.
      destruct (String.eqb k' k); reflexivity.
    + destruct (String.eqb k' k0) eqn:Hk'.
      * apply String.eqb_eq in Hk'. subst k0.
        destruct (String.eqb k' k) eqn:E; [ | reflexivity ].
        apply String.eqb_eq in E. subst k'. rewrite String.eqb_refl in Hk. discriminate.
      * apply IH.
Qed.

Lemma decorator_unfold : forall c func,
  decorator c func =
  (mkClosure (Some (resolved_name c func))
             (if ns_mem (kwargs c) "prog" then kwargs c
              else ns_set (kwargs c) "prog" (PData (JStr (resolved_name c func))))
             (closure_splitter c),
   match new_ArgumentParser
           (if ns_mem (kwargs c) "prog" then kwargs c
            else ns_set (kwargs c) "prog" (PData (JStr (resolved_name c func)))) with
   | inl e => Raise e
   | inr p => match AbstractCommand_post_init (resolved_name c func) with
              | inl e => Raise e
              | inr _ => Ok (mkArgParseCommand (resolved_name c func) func p
                                               (closure_splitter c))
              end
   end).
Proof.
  intros c func. unfold decorator, resolved_name. cbv zeta.
  destruct (new_ArgumentParser _); [ reflexivity | ].
  destruct (AbstractCommand_post_init _); reflexivity.
Qed.

Lemma decorator_sets_prog : forall c func,
  ns_mem (kwargs (fst (decorator c func))) "prog" = true.
Proof.
  intros c func. rewrite decorator_unfold. simpl.
  destruct (ns_mem (kwargs c) "prog") eqn:E; [ exact E | ].
  unfold ns_mem. rewrite ns_get_set. reflexivity.
Qed.

(** X16 ([command], its closure [decorator]): the command is named
    after the [cmd] argument, and after the function when [cmd] is
    missing or empty; the parser is built with the keyword arguments
    as given, plus [prog] set to that name unless [prog] was given.
    The command is built when [argparse] accepts the arguments and
    the name holds no whitespace, with the function as its callback; a
    name with whitespace is refused with a [ValueError].  The decorator
    remembers the name and the arguments: applied again, to another
    function, it names the command as before and gives the parser the
    same [prog]. *)
Theorem command_name_resolution :
  forall c func,
    let name := resolved_name c func in
    let c' := fst (decorator c func) in
    let r := snd (decorator c func) in
    cmd_name c' = Some name /\
    ns_get (kwargs c') "prog" =
      Some (match ns_get (kwargs c) "prog" with
            | Some v => v
            | None => PData (JStr name)
            end) /\
    (forall k, k <> "prog" -> ns_get (kwargs c') k = ns_get (kwargs c) k) /\
    (forall p, new_ArgumentParser (kwargs c') = Ok p ->
       r = match AbstractCommand_post_init name with
           | inl e => Raise e
           | inr _ => Ok (mkArgParseCommand name func p (closure_splitter c))
           end) /\
    (forall e, new_ArgumentParser (kwargs c') = Raise e -> r = Raise e) /\
    (name <> "" ->
     forall func2,
       fst (decorator c' func2) = c' /\
       resolved_name c' func2 = name /\
       forall p, new_ArgumentParser (kwargs c') = Ok p ->
         AbstractCommand_post_init name = Ok tt ->
         snd (decorator c' func2)
         = Ok (mkArgParseCommand name func2 p (closure_splitter c))) /\
    (forall split kw f,
       command (Function f) split kw
       = (fst (decorator (mkClosure None kw split) f),
          Some (snd (decorator (mkClosure None kw split) f))) /\
       resolved_name (mkClosure None kw split) f = callable_name f /\
       resolved_name (fst (command NoName split kw)) f = callable_name f /\
       resolved_name (fst (command (Name "") split kw)) f = callable_name f /\
       forall s, s <> "" -> resolved_name (fst (command (Name s) split kw)) f = s).
Proof.
  intros c func. cbv zeta.
  pose proof (decorator_sets_prog c func) as Hprog.
  rewrite decorator_unfold in *. simpl in *.
  split; [ reflexivity | ]. split; [ | split; [ | split; [ | split; [ | split ] ] ] ].
  - unfold ns_mem. destruct (ns_get (kwargs c) "prog") eqn:E.
    + exact E.
    + rewrite ns_get_set. reflexivity.
  - intros k Hk. destruct (ns_mem (kwargs c) "prog"); [ reflexivity | ].
    rewrite ns_get_set. destruct (String.eqb k "prog") eqn:E; [ | reflexivity ].
    apply String.eqb_eq in E. contradiction.
  - intros p Hp. rewrite Hp. reflexivity.
  - intros e He. rewrite He. reflexivity.
  - intros Hname func2.
    set (kw' := if ns_mem (kwargs c) "prog" then kwargs c
                else ns_set (kwargs c) "prog" (PData (JStr (resolved_name c func)))).
    set (c' := mkClosure (Some (resolved_name c func)) kw' (closure_splitter c)).
    assert (Hmem : ns_mem kw' "prog" = true) by exact Hprog.
    assert (Hres : resolved_name c' func2 = resolved_name c func).
    { unfold resolved_name at 1. simpl.
      destruct (String.eqb (resolved_name c func) "") eqn:E; [ | reflexivity ].
      apply String.eqb_eq in E. contradiction. }
    rewrite decorator_unfold. rewrite Hres. simpl. rewrite Hmem.
    split; [ reflexivity | ]. split; [ reflexivity | ].
    intros p Hp Hok. rewrite Hp, Hok. reflexivity.
  - intros split kw f. simpl.
    split; [ destruct (decorator (mkClosure None kw split) f); reflexivity | ].
    repeat split; try reflexivity.
    intros s Hs. unfold resolved_name. simpl.
    destruct (String.eqb s "") eqn:E; [ | reflexivity ].
    apply String.eqb_eq in E. contradiction.
Qed.

(** ** The mod factory *)

Lemma ns_set_keys : forall d k v,
  ns_mem d k = true -> map fst (ns_set d k v) = map fst d.
Proof.
  unfold ns_mem. induction d as [ | [k0 v0] d IH ]; intros k v H; simpl in *.
  - discriminate H.
  - destruct (String.eqb k k0) eqn:Hk; simpl; [ reflexivity | ].
    rewrite IH by exact H. reflexivity.
Qed.

Lemma ns_mem_keys : forall d d' k,
  map fst d' = map fst d -> ns_mem d' k = ns_mem d k.
Proof.
  unfold ns_mem. induction d as [ | [k0 v0] d IH ]; intros [ | [k1 v1] d' ] k H;
    simpl in *; try discriminate H; [ reflexivity | ].
  injection H as -> H. destruct (String.eqb k k0); [ reflexivity | ].
  apply IH. exact H.
Qed.

Lemma keeps_given_refl : forall f, keeps_given f f.
Proof. intros f. split; [ reflexivity | auto ]. Qed.

Lemma keeps_given_trans : forall f g h,
  keeps_given f g -> keeps_given g h -> keeps_given f h.
Proof.
  intros f g h [K1 G1] [K2 G2]. split; [ congruence | ].
  intros k v Hk Hv. apply G2; [ apply G1; assumption | exact Hv ].
Qed.

(** Filling a field that was [None]. *)
Lemma keeps_given_set : forall f k v y,
  ns_get f k = Some v -> is_None v = true -> keeps_given f (ns_set f k y).
Proof.
  intros f k v y Hk Hv. split.
  - apply ns_set_keys. unfold ns_mem. rewrite Hk. reflexivity.
  - intros k' v' Hk' Hv'. rewrite ns_get_set.
    destruct (String.eqb k' k) eqn:E; [ | exact Hk' ].
    apply String.eqb_eq in E. subst k'. congruence.
Qed.

Lemma do_all_invariant : forall A (R : A -> A -> Prop) (steps : list (A -> outcome A)),
  (forall a, R a a) -> (forall a b c, R a b -> R b c -> R a c) ->
  (forall s, In s steps -> forall a, R a (post (s a))) ->
  forall a, R a (post (do_all steps a)).
Proof.
  intros A R steps Hrefl Htrans. induction steps as [ | s steps IH ]; intros H a; simpl.
  - apply Hrefl.
  - unfold seq. destruct (raised (s a)).
    + apply H. left. reflexivity.
    + simpl. apply (Htrans _ (post (s a))).
      * apply H. left. reflexivity.
      * apply IH. intros s' Hs'. apply H. right. exact Hs'.
Qed.

Lemma take_from_keeps : forall convert source field key f,
  keeps_given f (post (take_from convert source field key f)).
Proof.
  intros convert source field key f. unfold take_from.
  destruct (ns_get f field) as [v | ] eqn:Hf; [ | apply keeps_given_refl ].
  destruct (is_None v) eqn:Hv; [ | apply keeps_given_refl ].
  destruct (py_contains key source) as [e | [ | ]]; try apply keeps_given_refl.
  destruct (py_getitem source key) as [e | x]; [ apply keeps_given_refl | ].
  destruct (convert x) as [e | y]; [ apply keeps_given_refl | ].
  apply (keeps_given_set f field v y Hf Hv).
Qed.

Lemma take_games_keeps : forall sdkmod f, keeps_given f (post (take_games sdkmod f)).
Proof.
  intros sdkmod f. unfold take_games.
  destruct (ns_get f "supported_games") as [v | ] eqn:Hf; [ | apply keeps_given_refl ].
  destruct (is_None v) eqn:Hv; [ | apply keeps_given_refl ].
  destruct (py_contains "supported_games" sdkmod) as [e | [ | ]];
    try apply keeps_given_refl.
  destruct (py_getitem sdkmod "supported_games") as [e | x]; [ apply keeps_given_refl | ].
  destruct (games_of x) as [e | [g | ]]; try apply keeps_given_refl.
  apply (keeps_given_set f "supported_games" v g Hf Hv).
Qed.

Lemma take_attribute_keeps : forall module field attr f,
  keeps_given f (post (take_attribute module field attr f)).
Proof.
  intros module field attr f. unfold take_attribute.
  destruct (ns_get f field) as [v | ] eqn:Hf; [ | apply keeps_given_refl ].
  destruct (is_None v) eqn:Hv; [ | apply keeps_given_refl ].
  destruct (getattr module attr) as [e | x].
  - destruct (exception_eqb e AttributeError); apply keeps_given_refl.
  - apply (keeps_given_set f field v x Hf Hv).
Qed.

Lemma default_settings_file_keeps : forall module f,
  keeps_given f (post (default_settings_file module f)).
Proof.
  intros module f. unfold default_settings_file.
  destruct (ns_get f "settings_file") as [v | ] eqn:Hf; [ | apply keeps_given_refl ].
  destruct (is_None v) eqn:Hv; [ | apply keeps_given_refl ].
  apply (keeps_given_set f "settings_file" v _ Hf Hv).
Qed.

Lemma steps_keep : forall steps : list (namespace -> outcome namespace),
  (forall s, In s steps -> forall f, keeps_given f (post (s f))) ->
  forall f, keeps_given f (post (do_all steps f)).
Proof.
  intros steps H. apply do_all_invariant;
    [ apply keeps_given_refl | apply keeps_given_trans | exact H ].
Qed.

Lemma tool_sdkmod_keeps : forall sdkmod f,
  keeps_given f (post (update_fields_with_pyproject_tool_sdkmod sdkmod f)).
Proof.
  intros sdkmod. unfold update_fields_with_pyproject_tool_sdkmod. apply steps_keep.
  intros s Hs f. simpl in Hs.
  repeat (destruct Hs as [<- | Hs];
          [ first [ apply take_from_keeps | apply take_games_keeps ] | ]).
  contradiction.
Qed.

Lemma project_keeps : forall project f,
  keeps_given f (post (update_fields_with_pyproject_project project f)).
Proof.
  intros project. unfold update_fields_with_pyproject_project. apply steps_keep.
  intros s Hs f. simpl in Hs.
  repeat (destruct Hs as [<- | Hs]; [ apply take_from_keeps | ]).
  contradiction.
Qed.

Lemma seq_keeps : forall (r : outcome namespace) k f,
  keeps_given f (post r) -> (forall g, keeps_given g (post (k g))) ->
  keeps_given f (post (seq r k)).
Proof.
  intros r k f Hr Hk. unfold seq. destruct (raised r); [ exact Hr | ].
  simpl. apply (keeps_given_trans _ (post r)); [ exact Hr | apply Hk ].
Qed.

Lemma pyproject_keeps : forall toml f,
  keeps_given f (post (update_fields_with_pyproject toml f)).
Proof.
  intros toml f. unfold update_fields_with_pyproject. apply seq_keeps.
  - destruct (dict_get toml "tool") as [tool | ]; [ | apply keeps_given_refl ].
    destruct (py_contains "sdkmod" tool) as [e | [ | ]]; try apply keeps_given_refl.
    destruct (py_getitem tool "sdkmod") as [e | sdkmod]; [ apply keeps_given_refl | ].
    apply tool_sdkmod_keeps.
  - intros g. destruct (dict_get toml "project") as [project | ];
      [ apply project_keeps | apply keeps_given_refl ].
Qed.

Lemma attributes_keeps : forall module f,
  keeps_given f (post (update_fields_with_module_attributes module f)).
Proof.
  intros module. unfold update_fields_with_module_attributes. apply steps_keep.
  intros s Hs f. simpl in Hs.
  repeat (destruct Hs as [<- | Hs];
          [ first [ apply take_attribute_keeps | apply default_settings_file_keeps ] | ]).
  contradiction.
Qed.

Lemma assign_found_keeps : forall f g find found field v,
  keeps_given f g -> ns_get f field = Some v -> find = is_None v ->
  keeps_given f (assign_found find found field g).
Proof.
  intros f g find found field v Hg Hf ->. unfold assign_found.
  destruct (is_None v) eqn:Hv; simpl; [ | exact Hg ].
  destruct found as [ | x found ]; [ exact Hg | ].
  destruct Hg as [K G]. split.
  - rewrite ns_set_keys; [ exact K | ].
    rewrite (ns_mem_keys f g field K). unfold ns_mem. rewrite Hf. reflexivity.
  - intros k' v' Hk' Hv'. rewrite ns_get_set.
    destruct (String.eqb k' field) eqn:E; [ | apply G; assumption ].
    apply String.eqb_eq in E. subst k'. congruence.
Qed.

Lemma search_keeps : forall module f,
  keeps_given f (post (update_fields_with_module_search module f)).
Proof.
  intros module f. unfold update_fields_with_module_search.
  destruct (ns_get f "keybinds") as [k | ] eqn:Hk; [ | apply keeps_given_refl ].
  destruct (ns_get f "options") as [o | ] eqn:Ho; [ | apply keeps_given_refl ].
  destruct (ns_get f "hooks") as [h | ] eqn:Hh; [ | apply keeps_given_refl ].
  destruct (ns_get f "commands") as [c | ] eqn:Hc; [ | apply keeps_given_refl ].
  cbv zeta.
  destruct (negb (is_None k || is_None o || is_None h || is_None c));
    [ apply keeps_given_refl | ].
  simpl.
  apply (assign_found_keeps f _ _ _ "commands" c); [ | exact Hc | reflexivity ].
  apply (assign_found_keeps f _ _ _ "hooks" h); [ | exact Hh | reflexivity ].
  apply (assign_found_keeps f _ _ _ "options" o); [ | exact Ho | reflexivity ].
  apply (assign_found_keeps f _ _ _ "keybinds" k); [ | exact Hk | reflexivity ].
  apply keeps_given_refl.
Qed.

Lemma gather_fields_keeps : forall inject parser toml module f,
  keeps_given f (snd (post (gather_fields inject parser toml module f))).
Proof.
  intros inject parser toml module f. unfold gather_fields.
  apply (do_all_invariant _ (fun a b : ModuleType * namespace =>
                               keeps_given (snd a) (snd b))).
  - intros a. apply keeps_given_refl.
  - intros a b c. apply keeps_given_trans.
  - intros s Hs a. simpl in Hs.
    destruct Hs as [<- | [<- | [<- | [<- | []]]]]; simpl.
    + apply pyproject_keeps.
    + destruct inject; simpl; apply keeps_given_refl.
    + apply attributes_keeps.
    + apply search_keeps.
Qed.

Lemma ns_get_filter : forall (p : string * PyObj -> bool) f k v,
  ns_get f k = Some v -> p (k, v) = true -> ns_get (filter p f) k = Some v.
Proof.
  induction f as [ | [k0 v0] f IH ]; intros k v H Hp; simpl in *; [ discriminate H | ].
  destruct (String.eqb k k0) eqn:E.
  - apply String.eqb_eq in E. subst k0. injection H as ->. rewrite Hp. simpl.
    rewrite String.eqb_refl. reflexivity.
  - destruct (p (k0, v0)); simpl; [ rewrite E | ]; apply IH; assumption.
Qed.

(** X17 ([update_fields_with_pyproject_tool_sdkmod],
    [update_fields_with_pyproject_project],
    [update_fields_with_pyproject],
    [update_fields_with_module_attributes],
    [update_fields_with_module_search], [build_mod]): the arguments
    given to [build_mod] have priority over everything else.  None of
    the steps that gather fields adds, removes or reorders a key, and
    none changes a field that is not [None], also when the step ends
    with an exception; so a field that was given, and whose name does
    not start with an underscore, reaches the keyword arguments of the
    mod class as it was given. *)
Theorem given_fields_kept :
  (forall sdkmod fields,
     keeps_given fields (post (update_fields_with_pyproject_tool_sdkmod sdkmod fields))) /\
  (forall project fields,
     keeps_given fields (post (update_fields_with_pyproject_project project fields))) /\
  (forall toml_data fields,
     keeps_given fields (post (update_fields_with_pyproject toml_data fields))) /\
  (forall module fields,
     keeps_given fields (post (update_fields_with_module_attributes module fields))) /\
  (forall module fields,
     keeps_given fields (post (update_fields_with_module_search module fields))) /\
  (forall inject parser toml_data module fields,
     keeps_given fields
       (snd (post (gather_fields inject parser toml_data module fields))) /\
     forall kw k v,
       build_mod_kwargs inject parser toml_data module fields = Ok kw ->
       ns_get fields k = Some v -> is_None v = false -> prefix "_" k = false ->
       ns_get kw k = Some v).
Proof.
  split; [ exact tool_sdkmod_keeps | ]. split; [ exact project_keeps | ].
  split; [ exact pyproject_keeps | ]. split; [ exact attributes_keeps | ].
  split; [ exact search_keeps | ].
  intros inject parser toml module fields.
  split; [ apply gather_fields_keeps | ].
  intros kw k v Hb Hk Hv Hp. unfold build_mod_kwargs in Hb. cbv zeta in Hb.
  destruct (raised (gather_fields inject parser toml module fields));
    [ discriminate Hb | ].
  injection Hb as <-. unfold kwargs_of. apply ns_get_filter.
  - apply (gather_fields_keeps inject parser toml module fields); assumption.
  - simpl. rewrite Hv, Hp. reflexivity.
Qed.

Lemma is_None_eq : forall v, is_None v = true -> v = PNone.
Proof.
  intros v H. destruct v as [ j | | | | | | | | | | | ]; try discriminate H.
  destruct j; try discriminate H. reflexivity.
Qed.

Lemma or_else_assoc : forall a b c, or_else (or_else a b) c = or_else a (or_else b c).
Proof.
  intros a b c. unfold or_else. destruct (is_None a) eqn:Ha; [ reflexivity | ].
  rewrite Ha. reflexivity.
Qed.

Lemma or_else_None_r : forall a, or_else a PNone = a.
Proof.
  intros a. unfold or_else. destruct (is_None a) eqn:Ha; [ | reflexivity ].
  symmetry. apply is_None_eq. exact Ha.
Qed.

(** What a step of the tables does to the fields when it returns. *)
Lemma take_from_spec : forall convert (d : dict) field key f,
  raised (take_from convert (JDict d) field key f) = None ->
  forall k v, ns_get f k = Some v ->
    ns_get (post (take_from convert (JDict d) field key f)) k =
    Some (if String.eqb k field
          then or_else v (match dict_get d key with
                          | Some x => match convert x with
                                      | inr y => y
                                      | inl _ => PNone
                                      end
                          | None => PNone
                          end)
          else v).
Proof.
  intros convert d field key f Hr k v Hk. revert Hr. unfold take_from. simpl.
  unfold dict_mem.
  destruct (String.eqb k field) eqn:E.
  - apply String.eqb_eq in E. subst k. rewrite Hk. unfold or_else.
    destruct (is_None v) eqn:Hv; [ | intros _; exact Hk ].
    destruct (dict_get d key) as [x | ]; simpl.
    + destruct (convert x) as [e | y]; simpl; [ discriminate | ].
      intros _. rewrite ns_get_set, String.eqb_refl. reflexivity.
    + intros _. rewrite Hk. f_equal. apply is_None_eq. exact Hv.
  - destruct (ns_get f field) as [w | ]; [ | intros _; exact Hk ].
    destruct (is_None w); [ | intros _; exact Hk ].
    destruct (dict_get d key) as [x | ]; simpl; [ | intros _; exact Hk ].
    destruct (convert x) as [e | y]; simpl; [ discriminate | ].
    intros _. rewrite ns_get_set, E. exact Hk.
Qed.

Lemma take_games_spec : forall (d : dict) f,
  raised (take_games (JDict d) f) = None ->
  forall k v, ns_get f k = Some v ->
    ns_get (post (take_games (JDict d) f)) k =
    Some (if String.eqb k "supported_games" then or_else v (games_value d) else v).
Proof.
  intros d f Hr k v Hk. revert Hr. unfold take_games, games_value. simpl.
  unfold dict_mem.
  destruct (String.eqb k "supported_games") eqn:E.
  - apply String.eqb_eq in E. subst k. rewrite Hk. unfold or_else.
    destruct (is_None v) eqn:Hv; [ | intros _; exact Hk ].
    destruct (dict_get d "supported_games") as [x | ]; simpl.
    + destruct (games_of x) as [e | [g | ]]; simpl; [ discriminate | | ].
      * intros _. rewrite ns_get_set. reflexivity.
      * intros _. rewrite Hk. f_equal. apply is_None_eq. exact Hv.
    + intros _. rewrite Hk. f_equal. apply is_None_eq. exact Hv.
  - destruct (ns_get f "supported_games") as [w | ]; [ | intros _; exact Hk ].
    destruct (is_None w); [ | intros _; exact Hk ].
    destruct (dict_get d "supported_games") as [x | ]; simpl; [ | intros _; exact Hk ].
    destruct (games_of x) as [e | [g | ]]; simpl; [ discriminate | | intros _; exact Hk ].
    intros _. rewrite ns_get_set, E. exact Hk.
Qed.

Lemma seq_returns : forall A (r : outcome A) k,
  raised (seq r k) = None ->
  raised r = None /\ raised (k (post r)) = None /\ post (seq r k) = post (k (post r)).
Proof.
  intros A r k. unfold seq. destruct (raised r) eqn:E; [ intros H; congruence | ].
  simpl. intros H. repeat split; assumption.
Qed.

Lemma enum_value_members_get : forall A (members : string -> option A) inj (d : dict) k,
  match dict_get d k with
  | Some x => match members_get members inj x with
              | inr y => y
              | inl _ => PNone
              end
  | None => PNone
  end = enum_value members inj d k.
Proof.
  intros A members inj d k. unfold enum_value, members_get.
  destruct (dict_get d k) as [x | ]; [ | reflexivity ].
  destruct x; reflexivity.
Qed.

Lemma tool_sdkmod_spec : forall (sd : dict) f,
  raised (update_fields_with_pyproject_tool_sdkmod (JDict sd) f) = None ->
  forall k v, ns_get f k = Some v ->
    ns_get (post (update_fields_with_pyproject_tool_sdkmod (JDict sd) f)) k =
    Some (or_else v (sdkmod_value sd k)).
Proof.
  intros sd f Hr k v Hk. unfold update_fields_with_pyproject_tool_sdkmod in *.
  simpl in Hr |- *.
  apply seq_returns in Hr. destruct Hr as (R1 & Hr & ->).
  pose proof (take_from_spec _ _ _ _ _ R1 k v Hk) as H1.
  apply seq_returns in Hr. destruct Hr as (R2 & Hr & ->).
  pose proof (take_from_spec _ _ _ _ _ R2 k _ H1) as H2.
  apply seq_returns in Hr. destruct Hr as (R3 & Hr & ->).
  pose proof (take_from_spec _ _ _ _ _ R3 k _ H2) as H3.
  apply seq_returns in Hr. destruct Hr as (R4 & Hr & ->).
  pose proof (take_from_spec _ _ _ _ _ R4 k _ H3) as H4.
  apply seq_returns in Hr. destruct Hr as (R5 & Hr & ->).
  pose proof (take_games_spec _ _ R5 k _ H4) as H5.
  apply seq_returns in Hr. destruct Hr as (R6 & _ & ->).
  pose proof (take_from_spec _ _ _ _ _ R6 k _ H5) as H6.
  simpl. rewrite H6. f_equal. clear.
  rewrite !enum_value_members_get. unfold sdkmod_value, plain, toml_value.
  destruct (String.eqb k "name") eqn:E1;
    [ apply String.eqb_eq in E1; subst k; reflexivity | ].
  destruct (String.eqb k "version") eqn:E2;
    [ apply String.eqb_eq in E2; subst k; reflexivity | ].
  destruct (String.eqb k "auto_enable") eqn:E3;
    [ apply String.eqb_eq in E3; subst k; reflexivity | ].
  destruct (String.eqb k "mod_type") eqn:E4;
    [ apply String.eqb_eq in E4; subst k; reflexivity | ].
  destruct (String.eqb k "supported_games") eqn:E5;
    [ apply String.eqb_eq in E5; subst k; reflexivity | ].
  destruct (String.eqb k "coop_support") eqn:E6; [ reflexivity | ].
  symmetry. apply or_else_None_r.
Qed.

Lemma project_spec : forall (pr : dict) f,
  raised (update_fields_with_pyproject_project (JDict pr) f) = None ->
  forall k v, ns_get f k = Some v ->
    ns_get (post (update_fields_with_pyproject_project (JDict pr) f)) k =
    Some (or_else v (project_value pr k)).
Proof.
  intros pr f Hr k v Hk. unfold update_fields_with_pyproject_project in *.
  simpl in Hr |- *.
  apply seq_returns in Hr. destruct Hr as (R1 & Hr & ->).
  pose proof (take_from_spec _ _ _ _ _ R1 k v Hk) as H1.
  apply seq_returns in Hr. destruct Hr as (R2 & Hr & ->).
  pose proof (take_from_spec _ _ _ _ _ R2 k _ H1) as H2.
  apply seq_returns in Hr. destruct Hr as (R3 & Hr & ->).
  pose proof (take_from_spec _ _ _ _ _ R3 k _ H2) as H3.
  apply seq_returns in Hr. destruct Hr as (R4 & Hr & ->).
  pose proof (take_from_spec _ _ _ _ _ R4 k _ H3) as H4.
  apply seq_returns in Hr. destruct Hr as (R5 & _ & ->).
  pose proof (take_from_spec _ _ _ _ _ R5 k _ H4) as H5.
  simpl. rewrite H5. f_equal. clear.
  unfold project_value, authors_value, plain, toml_value.
  destruct (String.eqb k "name") eqn:E1;
    [ apply String.eqb_eq in E1; subst k; reflexivity | ].
  destruct (String.eqb k "version") eqn:E2;
    [ apply String.eqb_eq in E2; subst k; reflexivity | ].
  destruct (String.eqb k "description") eqn:E3;
    [ apply String.eqb_eq in E3; subst k; reflexivity | ].
  destruct (String.eqb k "_version_info") eqn:E4;
    [ apply String.eqb_eq in E4; subst k; reflexivity | ].
  destruct (String.eqb k "author") eqn:E5; [ reflexivity | ].
  symmetry. apply or_else_None_r.
Qed.

Lemma sdkmod_value_nil : forall k, sdkmod_value [] k = PNone.
Proof.
  intros k. unfold sdkmod_value, toml_value, enum_value, games_value. simpl.
  repeat match goal with |- context [ String.eqb k ?s ] => destruct (String.eqb k s) end;
    reflexivity.
Qed.

Lemma project_value_nil : forall k, project_value [] k = PNone.
Proof.
  intros k. unfold project_value, toml_value, authors_value. simpl.
  repeat match goal with |- context [ String.eqb k ?s ] => destruct (String.eqb k s) end;
    reflexivity.
Qed.

(** X18 ([update_fields_with_pyproject] and the two functions it
    calls): the column [pyproject.toml] of the table in the docstring
    of [build_mod].  When the update returns, every field holds what
    was given for it, else what the table [tool.sdkmod] has for it,
    else what the table [project] has for it, else [None]: so
    [tool.sdkmod] has priority over [project] for the name and the
    version, and [_version_info] is [project.version] whatever the
    version is. *)
Theorem pyproject_table_priority :
  forall toml_data tool sd pr fields,
    table_at toml_data "tool" = Some tool ->
    table_at tool "sdkmod" = Some sd ->
    table_at toml_data "project" = Some pr ->
    raised (update_fields_with_pyproject toml_data fields) = None ->
    forall k v,
      ns_get fields k = Some v ->
      ns_get (post (update_fields_with_pyproject toml_data fields)) k =
      Some (or_else v (or_else (sdkmod_value sd k) (project_value pr k))).
Proof.
  intros toml tool sd pr fields Ht Hs Hp Hr k v Hk.
  unfold update_fields_with_pyproject in *. unfold table_at in Ht, Hs, Hp.
  apply seq_returns in Hr. destruct Hr as (R1 & R2 & ->).
  assert (H1 : ns_get
                 (post match dict_get toml "tool" with
                       | Some tool0 =>
                           match py_contains "sdkmod" tool0 with
                           | inl e => throw e fields
                           | inr true =>
                               match py_getitem tool0 "sdkmod" with
                               | inl e => throw e fields
                               | inr sdkmod =>
                                   update_fields_with_pyproject_tool_sdkmod sdkmod fields
                               end
                           | inr false => ret fields
                           end
                       | None => ret fields
                       end) k = Some (or_else v (sdkmod_value sd k))).
  { revert R1. clear R2.
    destruct (dict_get toml "tool") as [t | ].
    - destruct t; try discriminate Ht. injection Ht as ->. simpl. unfold dict_mem.
      destruct (dict_get tool "sdkmod") as [s | ].
      + destruct s; try discriminate Hs. injection Hs as ->.
        intros R1. apply tool_sdkmod_spec; assumption.
      + injection Hs as <-. intros _. simpl.
        rewrite sdkmod_value_nil, or_else_None_r. exact Hk.
    - injection Ht as <-. simpl in Hs. injection Hs as <-. intros _. simpl.
      rewrite sdkmod_value_nil, or_else_None_r. exact Hk. }
  revert R2.
  destruct (dict_get toml "project") as [p | ].
  - destruct p; try discriminate Hp. injection Hp as ->.
    intros R2. rewrite (project_spec _ _ R2 k _ H1), or_else_assoc. reflexivity.
  - injection Hp as <-. intros _. simpl.
    rewrite project_value_nil, or_else_None_r. exact H1.
Qed.

Lemma author_names_entries : forall authors,
  Forall author_entry authors ->
  author_names authors = Ok (flat_map author_name authors).
Proof.
  intros authors H. induction H as [ | a authors Ha _ IH ]; [ reflexivity | ].
  simpl. destruct a as [ | | | | | | d ]; try contradiction. simpl in *.
  unfold dict_mem. destruct (dict_get d "name") as [x | ]; [ | exact IH ].
  destruct x; try contradiction. rewrite IH. reflexivity.
Qed.

Lemma author_names_error : forall authors e,
  author_names authors = Raise e -> e = TypeError.
Proof.
  induction authors as [ | a authors IH ]; intros e H; simpl in H; [ discriminate H | ].
  destruct a as [ | b | z | f | s | l | d ]; simpl in H;
    try (injection H as <-; reflexivity).
  - destruct (is_substring "name" s); [ injection H as <-; reflexivity | ].
    apply IH. exact H.
  - destruct (existsb _ l); [ injection H as <-; reflexivity | ].
    apply IH. exact H.
  - unfold dict_mem in H. destruct (dict_get d "name") as [x | ]; [ | apply IH; exact H ].
    destruct x; try (injection H as <-; reflexivity).
    destruct (author_names authors) as [e' | l] eqn:E; [ | discriminate H ].
    injection H as <-. apply IH. reflexivity.
Qed.

Lemma author_names_bad : forall authors d x,
  In (JDict d) authors -> dict_get d "name" = Some x -> (forall s, x <> JStr s) ->
  author_names authors = Raise TypeError.
Proof.
  induction authors as [ | a authors IH ]; intros d x Hin Hd Hx; [ contradiction | ].
  destruct Hin as [-> | Hin].
  - simpl. unfold dict_mem. rewrite Hd.
    destruct x; try reflexivity. exfalso. apply (Hx s). reflexivity.
  - pose proof (IH d x Hin Hd Hx) as Ht.
    destruct (author_names (a :: authors)) as [e | l] eqn:E.
    + rewrite (author_names_error (a :: authors) e E). reflexivity.
    + exfalso. simpl in E. rewrite Ht in E.
      destruct (py_contains "name" a) as [e | [ | ]]; try discriminate E.
      destruct (py_getitem a "name") as [e | y]; [ discriminate E | ].
      destruct y; discriminate E.
Qed.

(** X19 (the author of [update_fields_with_pyproject_project], and
    [update_fields_with_module_attributes] after it): the names of the
    entries of [project.authors] are joined with a comma and a space,
    in their order; an entry without a name is passed over.  A name
    that is not a string makes the update raise a [TypeError], and no
    other exception comes out of the join.  An empty list of authors,
    or one in which no entry has a name, gives the empty string, which
    is not [None]: the module's [__author__] is then not used. *)
Theorem authors_joined :
  (forall authors,
     Forall author_entry authors ->
     joined_authors (JList authors)
     = Ok (PData (JStr (join ", " (flat_map author_name authors))))) /\
  (forall x e, joined_authors x = Raise e -> e = TypeError) /\
  (forall authors d x,
     In (JDict d) authors -> dict_get d "name" = Some x -> (forall s, x <> JStr s) ->
     joined_authors (JList authors) = Raise TypeError) /\
  (forall authors module fields,
     Forall author_entry authors -> flat_map author_name authors = [] ->
     ns_get fields "author" = Some PNone ->
     let r := take_from joined_authors (JDict [("authors", JList authors)])
                        "author" "authors" fields in
     raised r = None /\
     ns_get (post r) "author" = Some (PData (JStr "")) /\
     take_attribute module "author" "__author__" (post r) = ret (post r)).
Proof.
  split; [ | split; [ | split ] ].
  - intros authors H. unfold joined_authors. simpl.
    rewrite (author_names_entries authors H). reflexivity.
  - intros x e H. unfold joined_authors in H.
    destruct (py_iter x) as [e' | l] eqn:Ei.
    + injection H as <-. destruct x; simpl in Ei; try discriminate Ei;
        injection Ei as <-; reflexivity.
    + destruct (author_names l) as [e' | l'] eqn:E; [ | discriminate H ].
      injection H as <-. apply (author_names_error l). exact E.
  - intros authors d x Hin Hd Hx. unfold joined_authors. simpl.
    rewrite (author_names_bad authors d x Hin Hd Hx). reflexivity.
  - intros authors module fields Hall Hnil Hf. cbv zeta.
    unfold take_from. rewrite Hf. simpl.
    unfold joined_authors. simpl. rewrite (author_names_entries authors Hall), Hnil.
    simpl. split; [ reflexivity | ].
    split; [ rewrite ns_get_set; reflexivity | ].
    unfold take_attribute. rewrite ns_get_set. reflexivity.
Qed.

Lemma ns_set_same : forall f k v, ns_get f k = Some v -> ns_set f k v = f.
Proof.
  induction f as [ | [k0 v0] f IH ]; intros k v H; simpl in *; [ discriminate H | ].
  destruct (String.eqb k k0) eqn:E.
  - injection H as ->. reflexivity.
  - rewrite IH by exact H. reflexivity.
Qed.

Lemma valid_games_names : forall names,
  valid_games (map JStr names) = Ok (known_games names).
Proof.
  induction names as [ | s names IH ]; [ reflexivity | ].
  simpl. rewrite IH. unfold known_games. simpl.
  destruct (Game_members s); reflexivity.
Qed.

(** X20 ([update_fields_with_pyproject_tool_sdkmod]: the fields
    [mod_type], [supported_games] and [coop_support]): a name that is
    not the name of a member is passed over without an exception or a
    warning.  The supported games are the members named in the list,
    combined with [|] from the left in the order of the list; when no
    name of the list is known the field is left alone, and so it is for
    a string in place of a list, which is read character by character.
    An unknown [mod_type] or [coop_support] leaves the field [None]; a
    value that is a list or a table raises a [TypeError]. *)
Theorem enum_names_looked_up :
  (forall names,
     games_of (JList (map JStr names)) =
     Ok (match known_games names with
         | [] => None
         | g :: gs => Some (PGame (fold_left Game_or gs g))
         end)) /\
  (forall s,
     (forall c, Game_members (String c "") = None) -> games_of (JStr s) = Ok None) /\
  (forall (sd : dict) names fields,
     ns_get fields "supported_games" = Some PNone ->
     dict_get sd "supported_games" = Some (JList (map JStr names)) ->
     take_games (JDict sd) fields =
     ret (match known_games names with
          | [] => fields
          | g :: gs => ns_set fields "supported_games" (PGame (fold_left Game_or gs g))
          end)) /\
  (forall (sd : dict) s fields,
     ns_get fields "mod_type" = Some PNone ->
     dict_get sd "mod_type" = Some (JStr s) ->
     take_from (members_get ModType_members PModType) (JDict sd) "mod_type" "mod_type"
               fields =
     ret (match ModType_members s with
          | Some m => ns_set fields "mod_type" (PModType m)
          | None => fields
          end)) /\
  (forall (sd : dict) s fields,
     ns_get fields "coop_support" = Some PNone ->
     dict_get sd "coop_support" = Some (JStr s) ->
     take_from (members_get CoopSupport_members PCoopSupport) (JDict sd)
               "coop_support" "coop_support" fields =
     ret (match CoopSupport_members s with
          | Some m => ns_set fields "coop_support" (PCoopSupport m)
          | None => fields
          end)) /\
  (forall A (members : string -> option A) inj (sd : dict) x field fields,
     ns_get fields field = Some PNone ->
     dict_get sd field = Some x ->
     (exists l, x = JList l) \/ (exists d, x = JDict d) ->
     take_from (members_get members inj) (JDict sd) field field fields
     = throw TypeError fields).
Proof.
  assert (Hg : forall names,
     games_of (JList (map JStr names)) =
     Ok (match known_games names with
         | [] => None
         | g :: gs => Some (PGame (fold_left Game_or gs g))
         end)).
  { intros names. unfold games_of. simpl. rewrite valid_games_names.
    destruct (known_games names); reflexivity. }
  split; [ exact Hg | ]. split; [ | split; [ | split; [ | split ] ] ].
  - intros s Hnone. unfold games_of. simpl.
    assert (Hv : valid_games (map (fun c => JStr (String c ""))
                                  (list_ascii_of_string s)) = Ok []).
    { induction (list_ascii_of_string s) as [ | c l IH ]; [ reflexivity | ].
      simpl. rewrite IH, Hnone. reflexivity. }
    rewrite Hv. reflexivity.
  - intros sd names fields Hf Hd. unfold take_games. rewrite Hf. simpl.
    unfold dict_mem. rewrite Hd. unfold Ok. cbv iota beta.
    rewrite Hg. destruct (known_games names); reflexivity.
  - intros sd s fields Hf Hd. unfold take_from. rewrite Hf. simpl.
    unfold dict_mem. rewrite Hd. simpl.
    destruct (ModType_members s); [ reflexivity | ].
    rewrite (ns_set_same fields "mod_type" PNone Hf). reflexivity.
  - intros sd s fields Hf Hd. unfold take_from. rewrite Hf. simpl.
    unfold dict_mem. rewrite Hd. simpl.
    destruct (CoopSupport_members s); [ reflexivity | ].
    rewrite (ns_set_same fields "coop_support" PNone Hf). reflexivity.
  - intros A members inj sd x field fields Hf Hd Hx. unfold take_from.
    rewrite Hf. simpl. unfold dict_mem. rewrite Hd. simpl.
    destruct Hx as [(l & ->) | (d & ->)]; reflexivity.
Qed.

Lemma search_loop : forall module fk fo fh fc (members : namespace) g,
  let r := do_all (map (fun kv => search_member module fk fo fh fc (snd kv)) members) g in
  let values := map snd members in
  raised r = None /\
  new_keybinds (post r)
  = (new_keybinds g ++ if fk then filter is_keybind values else [])%list /\
  new_options (post r)
  = (new_options g ++ if fo then filter is_plain_option values else [])%list /\
  new_hooks (post r) = (new_hooks g ++ if fh then filter is_hook values else [])%list /\
  new_commands (post r)
  = (new_commands g ++ if fc then filter is_command values else [])%list /\
  trace r = if fo then flat_map (group_warning module) values else [].
Proof.
  intros module fk fo fh fc members. cbv zeta.
  induction members as [ | [name v] members IH ]; intros g.
  - destruct fk, fo, fh, fc; simpl; rewrite ?app_nil_r; repeat split; reflexivity.
  - simpl map. simpl do_all.
    assert (Hstep : raised (search_member module fk fo fh fc v g) = None).
    { unfold search_member.
      destruct v as [ | | | | | | | o | | | | ]; try reflexivity;
        try (destruct fk; reflexivity); try (destruct fh; reflexivity);
        try (destruct fc; reflexivity).
      destruct o; destruct fo; reflexivity. }
    rewrite (seq_returned _ _ _ Hstep). simpl.
    destruct (IH (post (search_member module fk fo fh fc v g)))
      as (I1 & I2 & I3 & I4 & I5 & I6).
    rewrite I1, I2, I3, I4, I5, I6. split; [ reflexivity | ].
    unfold search_member.
    destruct v as [ | | | | | | kb | o | hk | cm | | ]; simpl;
      try (destruct fk, fo, fh, fc; simpl; rewrite ?app_nil_r, <- ?app_assoc;
           repeat split; reflexivity).
    destruct o; destruct fk, fo, fh, fc; simpl; rewrite ?app_nil_r, <- ?app_assoc;
      repeat split; reflexivity.
Qed.

Lemma assign_found_get : forall find found field g key,
  ns_get (assign_found find found field g) key =
  if String.eqb key field && find && (match found with [] => false | _ => true end)
  then Some (PSeq found)
  else ns_get g key.
Proof.
  intros find found field g key. unfold assign_found.
  destruct find; simpl; [ | rewrite andb_false_r; reflexivity ].
  destruct found as [ | x l ]; [ rewrite !andb_false_r; reflexivity | ].
  rewrite ns_get_set, !andb_true_r. reflexivity.
Qed.

Lemma insert_member_In : forall kv x l,
  In x (insert_member kv l) <-> x = kv \/ In x l.
Proof.
  intros kv x l. induction l as [ | y l IH ]; simpl.
  - split; [ intros [H | []]; left; congruence | intros [H | []]; left; congruence ].
  - destruct (String.leb (fst kv) (fst y)); simpl.
    + split; [ intros [H | H]; [ left; congruence | right; exact H ]
             | intros [H | H]; [ left; congruence | right; exact H ] ].
    + rewrite IH. split.
      * intros [H | [H | H]]; auto.
      * intros [H | [H | H]]; auto.
Qed.

Lemma sorted_members_In : forall kv (l : namespace),
  In kv (fold_right insert_member [] l) <-> In kv l.
Proof.
  intros kv l. induction l as [ | y l IH ]; simpl; [ tauto | ].
  rewrite insert_member_In, IH. split; intros [H | H]; auto.
Qed.

(** X21 ([update_fields_with_module_search]): the search never raises.
    A field that was given is kept, the empty list included; a field
    that was not gets the members of the module of its class, in the
    order of [inspect.getmembers], and stays [None] when there is none.
    Groups are never gathered: each gets one warning when the options
    are searched for, and none otherwise.  No other field changes.
    Every variable of the module, and nothing else, is looked at. *)
Theorem module_search_gathers :
  forall module fields k o h c,
    ns_get fields "keybinds" = Some k -> ns_get fields "options" = Some o ->
    ns_get fields "hooks" = Some h -> ns_get fields "commands" = Some c ->
    let r := update_fields_with_module_search module fields in
    let values := map snd (getmembers module) in
    raised r = None /\
    ns_get (post r) "keybinds" = Some (found_or k (filter is_keybind values)) /\
    ns_get (post r) "options" = Some (found_or o (filter is_plain_option values)) /\
    ns_get (post r) "hooks" = Some (found_or h (filter is_hook values)) /\
    ns_get (post r) "commands" = Some (found_or c (filter is_command values)) /\
    trace r = (if is_None o then flat_map (group_warning module) values else []) /\
    (forall key, key <> "keybinds" -> key <> "options" -> key <> "hooks" ->
                 key <> "commands" -> ns_get (post r) key = ns_get fields key) /\
    (forall kv, In kv (getmembers module) <->
                kv = ("__name__", PData (JStr (module_name module)))
                \/ In kv (module_vars module)).
Proof.
  intros module fields k o h c Hk Ho Hh Hc. cbv zeta.
  assert (Hmem : forall kv, In kv (getmembers module) <->
                kv = ("__name__", PData (JStr (module_name module)))
                \/ In kv (module_vars module)).
  { intros kv. unfold getmembers. rewrite sorted_members_In. simpl.
    split; intros [H | H]; auto. }
  unfold update_fields_with_module_search. rewrite Hk, Ho, Hh, Hc. cbv zeta.
  destruct (negb (is_None k || is_None o || is_None h || is_None c)) eqn:Hneed.
  - apply negb_true_iff in Hneed. apply orb_false_iff in Hneed.
    destruct Hneed as [Hneed Hc']. apply orb_false_iff in Hneed.
    destruct Hneed as [Hneed Hh']. apply orb_false_iff in Hneed.
    destruct Hneed as [Hk' Ho'].
    unfold found_or. rewrite Hk', Ho', Hh', Hc'. simpl.
    repeat split; try assumption; try reflexivity; apply Hmem.
  - destruct (search_loop module (is_None k) (is_None o) (is_None h) (is_None c)
                (getmembers module) (mkGathered [] [] [] []))
      as (L1 & L2 & L3 & L4 & L5 & L6).
    simpl in L2, L3, L4, L5. cbv zeta in L6.
    simpl post. simpl trace. simpl raised.
    rewrite L2, L3, L4, L5.
    split; [ exact L1 | ].
    rewrite !assign_found_get. simpl.
    rewrite Hk, Ho, Hh, Hc. unfold found_or.
    split; [ | split; [ | split; [ | split; [ | split; [ exact L6 | split ] ] ] ] ].
    + destruct (is_None k); [ | reflexivity ].
      destruct (filter is_keybind (map snd (getmembers module))); reflexivity.
    + destruct (is_None o); [ | reflexivity ].
      destruct (filter is_plain_option (map snd (getmembers module))); reflexivity.
    + destruct (is_None h); [ | reflexivity ].
      destruct (filter is_hook (map snd (getmembers module))); reflexivity.
    + destruct (is_None c); [ | reflexivity ].
      destruct (filter is_command (map snd (getmembers module))); reflexivity.
    + intros key N1 N2 N3 N4. rewrite !assign_found_get.
      apply String.eqb_neq in N1, N2, N3, N4. rewrite N1, N2, N3, N4. reflexivity.
    + exact Hmem.
Qed.


Lemma take_from_other : forall convert source field key f k,
  k <> field -> ns_get (post (take_from convert source field key f)) k = ns_get f k.
Proof.
  intros convert source field key f k Hk. unfold take_from.
  destruct (ns_get f field) as [v | ]; [ | reflexivity ].
  destruct (is_None v); [ | reflexivity ].
  destruct (py_contains key source) as [e | [ | ]]; try reflexivity.
  destruct (py_getitem source key) as [e | x]; [ reflexivity | ].
  destruct (convert x) as [e | y]; [ reflexivity | ].
  simpl. rewrite ns_get_set. apply String.eqb_neq in Hk. rewrite Hk. reflexivity.
Qed.

Lemma take_games_other : forall sdkmod f k,
  k <> "supported_games" -> ns_get (post (take_games sdkmod f)) k = ns_get f k.
Proof.
  intros sdkmod f k Hk. unfold take_games.
  destruct (ns_get f "supported_games") as [v | ]; [ | reflexivity ].
  destruct (is_None v); [ | reflexivity ].
  destruct (py_contains "supported_games" sdkmod) as [e | [ | ]]; try reflexivity.
  destruct (py_getitem sdkmod "supported_games") as [e | x]; [ reflexivity | ].
  destruct (games_of x) as [e | [g | ]]; try reflexivity.
  simpl. rewrite ns_get_set. apply String.eqb_neq in Hk. rewrite Hk. reflexivity.
Qed.

Lemma take_attribute_other : forall module field attr f k,
  k <> field -> ns_get (post (take_attribute module field attr f)) k = ns_get f k.
Proof.
  intros module field attr f k Hk. unfold take_attribute.
  destruct (ns_get f field) as [v | ]; [ | reflexivity ].
  destruct (is_None v); [ | reflexivity ].
  destruct (getattr module attr) as [e | x].
  - destruct (exception_eqb e AttributeError); reflexivity.
  - simpl. rewrite ns_get_set. apply String.eqb_neq in Hk. rewrite Hk. reflexivity.
Qed.

Lemma steps_other : forall (steps : list (namespace -> outcome namespace)) k,
  (forall s, In s steps -> forall f, ns_get (post (s f)) k = ns_get f k) ->
  forall f, ns_get (post (do_all steps f)) k = ns_get f k.
Proof.
  intros steps k H f.
  apply (do_all_invariant _ (fun a b : namespace => ns_get b k = ns_get a k));
    [ reflexivity | intros a b c H1 H2; congruence | exact H ].
Qed.

(** The tables of [pyproject.toml] have nothing to say about the
    settings file. *)
Lemma pyproject_settings_file : forall toml f,
  ns_get (post (update_fields_with_pyproject toml f)) "settings_file"
  = ns_get f "settings_file".
Proof.
  intros toml f. unfold update_fields_with_pyproject, seq.
  assert (Ht : forall sdkmod g,
            ns_get (post (update_fields_with_pyproject_tool_sdkmod sdkmod g))
                   "settings_file" = ns_get g "settings_file").
  { intros sdkmod. unfold update_fields_with_pyproject_tool_sdkmod.
    apply steps_other. intros s Hs g. simpl in Hs.
    repeat (destruct Hs as [<- | Hs];
            [ first [ apply take_from_other; discriminate
                    | apply take_games_other; discriminate ] | ]).
    contradiction. }
  assert (Hp : forall project g,
            ns_get (post (update_fields_with_pyproject_project project g))
                   "settings_file" = ns_get g "settings_file").
  { intros project. unfold update_fields_with_pyproject_project.
    apply steps_other. intros s Hs g. simpl in Hs.
    repeat (destruct Hs as [<- | Hs]; [ apply take_from_other; discriminate | ]).
    contradiction. }
  assert (H1 : ns_get
                 (post match dict_get toml "tool" with
                       | Some tool =>
                           match py_contains "sdkmod" tool with
                           | inl e => throw e f
                           | inr true =>
                               match py_getitem tool "sdkmod" with
                               | inl e => throw e f
                               | inr sdkmod =>
                                   update_fields_with_pyproject_tool_sdkmod sdkmod f
                               end
                           | inr false => ret f
                           end
                       | None => ret f
                       end) "settings_file" = ns_get f "settings_file").
  { destruct (dict_get toml "tool") as [tool | ]; [ | reflexivity ].
    destruct (py_contains "sdkmod" tool) as [e | [ | ]]; try reflexivity.
    destruct (py_getitem tool "sdkmod") as [e | sdkmod]; [ reflexivity | apply Ht ]. }
  match goal with
  | |- ns_get (post (match raised ?r with _ => _ end)) _ = _ =>
      destruct (raised r); [ exact H1 | ]
  end.
  simpl. destruct (dict_get toml "project") as [project | ]; [ | exact H1 ].
  rewrite Hp. exact H1.
Qed.

Lemma do_all_cons_returns : forall A (s : A -> outcome A) steps a,
  raised (do_all (s :: steps) a) = None ->
  raised (s a) = None /\ raised (do_all steps (post (s a))) = None /\
  post (do_all (s :: steps) a) = post (do_all steps (post (s a))).
Proof. intros A s steps a H. simpl in *. apply seq_returns. exact H. Qed.

(** After the module attributes the name and the settings file are
    set. *)
Lemma attributes_sets : forall module f,
  raised (update_fields_with_module_attributes module f) = None ->
  (exists v, ns_get (post (update_fields_with_module_attributes module f)) "name"
             = Some v /\ is_None v = false) /\
  exists s,
    ns_get f "settings_file" = Some s /\
    ns_get (post (update_fields_with_module_attributes module f)) "settings_file"
    = Some (or_else s (PPath (InSettingsDir (module_name module ++ ".json")))).
Proof.
  intros module f Hr. unfold update_fields_with_module_attributes in *.
  split.
  - apply do_all_cons_returns in Hr. destruct Hr as (R1 & _ & _).
    assert (H1 : exists v, ns_get (post (take_attribute module "name" "__name__" f))
                                  "name" = Some v /\ is_None v = false).
    { revert R1. unfold take_attribute.
      destruct (ns_get f "name") as [v | ] eqn:Hn; [ | discriminate ].
      destruct (is_None v) eqn:Hv.
      - simpl. intros _. eexists. rewrite ns_get_set. split; reflexivity.
      - intros _. exists v. split; assumption. }
    destruct H1 as (v & Hv & Hnone). exists v. split; [ | exact Hnone ].
    change (do_all (take_attribute module "name" "__name__"
                    :: ?rest) f) with
      (seq (take_attribute module "name" "__name__" f) (do_all rest)).
    simpl do_all. rewrite (seq_returned _ _ _ R1). simpl post.
    apply (steps_keep [take_attribute module "author" "__author__";
                       take_attribute module "version" "__version__";
                       take_attribute module "on_enable" "on_enable";
                       take_attribute module "on_disable" "on_disable";
                       default_settings_file module]); [ | exact Hv | exact Hnone ].
    intros s Hs g. simpl in Hs.
    repeat (destruct Hs as [<- | Hs];
          [ first [ apply take_attribute_keeps | apply default_settings_file_keeps ] | ]).
    contradiction.
  - apply do_all_cons_returns in Hr. destruct Hr as (_ & Hr & ->).
    assert (E1 : ns_get (post (take_attribute module "name" "__name__" f))
                        "settings_file" = ns_get f "settings_file")
      by (apply take_attribute_other; discriminate).
    apply do_all_cons_returns in Hr. destruct Hr as (_ & Hr & ->).
    match type of Hr with
    | raised (do_all _ ?g) = None =>
        assert (E2 : ns_get g "settings_file" = ns_get f "settings_file")
          by (rewrite take_attribute_other by discriminate; exact E1)
    end.
    apply do_all_cons_returns in Hr. destruct Hr as (_ & Hr & ->).
    match type of Hr with
    | raised (do_all _ ?g) = None =>
        assert (E3 : ns_get g "settings_file" = ns_get f "settings_file")
          by (rewrite take_attribute_other by discriminate; exact E2)
    end.
    apply do_all_cons_returns in Hr. destruct Hr as (_ & Hr & ->).
    match type of Hr with
    | raised (do_all _ ?g) = None =>
        assert (E4 : ns_get g "settings_file" = ns_get f "settings_file")
          by (rewrite take_attribute_other by discriminate; exact E3)
    end.
    apply do_all_cons_returns in Hr. destruct Hr as (_ & Hr & ->).
    match type of Hr with
    | raised (do_all _ ?g) = None =>
        assert (E5 : ns_get g "settings_file" = ns_get f "settings_file")
          by (rewrite take_attribute_other by discriminate; exact E4);
        set (g5 := g) in *
    end.
    apply do_all_cons_returns in Hr. destruct Hr as (R6 & _ & ->).
    simpl do_all. simpl post. revert R6. unfold default_settings_file.
    rewrite E5. destruct (ns_get f "settings_file") as [s | ]; [ | discriminate ].
    intros _. exists s. split; [ reflexivity | ].
    unfold or_else. destruct (is_None s); simpl; [ | exact E5 ].
    rewrite ns_get_set. reflexivity.
Qed.

Lemma ns_get_In : forall f k v, ns_get f k = Some v -> In (k, v) f.
Proof.
  induction f as [ | [k0 v0] f IH ]; intros k v H; simpl in *; [ discriminate H | ].
  destruct (String.eqb k k0) eqn:E.
  - apply String.eqb_eq in E. subst k0. injection H as ->. left. reflexivity.
  - right. apply IH. exact H.
Qed.

Lemma ns_get_unique : forall f k v,
  NoDup (map fst f) -> In (k, v) f -> ns_get f k = Some v.
Proof.
  induction f as [ | [k0 v0] f IH ]; intros k v Hnd Hin; [ contradiction | ].
  simpl in *. inversion Hnd as [ | ? ? Hx Hnd' ]; subst.
  destruct Hin as [H | Hin].
  - injection H as -> ->. rewrite String.eqb_refl. reflexivity.
  - destruct (String.eqb k k0) eqn:E; [ | apply IH; assumption ].
    apply String.eqb_eq in E. subst k0. exfalso. apply Hx.
    change k with (fst (k, v)). apply in_map. exact Hin.
Qed.

Lemma filter_keys_NoDup : forall (p : string * PyObj -> bool) f,
  NoDup (map fst f) -> NoDup (map fst (filter p f)).
Proof.
  induction f as [ | [k0 v0] f IH ]; intros H; simpl; [ constructor | ].
  inversion H as [ | ? ? Hx Hnd ]; subst.
  destruct (p (k0, v0)); simpl; [ | apply IH; exact Hnd ].
  constructor; [ | apply IH; exact Hnd ].
  intros Hin. apply Hx. apply in_map_iff in Hin. destruct Hin as ([k v] & Hk & Hin).
  apply filter_In in Hin. apply in_map_iff. exists (k, v). split; [ exact Hk | apply Hin ].
Qed.

Lemma inject_version_name : forall parser f module,
  module_name (post (inject_version parser f module)) = module_name module.
Proof.
  intros parser f module. unfold inject_version, seq.
  assert (H1 : module_name
                 (post (if hasattr module "__version__" then ret module
                        else match ns_get f "version" with
                             | Some v => if is_None v then ret module
                                         else ret (setattr module "__version__" v)
                             | None => throw KeyError module
                             end)) = module_name module).
  { destruct (hasattr module "__version__"); [ reflexivity | ].
    destruct (ns_get f "version") as [v | ]; [ | reflexivity ].
    destruct (is_None v); reflexivity. }
  match goal with
  | |- module_name (post (match raised ?r with _ => _ end)) = _ =>
      destruct (raised r); [ exact H1 | ]; set (m1 := post r) in *
  end.
  simpl. rewrite <- H1.
  destruct (hasattr m1 "__version_info__"); [ reflexivity | ].
  destruct (ns_get f "_version_info") as [v | ]; [ | reflexivity ].
  destruct (is_None v); [ reflexivity | ].
  destruct (parser v); reflexivity.
Qed.

Lemma field_names_NoDup : NoDup field_names.
Proof.
  unfold field_names.
  repeat (constructor; [ simpl; intuition discriminate | ]). constructor.
Qed.

(** What [gather_fields] leaves when it returns. *)
Lemma gather_fields_returns : forall inject parser toml module f,
  raised (gather_fields inject parser toml module f) = None ->
  let final := snd (post (gather_fields inject parser toml module f)) in
  (exists v, ns_get final "name" = Some v /\ is_None v = false) /\
  exists s,
    ns_get f "settings_file" = Some s /\
    ns_get final "settings_file"
    = Some (or_else s (PPath (InSettingsDir (module_name module ++ ".json")))).
Proof.
  intros inject parser toml module f Hr. cbv zeta. unfold gather_fields in *.
  apply do_all_cons_returns in Hr. destruct Hr as (R1 & Hr & ->).
  apply do_all_cons_returns in Hr. destruct Hr as (R2 & Hr & ->).
  apply do_all_cons_returns in Hr. destruct Hr as (R3 & Hr & ->).
  apply do_all_cons_returns in Hr. destruct Hr as (R4 & _ & ->).
  simpl do_all. simpl post.
  set (f1 := post (update_fields_with_pyproject toml f)) in *.
  simpl in R2, R3, R4 |- *.
  set (s2 := post (if inject
                   then lift (fun m => (m, f1)) (inject_version parser f1 module)
                   else ret (module, f1))) in *.
  assert (Hs2 : snd s2 = f1 /\ module_name (fst s2) = module_name module).
  { unfold s2. destruct inject; simpl; [ | split; reflexivity ].
    split; [ reflexivity | apply inject_version_name ]. }
  destruct Hs2 as [Hf2 Hm2].
  destruct (attributes_sets (fst s2) (snd s2) R3) as ((v & Hv & Hnone) & (s & Hs & Hset)).
  set (f3 := post (update_fields_with_module_attributes (fst s2) (snd s2))) in *.
  pose proof (search_keeps (fst s2) f3) as [_ Hkeep].
  split.
  - exists v. split; [ apply Hkeep; assumption | exact Hnone ].
  - exists s. split.
    + rewrite <- Hs, Hf2. unfold f1. symmetry. apply pyproject_settings_file.
    + rewrite <- Hm2. apply Hkeep; [ exact Hset | ].
      unfold or_else. destruct (is_None s) eqn:E; [ reflexivity | exact E ].
Qed.

(** X22 ([build_mod]: the keyword arguments of the mod class): the
    fields that are [None] when all has been gathered, and the private
    field [_version_info], are not passed at all, so that the class
    uses its own default; every other field is passed as it is.  The
    name and the settings file are always passed: the settings file is
    the one given, and otherwise the file named after the module in the
    settings directory. *)
Theorem build_mod_keyword_arguments :
  forall inject parser toml_data module fields kw,
    map fst fields = field_names ->
    build_mod_kwargs inject parser toml_data module fields = Ok kw ->
    let final := snd (post (gather_fields inject parser toml_data module fields)) in
    (forall k v, In (k, v) kw ->
       is_None v = false /\ prefix "_" k = false /\ In k field_names) /\
    (forall k v, ns_get final k = Some v ->
       ns_get kw k = if is_None v || prefix "_" k then None else Some v) /\
    ns_get kw "_version_info" = None /\
    (exists v, ns_get kw "name" = Some v) /\
    (exists s,
       ns_get fields "settings_file" = Some s /\
       ns_get kw "settings_file"
       = Some (or_else s (PPath (InSettingsDir (module_name module ++ ".json"))))).
Proof.
  intros inject parser toml module fields kw Hkeys Hb. cbv zeta.
  unfold build_mod_kwargs in Hb. cbv zeta in Hb.
  destruct (raised (gather_fields inject parser toml module fields)) eqn:Hr;
    [ discriminate Hb | ].
  injection Hb as <-.
  destruct (gather_fields_keeps inject parser toml module fields) as [Hk _].
  set (final := snd (post (gather_fields inject parser toml module fields))) in *.
  assert (Hnd : NoDup (map fst final)).
  { rewrite Hk, Hkeys. apply field_names_NoDup. }
  assert (Hget : forall k v, ns_get final k = Some v ->
            ns_get (kwargs_of final) k
            = if is_None v || prefix "_" k then None else Some v).
  { intros k v Hv. unfold kwargs_of.
    destruct (is_None v || prefix "_" k) eqn:E.
    - destruct (ns_get (filter _ final) k) as [w | ] eqn:Hw; [ | reflexivity ].
      exfalso. apply ns_get_In in Hw. apply filter_In in Hw. destruct Hw as [Hin Hp].
      apply (ns_get_unique final k w Hnd) in Hin. rewrite Hv in Hin.
      injection Hin as <-. simpl in Hp. rewrite <- negb_orb, E in Hp. discriminate Hp.
    - apply ns_get_filter; [ exact Hv | ]. simpl. rewrite <- negb_orb, E. reflexivity. }
  destruct (gather_fields_returns inject parser toml module fields Hr)
    as ((v & Hv & Hnone) & (s & Hs & Hset)).
  fold final in Hv, Hset.
  split; [ | split; [ exact Hget | split; [ | split ] ] ].
  - intros k w Hin. unfold kwargs_of in Hin. apply filter_In in Hin.
    destruct Hin as [Hin Hp]. simpl in Hp. apply andb_prop in Hp.
    destruct Hp as [Hp1 Hp2]. apply negb_true_iff in Hp1, Hp2.
    split; [ exact Hp1 | ]. split; [ exact Hp2 | ].
    rewrite <- Hkeys, <- Hk. change k with (fst (k, w)). apply in_map. exact Hin.
  - destruct (ns_get final "_version_info") as [w | ] eqn:Hw.
    + rewrite (Hget _ _ Hw). simpl. rewrite orb_true_r. reflexivity.
    + destruct (ns_get (kwargs_of final) "_version_info") as [w | ] eqn:Hw';
        [ | reflexivity ].
      apply ns_get_In in Hw'. unfold kwargs_of in Hw'. apply filter_In in Hw'.
      destruct Hw' as [Hin _]. apply (ns_get_unique final _ _ Hnd) in Hin. congruence.
  - exists v. rewrite (Hget _ _ Hv), Hnone. reflexivity.
  - exists s. split; [ exact Hs | ]. rewrite (Hget _ _ Hset).
    assert (E : is_None (or_else s (PPath (InSettingsDir (module_name module ++ ".json"))))
                = false).
    { unfold or_else. destruct (is_None s) eqn:E; [ reflexivity | exact E ]. }
    rewrite E. reflexivity.
Qed.

(** ** The version of the project *)

Lemma rev_string_In : forall s acc c,
  In c (list_ascii_of_string (rev_string s acc)) <->
  In c (list_ascii_of_string s) \/ In c (list_ascii_of_string acc).
Proof.
  induction s as [ | x s IH ]; intros acc c; simpl.
  - tauto.
  - rewrite IH. simpl. tauto.
Qed.

Lemma c_lstrip_In : forall s c,
  In c (list_ascii_of_string s) -> is_c_space c = false ->
  In c (list_ascii_of_string (c_lstrip s)).
Proof.
  induction s as [ | x s IH ]; intros c Hin Hc; simpl in *; [ contradiction | ].
  destruct (is_c_space x) eqn:Hx.
  - destruct Hin as [-> | Hin]; [ congruence | ]. apply IH; assumption.
  - exact Hin.
Qed.

Lemma c_strip_In : forall s c,
  In c (list_ascii_of_string s) -> is_c_space c = false ->
  In c (list_ascii_of_string (c_strip s)).
Proof.
  intros s c Hin Hc. unfold c_strip.
  apply rev_string_In. left. apply c_lstrip_In; [ | exact Hc ].
  apply rev_string_In. left. apply c_lstrip_In; assumption.
Qed.

(** The digits stop at a character that is neither a digit nor an
    underscore. *)
Lemma digits_tail_stops : forall n s acc k c,
  (String.length s <= n)%nat ->
  In c (list_ascii_of_string s) -> is_digit c = false -> c <> "_"%char ->
  snd (digits_tail s acc k) <> EmptyString.
Proof.
  induction n as [ | n IH ]; intros s acc k c Hlen Hin Hd Hu.
  - destruct s; [ contradiction | simpl in Hlen; inversion Hlen ].
  - destruct s as [ | x s ]; [ contradiction | ]. simpl in Hlen.
    cbn [digits_tail].
    destruct (is_digit x) eqn:Hx.
    + destruct Hin as [-> | Hin]; [ congruence | ].
      apply (IH s _ _ c); [ apply le_S_n; exact Hlen | assumption .. ].
    + destruct (Ascii.eqb x "_") eqn:Hx'; [ | discriminate ].
      apply Ascii.eqb_eq in Hx'. subst x.
      destruct Hin as [Heq | Hin]; [ congruence | ].
      destruct s as [ | y s ]; [ contradiction | ].
      destruct (is_digit y) eqn:Hy; [ | discriminate ].
      destruct Hin as [-> | Hin]; [ congruence | ].
      apply (IH s _ _ c); [ simpl in Hlen; apply le_S_n in Hlen;
                            apply Nat.le_trans with (S (String.length s));
                            [ apply Nat.le_succ_diag_r | exact Hlen ]
                          | assumption .. ].
Qed.

(** [int] raises nothing but a [ValueError] on a string. *)
Lemma py_int_of_string_error : forall s e, py_int_of_string s = Raise e -> e = ValueError.
Proof.
  intros s e. unfold py_int_of_string.
  destruct (all_ascii s);
    [ | destruct (unicode_int s); intros H;
        [ discriminate H | injection H as <-; reflexivity ] ].
  unfold int_of_ascii.
  destruct (parse_sign (c_strip s)) as [neg body].
  destruct (digitpart body) as [[[v n] rest] | ]; [ | intros H; injection H as <-; reflexivity ].
  destruct rest; [ | intros H; injection H as <-; reflexivity ].
  destruct (4300 <? n); intros H; [ injection H as <-; reflexivity | discriminate H ].
Qed.

Lemma py_int_of_string_bad : forall s c,
  all_ascii s = true ->
  In c (list_ascii_of_string s) ->
  is_digit c = false -> c <> "_"%char -> c <> "+"%char -> c <> "-"%char ->
  is_c_space c = false ->
  py_int_of_string s = Raise ValueError.
Proof.
  intros s c Ha Hin Hd Hu Hp Hm Hs. unfold py_int_of_string. rewrite Ha.
  unfold int_of_ascii.
  pose proof (c_strip_In s c Hin Hs) as Hin'.
  destruct (parse_sign (c_strip s)) as [neg body] eqn:Hsign.
  assert (Hbody : In c (list_ascii_of_string body)).
  { unfold parse_sign in Hsign. destruct (c_strip s) as [ | x t ]; [ contradiction | ].
    destruct (Ascii.eqb x "-") eqn:E1.
    - apply Ascii.eqb_eq in E1. subst x. injection Hsign as _ <-.
      destruct Hin' as [H | H]; [ congruence | exact H ].
    - destruct (Ascii.eqb x "+") eqn:E2.
      + apply Ascii.eqb_eq in E2. subst x. injection Hsign as _ <-.
        destruct Hin' as [H | H]; [ congruence | exact H ].
      + assert (Hb : body = String x t).
        { apply Ascii.eqb_neq in E1, E2.
          destruct x as [[] [] [] [] [] [] [] []]; try (injection Hsign as _ <-; reflexivity);
            first [ exfalso; apply E1; reflexivity | exfalso; apply E2; reflexivity ]. }
        rewrite Hb. exact Hin'. }
  destruct body as [ | x t ]; [ contradiction | ].
  unfold digitpart. destruct (is_digit x) eqn:Hx; [ | reflexivity ].
  destruct Hbody as [-> | Ht]; [ congruence | ].
  pose proof (digits_tail_stops (String.length t) t (digit_val x) 1 c
                (Nat.le_refl _) Ht Hd Hu) as Hrest.
  destruct (digits_tail t (digit_val x) 1) as [[v n] rest]. simpl in Hrest.
  destruct rest; [ contradiction | reflexivity ].
Qed.

Lemma split_on_not_nil : forall sep s, split_on sep s <> [].
Proof.
  intros sep s. induction s as [ | c s IH ]; simpl; [ discriminate | ].
  destruct (Ascii.eqb c sep); [ discriminate | ].
  destruct (split_on sep s); discriminate.
Qed.

Lemma split_on_In : forall sep s c,
  In c (list_ascii_of_string s) -> c <> sep ->
  exists x, In x (split_on sep s) /\ In c (list_ascii_of_string x).
Proof.
  intros sep s c. induction s as [ | y s IH ]; intros Hin Hc; [ contradiction | ].
  simpl. destruct (Ascii.eqb y sep) eqn:E.
  - apply Ascii.eqb_eq in E. subst y.
    destruct Hin as [H | Hin]; [ congruence | ].
    destruct (IH Hin Hc) as (x & Hx & Hcx). exists x. split; [ right; exact Hx | exact Hcx ].
  - destruct (split_on sep s) as [ | x l ] eqn:Hsplit.
    + exfalso. apply (split_on_not_nil sep s). exact Hsplit.
    + destruct Hin as [-> | Hin].
      * exists (String c x). split; [ left; reflexivity | left; reflexivity ].
      * destruct (IH Hin Hc) as (x' & [<- | Hx'] & Hcx).
        -- exists (String y x). split; [ left; reflexivity | right; exact Hcx ].
        -- exists x'. split; [ right; exact Hx' | exact Hcx ].
Qed.

Lemma split_on_ascii : forall sep s x,
  all_ascii s = true -> In x (split_on sep s) -> all_ascii x = true.
Proof.
  intros sep s. induction s as [ | y s IH ]; intros x Ha Hin.
  - destruct Hin as [<- | []]. reflexivity.
  - simpl in Ha. apply andb_prop in Ha. destruct Ha as [Hy Hs].
    simpl in Hin. destruct (Ascii.eqb y sep).
    + destruct Hin as [<- | Hin]; [ reflexivity | apply IH; assumption ].
    + destruct (split_on sep s) as [ | x' l ] eqn:Hsplit.
      * destruct Hin as [<- | []]. simpl. rewrite Hy. reflexivity.
      * destruct Hin as [<- | Hin].
        -- simpl. rewrite Hy. apply IH; [ exact Hs | left; reflexivity ].
        -- apply IH; [ exact Hs | right; exact Hin ].
Qed.

Lemma ints_of_error : forall l e, ints_of l = Raise e -> e = ValueError.
Proof.
  induction l as [ | x l IH ]; intros e H; simpl in H; [ discriminate H | ].
  destruct (py_int_of_string x) as [e' | z] eqn:E.
  - injection H as <-. apply (py_int_of_string_error x). exact E.
  - destruct (ints_of l) as [e' | zs]; [ | discriminate H ].
    injection H as <-. apply IH. reflexivity.
Qed.

Lemma ints_of_bad : forall l x,
  In x l -> py_int_of_string x = Raise ValueError -> ints_of l = Raise ValueError.
Proof.
  induction l as [ | y l IH ]; intros x Hin Hx; [ contradiction | ].
  destruct (ints_of (y :: l)) as [e | zs] eqn:E.
  - rewrite (ints_of_error _ _ E). reflexivity.
  - exfalso. simpl in E.
    destruct (py_int_of_string y) as [e | z] eqn:Ey; [ discriminate E | ].
    destruct Hin as [-> | Hin]; [ rewrite Hx in Ey; discriminate Ey | ].
    rewrite (IH x Hin Hx) in E. discriminate E.
Qed.

Lemma hasattr_setattr_other : forall module attr v attr',
  attr' <> attr -> hasattr (setattr module attr v) attr' = hasattr module attr'.
Proof.
  intros module attr v attr' H. unfold hasattr, getattr, setattr. simpl.
  destruct (String.eqb attr' "__name__"); [ reflexivity | ].
  rewrite ns_get_set. apply String.eqb_neq in H. rewrite H. reflexivity.
Qed.

(** X23 (the default [version_info_parser] of [build_mod], and the
    injection of [__version_info__]): the default parser accepts only
    a string whose parts between the dots are read by [int].  An ASCII
    version with a character that is not a digit, a dot, an
    underscore, a sign or one of the whitespace characters that [int]
    skips (9 to 13 and 32), such as a letter in a release candidate,
    raises a [ValueError], and so does any version with an empty part;
    a version string raises nothing but a [ValueError]; a version that
    is not a string raises an [AttributeError].  When the version
    is injected and the module has no [__version_info__] of its own,
    such a [project.version] makes [build_mod] raise, before the module
    is looked at; when the version is not injected the parser is not
    called at all. *)
Theorem version_info_parser_default :
  (forall s c,
     all_ascii s = true ->
     In c (list_ascii_of_string s) ->
     is_digit c = false -> c <> "."%char -> c <> "_"%char -> c <> "+"%char ->
     c <> "-"%char -> is_c_space c = false ->
     default_version_info_parser (PData (JStr s)) = Raise ValueError) /\
  (forall s, In EmptyString (split_on "." s) ->
     default_version_info_parser (PData (JStr s)) = Raise ValueError) /\
  (forall s e, default_version_info_parser (PData (JStr s)) = Raise e -> e = ValueError) /\
  (forall v, (forall s, v <> PData (JStr s)) ->
     default_version_info_parser v = Raise AttributeError) /\
  (forall parser toml_data module fields v e,
     raised (update_fields_with_pyproject toml_data fields) = None ->
     ns_mem fields "version" = true ->
     ns_get (post (update_fields_with_pyproject toml_data fields)) "_version_info"
     = Some v ->
     is_None v = false ->
     hasattr module "__version_info__" = false ->
     parser v = Raise e ->
     raised (gather_fields true parser toml_data module fields) = Some e /\
     snd (post (gather_fields true parser toml_data module fields))
     = post (update_fields_with_pyproject toml_data fields) /\
     build_mod_kwargs true parser toml_data module fields = Raise e) /\
  (forall parser parser' toml_data module fields,
     gather_fields false parser toml_data module fields
     = gather_fields false parser' toml_data module fields).
Proof.
  split; [ | split; [ | split; [ | split; [ | split ] ] ] ].
  - intros s c Ha Hin Hd Hdot Hu Hp Hm Hs. unfold default_version_info_parser.
    destruct (split_on_In "." s c Hin Hdot) as (x & Hx & Hcx).
    rewrite (ints_of_bad _ x Hx
               (py_int_of_string_bad x c (split_on_ascii "." s x Ha Hx)
                                     Hcx Hd Hu Hp Hm Hs)).
    reflexivity.
  - intros s Hin. unfold default_version_info_parser.
    rewrite (ints_of_bad _ EmptyString Hin eq_refl). reflexivity.
  - intros s e H. unfold default_version_info_parser in H.
    destruct (ints_of (split_on "." s)) as [e' | zs] eqn:E; [ | discriminate H ].
    injection H as <-. apply (ints_of_error _ _ E).
  - intros v Hv. destruct v as [ j | | | | | | | | | | | ]; try reflexivity.
    destruct j; try reflexivity. exfalso. apply (Hv s). reflexivity.
  - intros parser toml module fields v e R1 Hver Hvi Hnone Hattr Hparse.
    assert (Hkeys : ns_mem (post (update_fields_with_pyproject toml fields)) "version"
                    = true).
    { rewrite (ns_mem_keys fields _ "version"); [ exact Hver | ].
      apply pyproject_keeps. }
    set (f1 := post (update_fields_with_pyproject toml fields)) in *.
    assert (Hinj : raised (inject_version parser f1 module) = Some e).
    { unfold inject_version.
      assert (Hfirst : exists m1,
                (if hasattr module "__version__" then ret module
                 else match ns_get f1 "version" with
                      | Some v0 => if is_None v0 then ret module
                                   else ret (setattr module "__version__" v0)
                      | None => throw KeyError module
                      end) = ret m1 /\
                hasattr m1 "__version_info__" = false).
      { destruct (hasattr module "__version__").
        - exists module. split; [ reflexivity | exact Hattr ].
        - unfold ns_mem in Hkeys. destruct (ns_get f1 "version") as [w | ];
            [ | discriminate Hkeys ].
          destruct (is_None w).
          + exists module. split; [ reflexivity | exact Hattr ].
          + exists (setattr module "__version__" w). split; [ reflexivity | ].
            rewrite hasattr_setattr_other by discriminate. exact Hattr. }
      destruct Hfirst as (m1 & -> & Hm1).
      unfold seq. simpl. rewrite Hm1, Hvi, Hnone, Hparse. reflexivity. }
    assert (Hg : raised (gather_fields true parser toml module fields) = Some e /\
                 snd (post (gather_fields true parser toml module fields)) = f1).
    { unfold gather_fields. simpl do_all.
      assert (Rl : raised (lift (pair module) (update_fields_with_pyproject toml fields))
                   = None) by exact R1.
      rewrite (seq_returned _ _ _ Rl). simpl.
      fold f1.
      assert (R2 : raised (lift (fun m => (m, f1)) (inject_version parser f1 module))
                   = Some e) by exact Hinj.
      rewrite (seq_stops _ _ _ e R2). simpl. rewrite Hinj. split; reflexivity. }
    destruct Hg as [Hg1 Hg2]. split; [ exact Hg1 | ]. split; [ exact Hg2 | ].
    unfold build_mod_kwargs. cbv zeta. rewrite Hg1. reflexivity.
  - intros parser parser' toml module fields. reflexivity.
Qed.

(** ** Sliders that are not integers *)

(** X24 ([SliderOption.__post_init__]): once the step has passed its
    check, a slider that is not integer-flagged is constructed whatever
    its value, without a warning.  An integer-flagged one (the default)
    is constructed with a warning when its value is a float that is not
    integral, and it cannot be constructed at all with a value that is
    not finite: [int] raises a [ValueError] on a NaN and an
    [OverflowError] on an infinity, and the exception escapes from the
    constructor. *)
Theorem slider_init_float_value :
  forall id lo hi st display descr title hidden cb range,
    num_sub hi lo = Ok range -> num_gtb st range = false ->
    (forall v,
       SliderOption_init id v lo hi st false display descr title hidden cb
       = Ok (SliderOption (ValueOption_init
                             (BaseOption_post_init id display descr title hidden)
                             (number_json v) cb) lo hi st false, [])) /\
    (forall f,
       num_ne_int (NFloat f) = Ok true ->
       SliderOption_init id (NFloat f) lo hi st true display descr title hidden cb
       = Ok (SliderOption (ValueOption_init
                             (BaseOption_post_init id display descr title hidden)
                             (JFloat f) cb) lo hi st true,
             [EvWarn integer_warning_message])) /\
    SliderOption_init id (NFloat S754_nan) lo hi st true display descr title hidden cb
    = Raise ValueError /\
    (forall s,
       SliderOption_init id (NFloat (S754_infinity s)) lo hi st true display descr
                         title hidden cb
       = Raise OverflowError).
Proof.
  intros id lo hi st display descr title hidden cb range Hsub Hgt.
  unfold SliderOption_init. rewrite Hsub. unfold Ok, Raise. cbv iota beta zeta.
  rewrite Hgt. split; [ reflexivity | ]. split; [ | split; reflexivity ].
  intros f Hf. cbn [any_ne_int]. rewrite Hf. reflexivity.
Qed.

End Codec.

(** * Closed instances

    The statements above at the sample options, documents and mods,
    with the sample instances of the parameters. *)

Module Examples.

Lemma round_trip_witness :
  raised (from_json
      sample_unicode_strip sample_unicode_float sample_float_repr sample_str_repr
      volume (JInt 5)) = None.
Proof.
  refine (proj1 (to_json_from_json_round_trip
      sample_unicode_strip sample_unicode_float sample_float_repr sample_str_repr
                   volume (JInt 5) _ I eq_refl)).
  simpl. eexists. split; reflexivity.
Defined.

(** The claim C2 as stated fails: 2**53 + 1 is an integral value of an
    integer-flagged slider, within its range and accepted by the
    constructor without a warning, yet serializing it and reading it
    back leaves 2**53, because [float] rounds it. *)
Lemma integral_value_not_restored :
  SliderOption_init "ticks" (NInt (2 ^ 53 + 1)) (NInt 0) (NInt (2 ^ 54)) (NInt 1) true
                    None "" None false None = Ok (ticks, []) /\
  to_json ticks = Some (JInt (2 ^ 53 + 1)) /\
  raised (from_json
      sample_unicode_strip sample_unicode_float sample_float_repr sample_str_repr
      ticks (JInt (2 ^ 53 + 1))) = None /\
  option_value (post (from_json
      sample_unicode_strip sample_unicode_float sample_float_repr sample_str_repr
      ticks
                                (JInt (2 ^ 53 + 1))))
  = Some (JInt (2 ^ 53)) /\
  num_eqb (JInt (2 ^ 53)) (JInt (2 ^ 53 + 1)) = Some false.
Proof. repeat split. Qed.



Lemma exact_match_witness :
  post (from_json
      sample_unicode_strip sample_unicode_float sample_float_repr sample_str_repr
      mode (JStr "c"))
  = option_with_value mode (JStr "c") /\
  post (from_json
      sample_unicode_strip sample_unicode_float sample_float_repr sample_str_repr
      mode (JStr "C")) = mode.
Proof.
  pose proof (proj1 (choice_from_json_exact_match
      sample_unicode_strip sample_unicode_float sample_float_repr sample_str_repr
      )
                    mode (ValueOption_init (base_of "mode") (JStr "b") None)
                    ["a"; "b"; "c"] (JStr "c") eq_refl eq_refl) as Hc.
  pose proof (proj1 (choice_from_json_exact_match
      sample_unicode_strip sample_unicode_float sample_float_repr sample_str_repr
      )
                    mode (ValueOption_init (base_of "mode") (JStr "b") None)
                    ["a"; "b"; "c"] (JStr "C") eq_refl eq_refl) as HC.
  split.
  - refine (proj1 (proj2 (proj1 Hc _ I))).
    right. right. left. reflexivity.
  - rewrite (proj1 (proj2 HC)); [ reflexivity | ].
    intros [H | [H | [H | []]]]; discriminate H.
Defined.

Lemma absent_untouched_witness :
  nth_error (post (load_options_dict
      sample_unicode_strip sample_unicode_float sample_float_repr sample_str_repr
                     [mode; volume] (JDict [("volume", JInt 3)]))) 0
  = Some mode.
Proof.
  refine (proj1 (absent_identifiers_untouched
      sample_unicode_strip sample_unicode_float sample_float_repr sample_str_repr
                   [("volume", JInt 3)] [mode; volume]) 0%nat mode _ _);
    reflexivity.
Defined.

Lemma save_removes_file_witness :
  default_save_mod_settings bare_mod sample_fs "bare.json" = Missing.
Proof.
  refine (proj2 (proj1 (proj1 (proj2 (proj2 (proj2 (proj2
            (save_writes_sections_or_removes_file bare_mod)))))
            sample_fs "bare.json" eq_refl) _)).
  repeat split.
  - intros (o & [<- | []] & H). now apply H.
  - intros (kb & [<- | []] & H). discriminate H.
Defined.

Lemma enable_last_witness :
  In EvEnable (trace (default_load_mod_settings
      sample_unicode_strip sample_unicode_float sample_float_repr sample_str_repr
                        sample_mod sample_fs)).
Proof.
  refine (proj2 (enable_is_last_step_of_load
      sample_unicode_strip sample_unicode_float sample_float_repr sample_str_repr
                   sample_mod sample_fs) _ _ _);
    reflexivity.
Defined.

(** The claim C7 as stated fails: the mod auto-enables and the
    document marks it enabled, yet the load never reaches the enable
    step.  The document holds a valid value for the slider of the mod;
    the callback of the slider refuses it by raising, the exception
    escapes from the load as the library lets it, and the mod is not
    enabled. *)
Lemma marked_enabled_but_callback_raises :
  auto_enable strict_mod = true /\
  marks_enabled strict_mod strict_fs = true /\
  raised (default_load_mod_settings sample_unicode_strip sample_unicode_float
            sample_float_repr sample_str_repr strict_mod strict_fs)
  = Some CallbackError /\
  is_enabled (post (default_load_mod_settings sample_unicode_strip
                      sample_unicode_float sample_float_repr sample_str_repr
                      strict_mod strict_fs)) = false /\
  (In EvEnable
      (trace (default_load_mod_settings sample_unicode_strip sample_unicode_float
                sample_float_repr sample_str_repr strict_mod strict_fs))
   -> False).
Proof.
  split; [ reflexivity | ]. split; [ reflexivity | ].
  split; [ reflexivity | ]. split; [ reflexivity | ].
  vm_compute. intros [H | []]. discriminate H.
Qed.

Lemma step_exceeding_witness :
  SliderOption_init "volume" (NInt 5) (NInt 0) (NInt 10) (NInt 20) true
                    None "" None false None
  = Raise ValueError.
Proof.
  refine (proj1 (proj2 slider_step_exceeding_range_raises)
                "volume" (NInt 5) 0 10 20 true None "" None false None _).
  reflexivity.
Defined.


(** The ordinary case of the change callback: it is entered first and
    once, its own assignment is a plain store, the new value is stored
    last. *)
Lemma on_change_ordinary_case :
  trace (set_value resetting (JInt 7))
  = [EvOnChange "secret" (JInt 7); EvStore "secret" (JInt 0); EvStore "secret" (JInt 7)].
Proof.
  refine (proj1 (proj2 (proj2 (proj2 (proj2 (proj2 (proj2 (proj2
            (on_change_runs_before_store_once resetting _ (JInt 7)
               eq_refl eq_refl))))))) (JInt 0) eq_refl)).
Qed.


(** [float] does not skip the separators 0x1c to 0x1f around an ASCII
    literal, which [str.strip] removes: such a string is logged as
    invalid and the value of the slider stays. *)
Lemma separator_not_skipped :
  strip sample_unicode_strip (String (ascii_of_nat 28) "7.6") = "7.6" /\
  py_float sample_unicode_float (JStr (String (ascii_of_nat 28) "7.6"))
  = Raise ValueError /\
  post (from_json sample_unicode_strip sample_unicode_float
          sample_float_repr sample_str_repr volume
          (JStr (String (ascii_of_nat 28) "7.6"))) = volume /\
  raised (from_json sample_unicode_strip sample_unicode_float
            sample_float_repr sample_str_repr volume
            (JStr (String (ascii_of_nat 28) "7.6"))) = None /\
  existsb is_log_error
          (trace (from_json sample_unicode_strip sample_unicode_float
                    sample_float_repr sample_str_repr volume
                    (JStr (String (ascii_of_nat 28) "7.6")))) = true.
Proof. repeat split. Qed.

End Examples.

(** * More closed instances

    The statements on the settings, the sliders and the mod factory at
    sample mods, projects and modules; the objects of the host are of
    type [unit]. *)

Module Instances.

Ltac distinct_strings :=
  repeat (constructor; [ simpl; intuition discriminate | ]); constructor.

Lemma save_then_load_witness :
  post (default_load_mod_settings
      sample_unicode_strip sample_unicode_float sample_float_repr sample_str_repr
      grouped_mod
          (default_save_mod_settings grouped_mod no_fs)) = grouped_mod.
Proof.
  refine (proj1 (proj2 (save_then_load_restores
      sample_unicode_strip sample_unicode_float sample_float_repr sample_str_repr
                          grouped_mod no_fs _))).
  assert (Hvolume : restorable volume).
  { split; [ exact I | ]. split; [ reflexivity | ]. eexists. split; reflexivity. }
  assert (Hmode : restorable mode).
  { split; [ exact I | ]. exists "b". split; [ reflexivity | right; left; reflexivity ]. }
  assert (Hhud : restorable hud).
  { split; [ exact I | ]. exists true. reflexivity. }
  split; [ | split ].
  - constructor; [ | constructor; [ exact Hhud | constructor ] ].
    split; [ split; [ exact Hvolume | split; [ exact Hmode | split; exact I ] ] | ].
    distinct_strings.
  - distinct_strings.
  - distinct_strings.
Defined.

Lemma group_saved_witness :
  exists doc od,
    default_save_mod_settings hollow_mod no_fs "hollow.json" = Document (JDict doc) /\
    dict_get doc "options" = Some (JDict od) /\
    dict_mem od "page" = true.
Proof.
  destruct (group_always_saved hollow_mod (base_of "page") [] "hollow.json" no_fs
              eq_refl (or_intror (or_introl eq_refl)))
    as (doc & od & H1 & H2 & H3 & _).
  exists doc, od. repeat split; assumption.
Defined.

Lemma bool_coerces_witness :
  option_value
    (post (from_json
        sample_unicode_strip sample_unicode_float sample_float_repr sample_str_repr
        hud (JStr "  FaLsE ")))
  = Some (JBool false).
Proof.
  exact (proj2 (bool_from_json_coerces
      sample_unicode_strip sample_unicode_float sample_float_repr sample_str_repr
                  (ValueOption_init (base_of "hud") (JBool true) None) None None I)
               "  " "FaLsE" " " eq_refl eq_refl eq_refl).
Defined.

Lemma keeps_domain_witness :
  in_domain (post (from_json
      sample_unicode_strip sample_unicode_float sample_float_repr sample_str_repr
      mode (JInt 3))).
Proof.
  refine (proj1 (proj2 (load_keeps_domain
      sample_unicode_strip sample_unicode_float sample_float_repr sample_str_repr
                          mode (JInt 3) _ I))).
  exists "b". split; [ reflexivity | right; left; reflexivity ].
Defined.

Lemma not_mapping_witness :
  load_options_dict
      sample_unicode_strip sample_unicode_float sample_float_repr sample_str_repr
      [volume; mode] (JInt 3)
  = mkOutcome [volume; mode] [] (Some TypeError).
Proof.
  exact (proj1 (options_section_not_mapping
      sample_unicode_strip sample_unicode_float sample_float_repr sample_str_repr
                  (JInt 3) eq_refl) [volume; mode]).
Defined.

Lemma pyproject_priority_witness :
  exists v,
    ns_get (post (update_fields_with_pyproject
                    (fun _ : string => @None unit) (fun _ : string => @None unit)
                    (fun _ : string => @None unit) (fun a _ : unit => a)
                    sample_toml (no_fields unit unit unit unit unit unit)))
           "name" = Some v.
Proof.
  eexists.
  apply (pyproject_table_priority unit unit unit unit unit unit
           (fun _ => None) (fun _ => None) (fun _ => None) (fun a _ => a)
           sample_toml
           [("sdkmod", JDict [("name", JStr "Nice Mod"); ("mod_type", JStr "Libary")])]
           [("name", JStr "Nice Mod"); ("mod_type", JStr "Libary")]
           [("name", JStr "nice-mod"); ("version", JStr "1.2.3");
            ("authors", JList [JDict [("name", JStr "Ann")];
                               JDict [("email", JStr "bob@example.org")];
                               JDict [("name", JStr "Cy")]])]
           (no_fields unit unit unit unit unit unit)
           eq_refl eq_refl eq_refl eq_refl "name"
           (PNone unit unit unit unit unit unit) eq_refl).
Defined.

Lemma module_search_witness :
  raised (update_fields_with_module_search
            (sample_module unit unit unit unit unit unit)
            (no_fields unit unit unit unit unit unit)) = None.
Proof.
  exact (proj1 (module_search_gathers sample_unicode_strip sample_unicode_float
                  sample_unicode_int sample_str_repr unit unit unit unit unit unit
                  (fun _ => None) (fun _ => None) (fun _ => None)
                  (sample_module unit unit unit unit unit unit)
                  (no_fields unit unit unit unit unit unit)
                  (PNone unit unit unit unit unit unit)
                  (PNone unit unit unit unit unit unit)
                  (PNone unit unit unit unit unit unit)
                  (PNone unit unit unit unit unit unit)
                  eq_refl eq_refl eq_refl eq_refl)).
Defined.

Lemma keyword_arguments_witness :
  exists kw,
    build_mod_kwargs (fun _ : string => @None unit) (fun _ : string => @None unit)
                     (fun _ : string => @None unit) (fun a _ : unit => a) true
                     (@default_version_info_parser sample_unicode_int
                        unit unit unit unit unit unit)
                     sample_toml (sample_module unit unit unit unit unit unit)
                     (no_fields unit unit unit unit unit unit) = Ok kw /\
    ns_get kw "_version_info" = None /\
    ns_get kw "mod_type" = None.
Proof.
  eexists. split; [ vm_compute; reflexivity | ].
  split.
  - refine (proj1 (proj2 (proj2
              (build_mod_keyword_arguments unit unit unit unit unit unit
                 (fun _ => None) (fun _ => None) (fun _ => None) (fun a _ => a) true
                 (@default_version_info_parser sample_unicode_int
                        unit unit unit unit unit unit)
                 sample_toml (sample_module unit unit unit unit unit unit)
                 (no_fields unit unit unit unit unit unit) _ eq_refl _)))).
    vm_compute. reflexivity.
  - reflexivity.
Defined.

Lemma float_value_witness :
  SliderOption_init "gain" (NFloat S754_nan) (NInt 0) (NInt 10) (NInt 1) true
                    None "" None false None
  = Raise ValueError.
Proof.
  exact (proj1 (proj2 (proj2
           (slider_init_float_value "gain" (NInt 0) (NInt 10) (NInt 1) None "" None
              false None (NInt 10) eq_refl eq_refl)))).
Defined.

End Instances.
